(** * Law Bandit back end: Google Calendar credential manager and event sync

    A shallow embedding of [utils/googleCalendar.js] (token resolution and
    refresh, the event mappers, pull synchronisation, the connection status
    probe) and of the refresh route of [routes/auth.js], together with the
    part of the ECMAScript [Date] object these functions rely on; then of
    the other routes of [routes/auth.js] and [routes/googleCalendar.js]
    that use them. *)

From Stdlib Require Import ZArith QArith Lia Bool List Ascii String.
From stdpp Require Import base decidable option list strings.
From Stdlib Require DecimalString.

Local Open Scope Z_scope.

#[local] Arguments String.append !s1 s2 : simpl nomatch.

(** ** ECMAScript time values

    A time value is a number of milliseconds since the epoch.  The day and
    year arithmetic follows the "Time Values and Time Range" clauses of the
    language specification, on [Z] with flooring division. *)

Module JsDate.

Definition msPerSecond : Z := 1000.
Definition msPerMinute : Z := 60000.
Definition msPerHour : Z := 3600000.
Definition msPerDay : Z := 86400000.

(** Largest magnitude of a valid time value (100,000,000 days). *)
Definition maxTime : Z := 8640000000000000.

Definition Day (t : Z) : Z := t / msPerDay.
Definition TimeWithinDay (t : Z) : Z := t mod msPerDay.

Definition isLeapYear (y : Z) : bool :=
  (y mod 4 =? 0) && (negb (y mod 100 =? 0) || (y mod 400 =? 0)).

Definition DaysInYear (y : Z) : Z := if isLeapYear y then 366 else 365.

Definition DayFromYear (y : Z) : Z :=
  365 * (y - 1970) + (y - 1969) / 4 - (y - 1901) / 100 + (y - 1601) / 400.

Definition TimeFromYear (y : Z) : Z := msPerDay * DayFromYear y.

(** The year containing day number [d], that is the largest [y] with
    [DayFromYear y <= d]: an estimate from the mean length of a Gregorian
    year, moved by one where the estimate misses. *)
Definition YearFromDay (d : Z) : Z :=
  let y := 1970 + (400 * d) / 146097 in
  if d <? DayFromYear y then y - 1
  else if DayFromYear (y + 1) <=? d then y + 1
  else y.

Definition YearFromTime (t : Z) : Z := YearFromDay (Day t).
Definition InLeapYear (t : Z) : bool := isLeapYear (YearFromTime t).
Definition DayWithinYear (t : Z) : Z := Day t - DayFromYear (YearFromTime t).

(** Day within the year on which month [m] (0 = January) begins; [m = 12]
    gives the length of the year. *)
Definition MonthStart (leap : bool) (m : Z) : Z :=
  let l := if leap then 1 else 0 in
  match m with
  | 0 => 0
  | 1 => 31
  | 2 => 59 + l
  | 3 => 90 + l
  | 4 => 120 + l
  | 5 => 151 + l
  | 6 => 181 + l
  | 7 => 212 + l
  | 8 => 243 + l
  | 9 => 273 + l
  | 10 => 304 + l
  | 11 => 334 + l
  | _ => 365 + l
  end.

Definition MonthFromDay (leap : bool) (dwy : Z) : Z :=
  if dwy <? MonthStart leap 1 then 0
  else if dwy <? MonthStart leap 2 then 1
  else if dwy <? MonthStart leap 3 then 2
  else if dwy <? MonthStart leap 4 then 3
  else if dwy <? MonthStart leap 5 then 4
  else if dwy <? MonthStart leap 6 then 5
  else if dwy <? MonthStart leap 7 then 6
  else if dwy <? MonthStart leap 8 then 7
  else if dwy <? MonthStart leap 9 then 8
  else if dwy <? MonthStart leap 10 then 9
  else if dwy <? MonthStart leap 11 then 10
  else 11.

Definition MonthFromTime (t : Z) : Z :=
  MonthFromDay (InLeapYear t) (DayWithinYear t).

Definition DateFromTime (t : Z) : Z :=
  DayWithinYear t - MonthStart (InLeapYear t) (MonthFromTime t) + 1.

Definition HourFromTime (t : Z) : Z := (t / msPerHour) mod 24.
Definition MinFromTime (t : Z) : Z := (t / msPerMinute) mod 60.
Definition SecFromTime (t : Z) : Z := (t / msPerSecond) mod 60.
Definition msFromTime (t : Z) : Z := t mod msPerSecond.

Definition MakeTime (hour min sec ms : Z) : Z :=
  hour * msPerHour + min * msPerMinute + sec * msPerSecond + ms.

Definition MakeDay (year month date : Z) : Z :=
  let ym := year + month / 12 in
  let mn := month mod 12 in
  DayFromYear ym + MonthStart (isLeapYear ym) mn + date - 1.

Definition MakeDate (day time : Z) : Z := day * msPerDay + time.

(** Number of days of month [m] (1 = January) of year [y]. *)
Definition DaysInMonth (y m : Z) : Z :=
  MonthStart (isLeapYear y) m - MonthStart (isLeapYear y) (m - 1).

(** A [Date] object holds a time value or NaN; [None] is NaN, the
    "Invalid Date". *)
Definition Date : Type := option Z.

Definition TimeClip (t : Z) : Date :=
  if Z.abs t <=? maxTime then Some t else None.

End JsDate.

(** ** Strings of the runtime

    Decimal fields of fixed width, and the few [String.prototype] methods
    the code calls. *)

Module JsString.

(** The character of the last decimal digit of [n]; the digits occupy the
    codes 48 to 57. *)
Definition digit (n : Z) : ascii := ascii_of_N (Z.to_N (48 + n mod 10)).

(** The value of a decimal digit, [None] for any other character. *)
Definition digit_val (c : ascii) : option Z :=
  let code := Z.of_N (N_of_ascii c) in
  if (48 <=? code) && (code <=? 57) then Some (code - 48) else None.

(** [digits w n]: the last [w] decimal digits of [n], most significant
    first; for [0 <= n < 10 ^ w] this is [n] zero-padded to [w] characters. *)
Fixpoint digits (w : nat) (n : Z) : string :=
  match w with
  | O => EmptyString
  | S w' =>
      String (digit (n / 10 ^ Z.of_nat w')) (digits w' (n mod 10 ^ Z.of_nat w'))
  end.

(** Reads exactly [w] decimal digits in front of [s], continuing the
    number [acc]. *)
Fixpoint read_digits (w : nat) (acc : Z) (s : string) : option (Z * string) :=
  match w with
  | O => Some (acc, s)
  | S w' =>
      match s with
      | String c s' =>
          match digit_val c with
          | Some v => read_digits w' (acc * 10 + v) s'
          | None => None
          end
      | EmptyString => None
      end
  end.

Fixpoint skip_digits (s : string) : string :=
  match s with
  | String c s' =>
      match digit_val c with
      | Some _ => skip_digits s'
      | None => s
      end
  | EmptyString => EmptyString
  end.

(** Consumes the character [c] in front of [s]. *)
Definition expect (c : ascii) (s : string) : option string :=
  match s with
  | String c' s' => if Ascii.eqb c' c then Some s' else None
  | EmptyString => None
  end.

(** [s.split(c)] for a one-character separator. *)
Fixpoint split (c : ascii) (s : string) : list string :=
  match s with
  | EmptyString => [EmptyString]
  | String c' s' =>
      if Ascii.eqb c' c then EmptyString :: split c s'
      else match split c s' with
           | p :: ps => String c' p :: ps
           | [] => [String c' EmptyString]
           end
  end.

(** No character of [s] is [c]. *)
Fixpoint lacks (c : ascii) (s : string) : Prop :=
  match s with
  | EmptyString => True
  | String c' s' => c' <> c /\ lacks c s'
  end.

(** [s.substring(0, n)]. *)
Definition substring0 (n : nat) (s : string) : string := String.substring 0 n s.

(** Truthiness of a string value that may be [null] or [undefined]: only a
    non-empty string is truthy. *)
Definition truthy (v : option string) : bool :=
  match v with
  | Some (String _ _) => true
  | _ => false
  end.

(** [v || d] for a possibly absent string [v]. *)
Definition or_default (v : option string) (d : string) : string :=
  match v with
  | Some (String c s) => String c s
  | _ => d
  end.

(** A value interpolated into a template literal. *)
Definition interpolate (v : option string) : string :=
  match v with
  | Some s => s
  | None => "undefined"
  end.

End JsString.

(** ** Date strings

    [Date.prototype.toISOString] and the constructor [new Date(string)] on
    the Date Time String Format, [YYYY-MM-DDTHH:mm:ss.sssZ] and its shorter
    forms.  A string without a time is read as UTC; a string with a time but
    no offset is read as local time.  The conversion from local time is the
    host's: [LocalTZA t false] is the offset of the process's time zone, in
    milliseconds, at local time [t].  A string outside the format gives the
    Invalid Date here (the runtime's fallback heuristics for other layouts
    are not modelled): what is stated below of a string that is not a date
    is stated of strings without a digit, which no layout admits. *)

Module JsDateString.
Import JsDate JsString.

Definition year_string (y : Z) : string :=
  if ((0 <=? y) && (y <=? 9999))%Z then digits 4 y
  else String (if (y <? 0)%Z then "-"%char else "+"%char) (digits 6 (Z.abs y)).

(** The date [YYYY-MM-DD], month counted from 1. *)
Definition ymd (y m d : Z) : string :=
  year_string y +:+ "-" +:+ digits 2 m +:+ "-" +:+ digits 2 d.

(** The time of day [HH:mm]. *)
Definition hm (h mi : Z) : string := digits 2 h +:+ ":" +:+ digits 2 mi.

Definition iso_date (t : Z) : string :=
  ymd (YearFromTime t) (MonthFromTime t + 1) (DateFromTime t).

Definition iso_time (t : Z) : string :=
  hm (HourFromTime t) (MinFromTime t) +:+ ":"
  +:+ digits 2 (SecFromTime t) +:+ "." +:+ digits 3 (msFromTime t).

(** [d.toISOString()]; [None] stands for the [RangeError] thrown on an
    Invalid Date. *)
Definition toISOString (d : Date) : option string :=
  t ← d; Some (iso_date t +:+ "T" +:+ iso_time t +:+ "Z").

(** Fractional seconds: at least one digit; the first three count as
    milliseconds and further digits are dropped. *)
Definition read_fraction (s : string) : option (Z * string) :=
  match s with
  | String c1 s1 =>
      d1 ← digit_val c1;
      match s1 with
      | String c2 s2 =>
          match digit_val c2 with
          | None => Some (d1 * 100, s1)
          | Some d2 =>
              match s2 with
              | String c3 s3 =>
                  match digit_val c3 with
                  | None => Some (d1 * 100 + d2 * 10, s2)
                  | Some d3 => Some (d1 * 100 + d2 * 10 + d3, skip_digits s3)
                  end
              | EmptyString => Some (d1 * 100 + d2 * 10, s2)
              end
          end
      | EmptyString => Some (d1 * 100, s1)
      end
  | EmptyString => None
  end.

Definition parse_year (s : string) : option (Z * string) :=
  match s with
  | String c s' =>
      if Ascii.eqb c "+" then read_digits 6 0 s'
      else if Ascii.eqb c "-" then
        '(y, r) ← read_digits 6 0 s';
        if y =? 0 then None else Some (- y, r)
      else read_digits 4 0 s
  | EmptyString => None
  end.

(** Year, month (1 to 12) and day of the month; the shorter forms [YYYY]
    and [YYYY-MM] default the missing fields to 1. *)
Definition parse_date (s : string) : option (Z * Z * Z * string) :=
  '(y, s1) ← parse_year s;
  match expect "-" s1 with
  | None => Some (y, 1, 1, s1)
  | Some s2 =>
      '(m, s3) ← read_digits 2 0 s2;
      match expect "-" s3 with
      | None => Some (y, m, 1, s3)
      | Some s4 => '(d, s5) ← read_digits 2 0 s4; Some (y, m, d, s5)
      end
  end.

(** Hours, minutes, seconds and milliseconds of [HH:mm], [HH:mm:ss] or
    [HH:mm:ss.sss]. *)
Definition parse_time (s : string) : option (Z * Z * Z * Z * string) :=
  '(h, s1) ← read_digits 2 0 s;
  s2 ← expect ":" s1;
  '(mi, s3) ← read_digits 2 0 s2;
  match expect ":" s3 with
  | None => Some (h, mi, 0, 0, s3)
  | Some s4 =>
      '(sec, s5) ← read_digits 2 0 s4;
      match expect "." s5 with
      | None => Some (h, mi, sec, 0, s5)
      | Some s6 => '(ms, s7) ← read_fraction s6; Some (h, mi, sec, ms, s7)
      end
  end.

(** The UTC offset that ends a date-time string, in minutes east of
    Greenwich, or its absence. *)
Inductive Zone : Type :=
  | ZoneLocal
  | ZoneOffset (minutes : Z).

Definition parse_zone (s : string) : option Zone :=
  match s with
  | EmptyString => Some ZoneLocal
  | String c s1 =>
      if Ascii.eqb c "Z" then
        match s1 with EmptyString => Some (ZoneOffset 0) | _ => None end
      else if Ascii.eqb c "+" || Ascii.eqb c "-" then
        '(h, s2) ← read_digits 2 0 s1;
        s3 ← expect ":" s2;
        '(m, s4) ← read_digits 2 0 s3;
        match s4 with
        | EmptyString =>
            if (h <? 24) && (m <? 60) then
              Some (ZoneOffset ((if Ascii.eqb c "-" then -1 else 1) * (h * 60 + m)))
            else None
        | _ => None
        end
      else None
  end.

Definition valid_time (h mi sec ms : Z) : bool :=
  ((h <? 24) && (mi <? 60) && (sec <? 60))
  || ((h =? 24) && (mi =? 0) && (sec =? 0) && (ms =? 0)).

Section Host.

Variable LocalTZA : Z -> bool -> Z.

(** Local time to UTC. *)
Definition UTC (t : Z) : Z := t - LocalTZA t false.

(** [new Date(s)] for a string [s]. *)
Definition Date_parse (s : string) : Date :=
  '(y, m, d, s1) ← parse_date s;
  if (1 <=? m) && (m <=? 12) && (1 <=? d) && (d <=? 31) then
    let day := MakeDay y (m - 1) d in
    match s1 with
    | EmptyString => TimeClip (MakeDate day 0)
    | String c s2 =>
        if Ascii.eqb c "T" then
          '(h, mi, sec, ms, s3) ← parse_time s2;
          zone ← parse_zone s3;
          if valid_time h mi sec ms then
            let t := MakeDate day (MakeTime h mi sec ms) in
            match zone with
            | ZoneLocal => TimeClip (UTC t)
            | ZoneOffset o => TimeClip (t - o * msPerMinute)
            end
          else None
        else None
    end
  else None.

End Host.

(** [new Date(n)] for a number [n]. *)
Definition Date_ofNumber (n : Z) : Date := TimeClip n.

(** [d.getTime() + n]; NaN is absorbing. *)
Definition plus_ms (d : Date) (n : Z) : option Z := t ← d; Some (t + n).

(** [a > b] on two dates: false as soon as one of them is invalid. *)
Definition Date_gt (a b : Date) : bool :=
  match a, b with
  | Some x, Some y => y <? x
  | _, _ => false
  end.

End JsDateString.

(** ** Values, rows and messages *)

(** The JavaScript values that reach the status object: the operators
    [&&] and [||] return one of their operands, not a boolean. *)
Module Js.

Inductive value : Type :=
  | undefined
  | null
  | boolean (b : bool)
  | str (s : string).

Definition ToBoolean (v : value) : bool :=
  match v with
  | undefined | null => false
  | boolean b => b
  | str EmptyString => false
  | str (String _ _) => true
  end.

(** [a && b]. *)
Definition and (a b : value) : value := if ToBoolean a then b else a.
(** [a || b]. *)
Definition or (a b : value) : value := if ToBoolean a then a else b.
(** [!a]. *)
Definition not (a : value) : value := boolean (negb (ToBoolean a)).

(** A nullable text column as the store client returns it. *)
Definition of_column (c : option string) : value :=
  match c with
  | Some s => str s
  | None => null
  end.

End Js.

(** A row of the table [google_calendar_tokens]; [None] is SQL [NULL]. *)
Module TokenRow.
Record t : Type := mk {
  user_id : string;
  email : option string;
  access_token : option string;
  refresh_token : option string;
  expiry_date : option string
}.
End TokenRow.

(** The credentials object of the authorization client: what
    [refreshAccessToken] resolves to.  [expiry_date] is a number of
    milliseconds, when the server sent one. *)
Module Credentials.
Record t : Type := mk {
  access_token : string;
  refresh_token : option string;
  expiry_date : option Z
}.
End Credentials.

(** The objects passed to [oauth2Client.setCredentials] and returned by
    [getUserTokensFromDatabase]. *)
Inductive Tokens : Type :=
  | StoredTokens (access_token refresh_token expiry_date : option string)
                 (user_id : string)
  | RefreshedCredentials (credentials : Credentials.t)
  | RefreshTokenOnly (refresh_token : string).

(** A row of the table [calendar_events], with the columns the sync
    writes. *)
Module EventRow.
Record t : Type := mk {
  user_id : string;
  class_id : option string;
  title : string;
  description : string;
  event_type : string;
  due_date : option string;
  due_time : option string;
  confidence_score : Q;
  source_text : string;
  created_at : string
}.
End EventRow.

(** An event as the calendar service lists it.  [start] carries
    [dateTime] for a timed event and [date] for an all-day one. *)
Module RemoteEvent.
Record time : Type := mkTime {
  dateTime : option string;
  date : option string
}.
Record t : Type := mk {
  id : string;
  summary : option string;
  description : option string;
  start : time
}.
End RemoteEvent.

(** The [eventData] body of the add-event route, after the route has
    checked that [title] and [due_date] are present. *)
Module EventData.
Record t : Type := mk {
  title : string;
  description : option string;
  location : option string;
  due_date : string;
  due_time : option string
}.
End EventData.

(** The resource sent to [calendar.events.insert]. *)
Module GoogleEvent.
Record time : Type := mkTime {
  dateTime : string;
  timeZone : string
}.
Record reminder : Type := mkReminder {
  method : string;
  minutes : Z
}.
Record t : Type := mk {
  summary : string;
  description : string;
  location : string;
  start : time;
  end_ : time;
  useDefault : bool;
  overrides : list reminder
}.
End GoogleEvent.

(** Parameters of [calendar.events.list]. *)
Module ListParams.
Record t : Type := mk {
  calendarId : string;
  timeMin : string;
  timeMax : string;
  maxResults : Z;
  singleEvents : bool;
  orderBy : string
}.
End ListParams.

(** What [getUserConnectionStatusFromDatabase] resolves to; a field the
    object does not have is [Js.undefined] (or [None] for [error]). *)
Module Status.
Record t : Type := mk {
  connected : bool;
  lastSync : Js.value;
  needsRefresh : Js.value;
  error : option string
}.
End Status.

(** The JSON bodies of the refresh route, and a response with its status. *)
Inductive Body : Type :=
  | ErrorBody (error : string)
  | RefreshedBody (message : string) (tokens : Credentials.t).

Record Response : Type := mkResponse {
  status : Z;
  body : Body
}.

(** A thrown [Error], with its message. *)
Inductive Error : Type := Err (message : string).

Inductive Result (A : Type) : Type :=
  | Ok (a : A)
  | Throw (e : Error).
Arguments Ok {A} a.
Arguments Throw {A} e.

(** The calls that leave the process: to the store, to the authorization
    server and to the calendar service. *)
Inductive Call : Type :=
  | SelectToken (user_id : string)
  | UpdateToken (user_id : string) (access_token : string)
                (expiry_date : option string)
  | UpsertEvents (rows : list EventRow.t)
  | RefreshAccessToken (client : option Tokens)
  | EventsList (params : ListParams.t).

(** How a store call can go wrong: the client resolves to an object with
    [error] set, or the call itself rejects. *)
Inductive Fault : Type :=
  | NoFault
  | ErrorReply (message : string)
  | Rejects (message : string).

(** The [{ data, error }] object a store call resolves to. *)
Inductive Reply (A : Type) : Type :=
  | Data (data : A)
  | StoreError (message : string).
Arguments Data {A} data.
Arguments StoreError {A} message.

(** Everything outside the process during one operation: the clock, the
    time zone, the faults of the store, and the answers of the
    authorization server and of the calendar service. *)
Record Host : Type := mkHost {
  now : Z;
  timeZone : string;
  LocalTZA : Z -> bool -> Z;
  store_fault : Call -> Fault;
  refreshAccessToken : option Tokens -> Result Credentials.t;
  events_list : ListParams.t -> Result (list RemoteEvent.t)
}.

(** The two tables, the credentials held by the module-wide authorization
    client, and the calls made so far (oldest first). *)
Record World : Type := mkWorld {
  google_calendar_tokens : list TokenRow.t;
  calendar_events : list EventRow.t;
  oauth2Client : option Tokens;
  calls : list Call
}.

(** ** Operations: state and exceptions

    An asynchronous function is a computation over the [World] that ends
    with a value or with a thrown [Error]. *)

Definition M (A : Type) : Type := World -> Result A * World.

Definition ret {A} (a : A) : M A := fun w => (Ok a, w).
Definition throw {A} (e : Error) : M A := fun w => (Throw e, w).
Definition bind {A B} (m : M A) (k : A -> M B) : M B :=
  fun w => match m w with
           | (Ok a, w') => k a w'
           | (Throw e, w') => (Throw e, w')
           end.

Notation "'do' x <- m ; k" := (bind m (fun x => k))
  (at level 10, x name, m at level 100, k at level 200).
Notation "'do_' m ; k" := (bind m (fun _ => k))
  (at level 10, m at level 100, k at level 200).

(** Lifts a synchronous result. *)
Definition lift {A} (r : Result A) : M A := fun w => (r, w).

(** Records a call that leaves the process. *)
Definition call (c : Call) : M unit :=
  fun w => (Ok tt, mkWorld (google_calendar_tokens w) (calendar_events w)
                           (oauth2Client w) (calls w ++ [c])).

(** [oauth2Client.setCredentials(tokens)]. *)
Definition setCredentials (tokens : Tokens) : M unit :=
  fun w => (Ok tt, mkWorld (google_calendar_tokens w) (calendar_events w)
                           (Some tokens) (calls w)).

(** [mapM] over a list, left to right, stopping at the first throw. *)
Fixpoint traverse {A B} (f : A -> Result B) (l : list A) : Result (list B) :=
  match l with
  | [] => Ok []
  | x :: l' =>
      match f x with
      | Throw e => Throw e
      | Ok y =>
          match traverse f l' with
          | Throw e => Throw e
          | Ok ys => Ok (y :: ys)
          end
      end
  end.

(** *** The relational store *)

Module Store.

(** Modelled from the spec: the store's filtered single-row select,
    [from(table).select().eq("user_id", u).single()]; it answers with an
    error unless exactly one row matches. *)
Definition single (u : string) (tbl : list TokenRow.t) : Reply TokenRow.t :=
  match filter (fun r => String.eqb (TokenRow.user_id r) u) tbl with
  | [r] => Data r
  | _ => StoreError "JSON object requested, multiple (or no) rows returned"
  end.

(** Modelled from the spec: the store's filtered update,
    [update({ access_token, expiry_date }).eq("user_id", u)]; the named
    columns of every matching row are overwritten. *)
Definition update (u : string) (access_token : string)
    (expiry_date : option string) (tbl : list TokenRow.t) : list TokenRow.t :=
  map (fun r =>
         if String.eqb (TokenRow.user_id r) u then
           TokenRow.mk (TokenRow.user_id r) (TokenRow.email r)
                       (Some access_token) (TokenRow.refresh_token r)
                       expiry_date
         else r) tbl.

(** The columns named by [onConflict: "user_id,title,due_date"]. *)
Definition conflict_key (r : EventRow.t) : string * string * option string :=
  (EventRow.user_id r, EventRow.title r, EventRow.due_date r).

Definition same_key (a b : EventRow.t) : bool :=
  bool_decide (conflict_key a = conflict_key b).

Abbreviation keys tbl := (map conflict_key tbl).

(** Modelled from the spec: the store's upsert with a conflict key.  A row
    matching the new one on the key is overwritten in place; a row with a
    new key is inserted. *)
Fixpoint upsert_row (r : EventRow.t) (tbl : list EventRow.t) : list EventRow.t :=
  match tbl with
  | [] => [r]
  | r' :: tbl' =>
      if same_key r' r then r :: tbl' else r' :: upsert_row r tbl'
  end.

(** Modelled from the spec: the batch upsert, one row after the other. *)
Definition upsert (rows : list EventRow.t) (tbl : list EventRow.t) : list EventRow.t :=
  fold_left (fun t r => upsert_row r t) rows tbl.

End Store.

(** *** [utils/googleCalendar.js] *)

Section Operations.

Import JsDate JsString JsDateString.

Variable host : Host.

(** [new Date()]. *)
Definition Date_now : Date := Some (now host).

(** [new Date(s)] in the time zone of the process. *)
Definition Date_ofString (s : string) : Date := Date_parse (LocalTZA host) s.

(** [d.toISOString()] as a step that may throw. *)
Definition toISOString_or_throw (d : Date) : Result string :=
  match toISOString d with
  | Some s => Ok s
  | None => Throw (Err "Invalid time value")
  end.

(** [supabase.from("google_calendar_tokens").select("*").eq("user_id",
    userId).single()]. *)
Definition select_token (userId : string) : M (Reply TokenRow.t) :=
  do_ call (SelectToken userId);
  fun w =>
    match store_fault host (SelectToken userId) with
    | Rejects msg => (Throw (Err msg), w)
    | ErrorReply msg => (Ok (StoreError msg), w)
    | NoFault => (Ok (Store.single userId (google_calendar_tokens w)), w)
    end.

(** [supabase.from("google_calendar_tokens").update({ access_token,
    expiry_date }).eq("user_id", userId)]. *)
Definition update_token (userId : string) (access_token : string)
    (expiry_date : option string) : M (Reply unit) :=
  let c := UpdateToken userId access_token expiry_date in
  do_ call c;
  fun w =>
    match store_fault host c with
    | Rejects msg => (Throw (Err msg), w)
    | ErrorReply msg => (Ok (StoreError msg), w)
    | NoFault =>
        (Ok (Data tt),
         mkWorld (Store.update userId access_token expiry_date
                    (google_calendar_tokens w))
                 (calendar_events w) (oauth2Client w) (calls w))
    end.

(** [supabase.from("calendar_events").upsert(rows, { onConflict:
    "user_id,title,due_date" })]. *)
Definition upsert_events (rows : list EventRow.t) : M (Reply unit) :=
  do_ call (UpsertEvents rows);
  fun w =>
    match store_fault host (UpsertEvents rows) with
    | Rejects msg => (Throw (Err msg), w)
    | ErrorReply msg => (Ok (StoreError msg), w)
    | NoFault =>
        (Ok (Data tt),
         mkWorld (google_calendar_tokens w)
                 (Store.upsert rows (calendar_events w))
                 (oauth2Client w) (calls w))
    end.

(** [oauth2Client.refreshAccessToken()], with the credentials the client
    holds at that moment.  The library assigns the credentials it resolves
    to ([this.credentials = tokens]) before it returns them: from then on
    the client holds the object the caller receives. *)
Definition oauth2Client_refreshAccessToken : M Credentials.t :=
  fun w =>
    let client := oauth2Client w in
    bind (call (RefreshAccessToken client))
         (fun _ =>
            do credentials <- lift (refreshAccessToken host client);
            do_ setCredentials (RefreshedCredentials credentials);
            ret credentials) w.

(** [credentials.expiry_date ? new Date(credentials.expiry_date)
    .toISOString() : null]; the number 0 is falsy. *)
Definition expiry_column (expiry_date : option Z) : Result (option string) :=
  match expiry_date with
  | None | Some 0 => Ok None
  | Some n =>
      match toISOString_or_throw (Date_ofNumber n) with
      | Ok s => Ok (Some s)
      | Throw e => Throw e
      end
  end.

Definition refreshUserTokensFromDatabase (userId refreshToken : string)
  : M Credentials.t :=
  do_ setCredentials (RefreshTokenOnly refreshToken);
  do credentials <- oauth2Client_refreshAccessToken;
  do expiry <- lift (expiry_column (Credentials.expiry_date credentials));
  do reply <- update_token userId (Credentials.access_token credentials) expiry;
  match reply with
  | StoreError msg =>
      throw (Err ("Failed to update tokens in database: " +:+ msg))
  | Data _ => ret credentials
  end.

(** [new Date(c)] for a nullable text column: [new Date(null)] is the
    epoch. *)
Definition Date_ofColumn (c : option string) : Date :=
  match c with
  | Some s => Date_ofString s
  | None => Date_ofNumber 0
  end.

(** [tokenData.expiry_date && new Date() > new Date(tokenData.expiry_date)]:
    the value [&&] stops at. *)
Definition isExpired (tokenData : TokenRow.t) : Js.value :=
  Js.and (Js.of_column (TokenRow.expiry_date tokenData))
         (Js.boolean (Date_gt Date_now
                        (Date_ofColumn (TokenRow.expiry_date tokenData)))).

Definition getUserTokensFromDatabase (userId : string) : M Tokens :=
  if negb (truthy (Some userId)) then throw (Err "User ID is required")
  else
    do reply <- select_token userId;
    match reply with
    | StoreError _ => throw (Err "No Google tokens found in database")
    | Data tokenData =>
        if Js.ToBoolean (isExpired tokenData) then
          match TokenRow.refresh_token tokenData with
          | Some (String c s) =>
              do credentials <- refreshUserTokensFromDatabase userId (String c s);
              ret (RefreshedCredentials credentials)
          | _ => throw (Err "Token expired and no refresh token available")
          end
        else
          ret (StoredTokens (TokenRow.access_token tokenData)
                            (TokenRow.refresh_token tokenData)
                            (TokenRow.expiry_date tokenData)
                            (TokenRow.user_id tokenData))
    end.

(** The calendar client is the module-wide authorization client with the
    resolved tokens set on it. *)
Definition getCalendarClientFromDatabase (userId : string) : M unit :=
  do tokens <- getUserTokensFromDatabase userId;
  setCredentials tokens.

Definition reminder_overrides : list GoogleEvent.reminder :=
  [ GoogleEvent.mkReminder "email" (24 * 60);
    GoogleEvent.mkReminder "popup" 30 ].

(** The [startTime] and [endTime] dates of [formatEventForGoogleCalendar]. *)
Definition event_times (eventData : EventData.t) : Date * Date :=
  let dueDate := Date_ofString (EventData.due_date eventData) in
  let timed := truthy (EventData.due_time eventData) in
  let startTime :=
    if timed then
      Date_ofString (EventData.due_date eventData +:+ "T"
                     +:+ interpolate (EventData.due_time eventData))
    else dueDate in
  let endTime :=
    if timed then t ← plus_ms startTime (60 * 60 * 1000); Date_ofNumber t
    else t ← plus_ms dueDate (24 * 60 * 60 * 1000); Date_ofNumber t in
  (startTime, endTime).

Definition formatEventForGoogleCalendar (eventData : EventData.t)
  : Result GoogleEvent.t :=
  let '(startTime, endTime) := event_times eventData in
  match toISOString_or_throw startTime with
  | Throw e => Throw e
  | Ok startISO =>
      match toISOString_or_throw endTime with
      | Throw e => Throw e
      | Ok endISO =>
          Ok (GoogleEvent.mk
                (EventData.title eventData)
                (or_default (EventData.description eventData) EmptyString)
                (or_default (EventData.location eventData) EmptyString)
                (GoogleEvent.mkTime startISO (timeZone host))
                (GoogleEvent.mkTime endISO (timeZone host))
                false
                reminder_overrides)
      end
  end.

(** The callback of [events.map] in [syncEventsToDatabaseFromDatabase]:
    one remote event to one row of [calendar_events]. *)
Definition toInternal (userId : string) (event : RemoteEvent.t)
  : Result EventRow.t :=
  let start := RemoteEvent.start event in
  let due :=
    match RemoteEvent.dateTime start with
    | Some (String c s) =>
        match toISOString_or_throw (Date_ofString (String c s)) with
        | Throw e => Throw e
        | Ok iso =>
            match split "T" iso with
            | d :: t :: _ => Ok (Some d, Some (substring0 5 t))
            | _ => Throw (Err "Cannot read properties of undefined")
            end
        end
    | _ => Ok (RemoteEvent.date start, None)
    end in
  match due with
  | Throw e => Throw e
  | Ok (due_date, due_time) =>
      match toISOString_or_throw Date_now with
      | Throw e => Throw e
      | Ok created =>
          Ok (EventRow.mk
                userId
                None
                (or_default (RemoteEvent.summary event) "Untitled Event")
                (or_default (RemoteEvent.description event) EmptyString)
                "google_calendar"
                due_date
                due_time
                1%Q
                ("Google Calendar Event: " +:+ interpolate (RemoteEvent.summary event))
                created)
      end
  end.

(** [calendar.events.list(params)]. *)
Definition calendar_events_list (params : ListParams.t)
  : M (list RemoteEvent.t) :=
  do_ call (EventsList params);
  lift (events_list host params).

(** [bound ? new Date(bound).toISOString() : new Date(fallback)
    .toISOString()]. *)
Definition window_bound (bound : option string) (fallback : Date) : Result string :=
  match bound with
  | Some (String c s) => toISOString_or_throw (Date_ofString (String c s))
  | _ => toISOString_or_throw fallback
  end.

(** The object [{ syncedCount, events }]. *)
Record SyncResult : Type := mkSyncResult {
  syncedCount : nat;
  events : list RemoteEvent.t
}.

Definition syncEventsToDatabaseFromDatabase (userId calendarId : string)
    (startDate endDate : option string) : M SyncResult :=
  do_ getCalendarClientFromDatabase userId;
  do timeMin <- lift (window_bound startDate Date_now);
  do timeMax <- lift (window_bound endDate
                        (Date_ofNumber (now host + 365 * 24 * 60 * 60 * 1000)));
  do items <- calendar_events_list
                (ListParams.mk calendarId timeMin timeMax 2500 true "startTime");
  do eventsToInsert <- lift (traverse (toInternal userId) items);
  do reply <- upsert_events eventsToInsert;
  match reply with
  | StoreError msg =>
      throw (Err ("Failed to sync events to database: " +:+ msg))
  | Data _ => ret (mkSyncResult (length items) items)
  end.

Definition getUserConnectionStatusFromDatabase (userId : string) : M Status.t :=
  fun w =>
    let not_connected :=
      Status.mk false Js.undefined Js.undefined None in
    let body : M Status.t :=
      if negb (truthy (Some userId)) then ret not_connected
      else
        do reply <- select_token userId;
        match reply with
        | StoreError _ => ret not_connected
        | Data tokenData =>
            let expired := isExpired tokenData in
            let has_refresh :=
              Js.not (Js.not (Js.of_column (TokenRow.refresh_token tokenData))) in
            ret (Status.mk
                   (Js.ToBoolean (Js.or (Js.not expired) has_refresh))
                   (Js.of_column (TokenRow.expiry_date tokenData))
                   (Js.and expired has_refresh)
                   None)
        end in
    match body w with
    | (Ok status, w') => (Ok status, w')
    | (Throw (Err message), w') =>
        (Ok (Status.mk false Js.undefined Js.undefined (Some message)), w')
    end.

(** *** The refresh route of [routes/auth.js] *)

(** [POST /google/refresh/:userId]: the status and the JSON body sent. *)
Definition post_google_refresh (userId : string) : World -> Response * World :=
  fun w =>
    let body : M Response :=
      if negb (truthy (Some userId)) then
        ret (mkResponse 400 (ErrorBody "User ID is required"))
      else
        do reply <- select_token userId;
        match reply with
        | StoreError _ => ret (mkResponse 404 (ErrorBody "No refresh token found"))
        | Data tokenData =>
            match TokenRow.refresh_token tokenData with
            | Some (String c s) =>
                do_ setCredentials (RefreshTokenOnly (String c s));
                do credentials <- oauth2Client_refreshAccessToken;
                do expiry <- lift (expiry_column (Credentials.expiry_date credentials));
                do reply <- update_token userId
                              (Credentials.access_token credentials) expiry;
                match reply with
                | StoreError _ =>
                    ret (mkResponse 500 (ErrorBody "Failed to update tokens"))
                | Data _ =>
                    ret (mkResponse 200
                           (RefreshedBody "Tokens refreshed successfully" credentials))
                end
            | _ => ret (mkResponse 404 (ErrorBody "No refresh token found"))
            end
        end in
    match body w with
    | (Ok response, w') => (response, w')
    | (Throw _, w') => (mkResponse 500 (ErrorBody "Failed to refresh tokens"), w')
    end.

End Operations.

(** ** Notions used in the statements *)

Section Statements.
Import JsDate JsString JsDateString.

(** The world after the calls [cs] have been made and nothing else has
    changed. *)
Definition logged (w : World) (cs : list Call) : World :=
  mkWorld (google_calendar_tokens w) (calendar_events w) (oauth2Client w)
          (calls w ++ cs).

(** Two states of the token table that differ at most in the access token
    and the expiry of their rows. *)
Definition refresh_frame (tbl tbl' : list TokenRow.t) : Prop :=
  Forall2 (fun r r' =>
             TokenRow.user_id r' = TokenRow.user_id r
             /\ TokenRow.email r' = TokenRow.email r
             /\ TokenRow.refresh_token r' = TokenRow.refresh_token r)
          tbl tbl'.

(** The part of [getUserTokensFromDatabase] that follows the select, run on
    the row the store answered with. *)
Definition resolve_row (host : Host) (userId : string) (w' : World)
    (r : TokenRow.t)
  : Result Tokens * World :=
  if Js.ToBoolean (isExpired host r) then
    match TokenRow.refresh_token r with
    | Some (String c s) =>
        match refreshUserTokensFromDatabase host userId (String c s) w' with
        | (Ok credentials, w'') => (Ok (RefreshedCredentials credentials), w'')
        | (Throw e, w'') => (Throw e, w'')
        end
    | _ => (Throw (Err "Token expired and no refresh token available"), w')
    end
  else
    (Ok (StoredTokens (TokenRow.access_token r) (TokenRow.refresh_token r)
                      (TokenRow.expiry_date r) (TokenRow.user_id r)), w').

(** The row a remote event maps to, given what its start was read as. *)
Definition mapped_row (host : Host) (userId : string) (event : RemoteEvent.t)
    (due_date due_time : option string) : EventRow.t :=
  EventRow.mk userId None
    (or_default (RemoteEvent.summary event) "Untitled Event")
    (or_default (RemoteEvent.description event) EmptyString)
    "google_calendar" due_date due_time 1%Q
    ("Google Calendar Event: " +:+ interpolate (RemoteEvent.summary event))
    (iso_date (now host) +:+ "T" +:+ iso_time (now host) +:+ "Z").

End Statements.

(** ** Example data *)

Module Examples.

(** 2024-01-15T10:00:00.000Z on the clock, in New York (UTC-5 in winter). *)
Definition host_new_york : Host :=
  mkHost 1705312800000 "America/New_York" (fun _ _ => -18000000)
         (fun _ => NoFault)
         (fun _ => Ok (Credentials.mk "ya29.fresh" (Some "1//refresh") None))
         (fun _ =>
            Ok [ RemoteEvent.mk "evt1" (Some "Evidence seminar") None
                   (RemoteEvent.mkTime (Some "2024-01-15T20:00:00-05:00") None);
                 RemoteEvent.mk "evt2" None None
                   (RemoteEvent.mkTime None (Some "2024-01-17")) ]).

Definition row (expiry : option string) (refresh : option string) : TokenRow.t :=
  TokenRow.mk "user-1" (Some "user-user-1@law-bandit.com") (Some "ya29.stored")
              refresh expiry.

Definition world (expiry : option string) (refresh : option string) : World :=
  mkWorld [row expiry refresh] [] None [].

End Examples.

(** ** The HTTP routes

    The handlers of [routes/googleCalendar.js] and of [routes/auth.js] that
    go through the credential manager or write the token table.  A handler
    reads the parameters, the query and the JSON body of a request and
    answers with a status and a JSON body.  The members of [eventData] are
    taken to be strings, [null] or absent; the other members of a request
    strings or absent, and [eventData] an object or absent.  The list
    routes, whose answers are projections of what the services return, the
    authorization URL and the connection test are left out. *)

(** *** JSON values *)

Module Json.

#[local] Set Warnings "-register-all".

Inductive t : Type :=
  | null
  | boolean (b : bool)
  | number (n : Z)
  | text (s : string)
  | array (items : list t)
  | object (members : list (string * t)).

Fixpoint assoc (k : string) (ms : list (string * t)) : option t :=
  match ms with
  | [] => None
  | (k', v) :: ms' => if String.eqb k' k then Some v else assoc k ms'
  end.

(** [v.k]; [None] is [undefined]. *)
Definition member (k : string) (v : t) : option t :=
  match v with
  | object ms => assoc k ms
  | _ => None
  end.

(** An object literal as it is serialised: a member whose value is
    [undefined] is left out. *)
Definition literal (ms : list (string * option t)) : t :=
  object (omap (fun m => v ← m.2; Some (m.1, v)) ms).

Definition of_value (v : Js.value) : option t :=
  match v with
  | Js.undefined => None
  | Js.null => Some null
  | Js.boolean b => Some (boolean b)
  | Js.str s => Some (text s)
  end.

(** A nullable column as the store client returns it. *)
Definition of_column (c : option string) : t :=
  match c with
  | Some s => text s
  | None => null
  end.

End Json.

(** *** Responses *)

Module Http.

Record response : Type := mk {
  status : Z;
  body : Json.t
}.

(** [res.json(b)]. *)
Definition json (b : Json.t) : response := mk 200 b.

(** [res.status(code).json({ error })]. *)
Definition error (code : Z) (message : string) : response :=
  mk code (Json.object [("error", Json.text message)]).

(** [res.status(500).json({ error, details: error.message })]. *)
Definition failure (message : string) (e : Error) : response :=
  match e with
  | Err details =>
      mk 500 (Json.object [("error", Json.text message);
                           ("details", Json.text details)])
  end.

End Http.

(** *** Request bodies and the resources sent to the calendar service *)

(** A member of [eventData]: absent ([undefined]), [null] or a string. *)
Module Member.
Inductive t : Type :=
  | absent
  | null
  | text (s : string).

(** The string of a member that is one.  A test for truthiness, [v || d]
    and [formatEventForGoogleCalendar] see no more of a member than
    this. *)
Definition text_of (v : t) : option string :=
  match v with
  | text s => Some s
  | _ => None
  end.

(** A member interpolated into a template literal. *)
Definition interpolate (v : t) : string :=
  match v with
  | absent => "undefined"
  | null => "null"
  | text s => s
  end.
End Member.

(** The [eventData] member of a body, before any check. *)
Module EventBody.
Record t : Type := mk {
  title : Member.t;
  description : Member.t;
  location : Member.t;
  due_date : Member.t;
  due_time : Member.t
}.
End EventBody.

(** The resource sent to [calendar.events.update]; its [summary] is the
    [title] of the body as it came. *)
Module EventPatch.
Record t : Type := mk {
  summary : Member.t;
  description : string;
  location : string;
  start : GoogleEvent.time;
  end_ : GoogleEvent.time
}.
End EventPatch.

(** The resource sent to [calendar.calendars.insert]. *)
Module CalendarDraft.
Record t : Type := mk {
  summary : string;
  description : string;
  timeZone : string
}.
End CalendarDraft.

(** The calls of the routes that leave the process, besides those of
    [Call]: to the token table, to the authorization server, and to the
    calendar service with the credentials its client holds at that
    moment.  Events are written with [sendUpdates: "all"]. *)
Inductive Request : Type :=
  | UpsertToken (row : TokenRow.t)
  | DeleteToken (user_id : string)
  | GetToken (code : string)
  | EventsInsert (auth : option Tokens) (calendarId : string)
                 (resource : GoogleEvent.t)
  | EventsUpdate (auth : option Tokens) (calendarId eventId : string)
                 (resource : EventPatch.t)
  | EventsDelete (auth : option Tokens) (calendarId eventId : string)
  | CalendarsInsert (auth : option Tokens) (resource : CalendarDraft.t)
  | CalendarsDelete (auth : option Tokens) (calendarId : string).

(** What answers the requests: the authorization server exchanging a code,
    the faults of the store, and [response.data] of the calendar service,
    an object. *)
Record Services : Type := mkServices {
  getToken : string -> Result Credentials.t;
  request_fault : Request -> Fault;
  calendar_api : Request -> Result (list (string * Json.t))
}.

(** The state a handler runs in.  Each of [utils/googleCalendar.js] and
    [routes/auth.js] creates an authorization client of its own: [state]
    is the world as seen from the file the handler is in, the tables being
    common to both. *)
Record Server : Type := mkServer {
  state : World;
  requests : list Request
}.

Module TokenStore.

(** Modelled from the spec: the store's [upsert(record)] with
    [onConflict: "user_id"], insert or overwrite by user. *)
Fixpoint upsert (row : TokenRow.t) (tbl : list TokenRow.t) : list TokenRow.t :=
  match tbl with
  | [] => [row]
  | r :: tbl' =>
      if String.eqb (TokenRow.user_id r) (TokenRow.user_id row) then row :: tbl'
      else r :: upsert row tbl'
  end.

(** Modelled from the spec: the store's [delete().eq("user_id", u)]. *)
Definition delete (u : string) (tbl : list TokenRow.t) : list TokenRow.t :=
  filter (fun r => negb (String.eqb (TokenRow.user_id r) u)) tbl.

(** The unique key of the table: one row per user. *)
Definition unique (tbl : list TokenRow.t) : Prop :=
  List.NoDup (map TokenRow.user_id tbl).

End TokenStore.

(** *** Handlers: state, exceptions and the outer [try] *)

Definition R (A : Type) : Type := Server -> Result A * Server.

Definition answer {A} (a : A) : R A := fun s => (Ok a, s).

Definition andThen {A B} (m : R A) (k : A -> R B) : R B :=
  fun s => match m s with
           | (Ok a, s') => k a s'
           | (Throw e, s') => (Throw e, s')
           end.

Notation "'await' x <- m ; k" := (andThen m (fun x => k))
  (at level 10, x name, m at level 100, k at level 200).
Notation "'await_' m ; k" := (andThen m (fun _ => k))
  (at level 10, m at level 100, k at level 200).

(** A synchronous step that may throw. *)
Definition fromResult {A} (r : Result A) : R A := fun s => (r, s).

(** An operation of [utils/googleCalendar.js] run by a handler. *)
Definition perform {A} (m : M A) : R A :=
  fun s => match m (state s) with
           | (r, w') => (r, mkServer w' (requests s))
           end.

Definition posted (s : Server) (qs : list Request) : Server :=
  mkServer (state s) (requests s ++ qs).

(** [async (req, res) => { try { attempt } catch (error) { caught } }]. *)
Definition handler (attempt : R Http.response) (caught : Error -> Http.response)
  : Server -> Http.response * Server :=
  fun s => match attempt s with
           | (Ok r, s') => (r, s')
           | (Throw e, s') => (caught e, s')
           end.

(** [n] in a template literal, for a length. *)
Definition Number_toString (n : nat) : string :=
  DecimalString.NilZero.string_of_uint (Nat.to_uint n).

Section Routes.

Import JsDate JsString JsDateString.

Variable host : Host.
Variable services : Services.

(** A request to the calendar service, made through the client of
    [getCalendarClientFromDatabase]. *)
Definition calendar_request (make : option Tokens -> Request)
  : R (list (string * Json.t)) :=
  fun s =>
    let q := make (oauth2Client (state s)) in
    (calendar_api services q, posted s [q]).

(** [oauth2Client.getToken(code)]. *)
Definition oauth2Client_getToken (code : string) : R Credentials.t :=
  fun s => (getToken services code, posted s [GetToken code]).

(** [supabase.from("google_calendar_tokens").upsert(row, { onConflict:
    "user_id" })]. *)
Definition upsert_token (row : TokenRow.t) : R (Reply unit) :=
  fun s =>
    match request_fault services (UpsertToken row) with
    | Rejects msg => (Throw (Err msg), posted s [UpsertToken row])
    | ErrorReply msg => (Ok (StoreError msg), posted s [UpsertToken row])
    | NoFault =>
        let w := state s in
        (Ok (Data tt),
         mkServer (mkWorld (TokenStore.upsert row (google_calendar_tokens w))
                           (calendar_events w) (oauth2Client w) (calls w))
                  (requests s ++ [UpsertToken row]))
    end.

(** [supabase.from("google_calendar_tokens").delete().eq("user_id",
    userId)]. *)
Definition delete_token (userId : string) : R (Reply unit) :=
  fun s =>
    match request_fault services (DeleteToken userId) with
    | Rejects msg => (Throw (Err msg), posted s [DeleteToken userId])
    | ErrorReply msg => (Ok (StoreError msg), posted s [DeleteToken userId])
    | NoFault =>
        let w := state s in
        (Ok (Data tt),
         mkServer (mkWorld (TokenStore.delete userId (google_calendar_tokens w))
                           (calendar_events w) (oauth2Client w) (calls w))
                  (requests s ++ [DeleteToken userId]))
    end.

(** **** [routes/googleCalendar.js] *)

(** The members of a status object, for [{ success: true, ...status }]. *)
Definition status_members (st : Status.t) : list (string * option Json.t) :=
  [ ("connected", Some (Json.boolean (Status.connected st)));
    ("lastSync", Json.of_value (Status.lastSync st));
    ("needsRefresh", Json.of_value (Status.needsRefresh st));
    ("error", option_map Json.text (Status.error st)) ].

(** [GET /connection-status/:userId]. *)
Definition get_connection_status (userId : string)
  : Server -> Http.response * Server :=
  handler
    (await status <- perform (getUserConnectionStatusFromDatabase host userId);
     answer (Http.json (Json.literal (("success", Some (Json.boolean true))
                                    :: status_members status))))
    (Http.failure "Failed to check connection status").

(** The body of a successful write to the calendar service. *)
Definition written (message : string) (data : list (string * Json.t))
  : Http.response :=
  Http.json (Json.literal
    [ ("success", Some (Json.boolean true));
      ("message", Some (Json.text message));
      ("eventId", Json.assoc "id" data);
      ("eventUrl", Json.assoc "htmlLink" data);
      ("data", Some (Json.object data)) ]).

(** [POST /add-to-google-calendar/:userId]. *)
Definition post_add_to_google_calendar (userId : string)
    (eventData : option EventBody.t) (calendarId : option string)
  : Server -> Http.response * Server :=
  handler
    (match eventData with
     | Some e =>
         match Member.text_of (EventBody.title e),
               Member.text_of (EventBody.due_date e) with
         | Some (String c t), Some (String c' d) =>
             await_ perform (getCalendarClientFromDatabase host userId);
             await event <- fromResult (formatEventForGoogleCalendar host
                                 (EventData.mk (String c t)
                                    (Member.text_of (EventBody.description e))
                                    (Member.text_of (EventBody.location e))
                                    (String c' d)
                                    (Member.text_of (EventBody.due_time e))));
             await data <- calendar_request
                            (fun auth => EventsInsert auth
                                           (default "primary" calendarId) event);
             answer (written "Event added to Google Calendar successfully" data)
         | _, _ =>
             answer (Http.error 400
                     "Missing required fields: eventData.title and eventData.due_date")
         end
     | None =>
         answer (Http.error 400
                 "Missing required fields: eventData.title and eventData.due_date")
     end)
    (Http.failure "Failed to add event to Google Calendar").

(** [new Date(v)] for a member: [new Date(undefined)] is the Invalid Date,
    [new Date(null)] is the epoch. *)
Definition Date_ofMember (v : Member.t) : Date :=
  match v with
  | Member.absent => None
  | Member.null => Date_ofNumber 0
  | Member.text s => Date_ofString host s
  end.

(** The [startTime] and [endTime] dates of the update route. *)
Definition patch_times (e : EventBody.t) : Date * Date :=
  let dueDate := Date_ofMember (EventBody.due_date e) in
  let timed := truthy (Member.text_of (EventBody.due_time e)) in
  let startTime :=
    if timed then
      Date_ofString host (Member.interpolate (EventBody.due_date e) +:+ "T"
                          +:+ Member.interpolate (EventBody.due_time e))
    else dueDate in
  let endTime :=
    if timed then t ← plus_ms startTime (60 * 60 * 1000); Date_ofNumber t
    else t ← plus_ms dueDate (24 * 60 * 60 * 1000); Date_ofNumber t in
  (startTime, endTime).

(** The event object built by the update route. *)
Definition patch_of (e : EventBody.t) : Result EventPatch.t :=
  let '(startTime, endTime) := patch_times e in
  match toISOString_or_throw startTime with
  | Throw err => Throw err
  | Ok startISO =>
      match toISOString_or_throw endTime with
      | Throw err => Throw err
      | Ok endISO =>
          Ok (EventPatch.mk
                (EventBody.title e)
                (or_default (Member.text_of (EventBody.description e))
                            EmptyString)
                (or_default (Member.text_of (EventBody.location e))
                            EmptyString)
                (GoogleEvent.mkTime startISO (timeZone host))
                (GoogleEvent.mkTime endISO (timeZone host)))
      end
  end.

(** [PUT /update-event/:eventId/:userId]. *)
Definition put_update_event (eventId userId : string)
    (eventData : option EventBody.t) (calendarId : option string)
  : Server -> Http.response * Server :=
  handler
    (match eventData with
     | None => answer (Http.error 400 "Event data is required")
     | Some e =>
         await_ perform (getCalendarClientFromDatabase host userId);
         await event <- fromResult (patch_of e);
         await data <- calendar_request
                        (fun auth => EventsUpdate auth
                                       (default "primary" calendarId)
                                       eventId event);
         answer (written "Event updated successfully" data)
     end)
    (Http.failure "Failed to update event").

(** [DELETE /delete-event/:eventId/:userId]. *)
Definition delete_delete_event (eventId userId : string)
    (calendarId : option string) : Server -> Http.response * Server :=
  handler
    (await_ perform (getCalendarClientFromDatabase host userId);
     await_ calendar_request
             (fun auth => EventsDelete auth (default "primary" calendarId)
                            eventId);
     answer (Http.json (Json.object
             [ ("success", Json.boolean true);
               ("message", Json.text "Event deleted successfully") ])))
    (Http.failure "Failed to delete event").

(** [POST /sync-events/:userId]. *)
Definition post_sync_events (userId : string)
    (calendarId startDate endDate : option string)
  : Server -> Http.response * Server :=
  handler
    (await result <- perform (syncEventsToDatabaseFromDatabase host userId
                           (default "primary" calendarId) startDate endDate);
     answer (Http.json (Json.object
             [ ("success", Json.boolean true);
               ("message", Json.text ("Successfully synced "
                                      +:+ Number_toString (syncedCount result)
                                      +:+ " events"));
               ("syncedCount", Json.number (Z.of_nat (syncedCount result))) ])))
    (Http.failure "Failed to sync events").

(** [POST /create-calendar/:userId]. *)
Definition post_create_calendar (userId : string)
    (summary description timeZone_ : option string)
  : Server -> Http.response * Server :=
  handler
    (match summary with
     | Some (String c s) =>
         await_ perform (getCalendarClientFromDatabase host userId);
         await data <- calendar_request
                        (fun auth => CalendarsInsert auth
                           (CalendarDraft.mk (String c s)
                              (or_default description EmptyString)
                              (or_default timeZone_ (timeZone host))));
         answer (Http.json (Json.literal
                 [ ("success", Some (Json.boolean true));
                   ("message", Some (Json.text "Calendar created successfully"));
                   ("calendarId", Json.assoc "id" data);
                   ("data", Some (Json.object data)) ]))
     | _ => answer (Http.error 400 "Calendar summary is required")
     end)
    (Http.failure "Failed to create calendar").

(** [DELETE /delete-calendar/:calendarId/:userId]. *)
Definition delete_delete_calendar (calendarId userId : string)
  : Server -> Http.response * Server :=
  handler
    (await_ perform (getCalendarClientFromDatabase host userId);
     await_ calendar_request (fun auth => CalendarsDelete auth calendarId);
     answer (Http.json (Json.object
             [ ("success", Json.boolean true);
               ("message", Json.text "Calendar deleted successfully") ])))
    (Http.failure "Failed to delete calendar").

(** **** [routes/auth.js] *)

(** The row the callback saves for the tokens of the authorization
    server. *)
Definition callback_row (userId : string) (tokens : Credentials.t)
    (expiry : option string) : TokenRow.t :=
  TokenRow.mk userId
              (Some ("user-" +:+ userId +:+ "@law-bandit.com"))
              (Some (Credentials.access_token tokens))
              (Credentials.refresh_token tokens)
              expiry.

(** [GET /google/callback], with [code] and [state] of the query. *)
Definition get_google_callback (code state : option string)
  : Server -> Http.response * Server :=
  handler
    (match code with
     | Some (String c cs) =>
         match state with
         | Some (String u us) =>
             let userId := String u us in
             await tokens <- oauth2Client_getToken (String c cs);
             await expiry <- fromResult (expiry_column
                                  (Credentials.expiry_date tokens));
             await reply <- upsert_token (callback_row userId tokens expiry);
             match reply with
             | StoreError _ => answer (Http.error 500 "Failed to save tokens")
             | Data _ =>
                 await_ perform (setCredentials (RefreshedCredentials tokens));
                 answer (Http.json (Json.object
                         [ ("success", Json.boolean true);
                           ("message",
                            Json.text "Google Calendar connected successfully");
                           ("redirectUrl", Json.text "/projects") ]))
             end
         | _ => answer (Http.error 400 "User ID is required")
         end
     | _ => answer (Http.error 400 "Authorization code is required")
     end)
    (Http.failure "Failed to complete OAuth flow").

(** The [tokens] object of the tokens route. *)
Definition tokens_body (tokenData : TokenRow.t) : Json.t :=
  Json.object
    [ ("tokens", Json.object
        [ ("access_token", Json.of_column (TokenRow.access_token tokenData));
          ("refresh_token", Json.of_column (TokenRow.refresh_token tokenData));
          ("expiry_date", Json.of_column (TokenRow.expiry_date tokenData));
          ("user_id", Json.text (TokenRow.user_id tokenData)) ]) ].

(** [GET /google/tokens/:userId]. *)
Definition get_google_tokens (userId : string)
  : Server -> Http.response * Server :=
  handler
    (if negb (truthy (Some userId)) then
       answer (Http.error 400 "User ID is required")
     else
       await reply <- perform (select_token host userId);
       match reply with
       | StoreError _ => answer (Http.error 404 "No tokens found")
       | Data tokenData => answer (Http.json (tokens_body tokenData))
       end)
    (fun _ => Http.error 500 "Failed to fetch tokens").

(** [DELETE /google/disconnect/:userId]. *)
Definition delete_google_disconnect (userId : string)
  : Server -> Http.response * Server :=
  handler
    (if negb (truthy (Some userId)) then
       answer (Http.error 400 "User ID is required")
     else
       await reply <- delete_token userId;
       match reply with
       | StoreError _ =>
           answer (Http.error 500 "Failed to disconnect Google Calendar")
       | Data _ =>
           answer (Http.json (Json.object
                   [ ("success", Json.boolean true);
                     ("message",
                      Json.text "Google Calendar disconnected successfully") ]))
       end)
    (fun _ => Http.error 500 "Failed to disconnect Google Calendar").

End Routes.

(** ** Further notions used in the statements *)

(** A string without a decimal digit.  No such string is a date for the
    runtime: the date-time format of the language begins with the digits
    of a year, and the other layouts the engine accepts need at least one
    number, for the day. *)
Fixpoint digitless (s : string) : bool :=
  match s with
  | EmptyString => true
  | String c s' =>
      match JsString.digit_val c with
      | Some _ => false
      | None => digitless s'
      end
  end.

(** A remote event whose [start.dateTime] is a non-empty string without a
    digit. *)
Definition unreadable_start (event : RemoteEvent.t) : Prop :=
  exists s, RemoteEvent.dateTime (RemoteEvent.start event) = Some s
            /\ s <> EmptyString /\ digitless s = true.

(** The rows of the event table that belong to other users than [userId],
    in their order. *)
Definition other_users (userId : string) (tbl : list EventRow.t)
  : list EventRow.t :=
  List.filter (fun r => negb (String.eqb (EventRow.user_id r) userId)) tbl.

(** The check of the add route: [eventData], its [title] and its
    [due_date] are all truthy. *)
Definition complete (eventData : option EventBody.t) : bool :=
  match eventData with
  | Some e =>
      JsString.truthy (Member.text_of (EventBody.title e))
      && JsString.truthy (Member.text_of (EventBody.due_date e))
  | None => false
  end.

(** A row of the event table without its [created_at]. *)
Definition without_created_at (r : EventRow.t) : EventRow.t :=
  EventRow.mk (EventRow.user_id r) (EventRow.class_id r) (EventRow.title r)
    (EventRow.description r) (EventRow.event_type r) (EventRow.due_date r)
    (EventRow.due_time r) (EventRow.confidence_score r)
    (EventRow.source_text r) EmptyString.

(** ** Example data for the routes *)

Module RouteExamples.

(** The same clock in UTC.  The authorization server grants one hour (until
    11:00:00Z); the calendar lists one event whose start is not a date. *)
Definition host_utc : Host :=
  mkHost 1705312800000 "UTC" (fun _ _ => 0)
         (fun _ => NoFault)
         (fun _ => Ok (Credentials.mk "ya29.hour" (Some "1//refresh")
                                      (Some 1705316400000)))
         (fun _ =>
            Ok [ RemoteEvent.mk "evt9" (Some "Office hours") None
                   (RemoteEvent.mkTime (Some "soon") None) ]).

(** An authorization server that refuses the refresh token. *)
Definition host_denied : Host :=
  mkHost 1705312800000 "UTC" (fun _ _ => 0)
         (fun _ => NoFault)
         (fun _ => Throw (Err "invalid_grant"))
         (fun _ => Ok []).

(** An authorization server that grants an hour, and a store that does not
    take the update of a token row. *)
Definition host_store_down : Host :=
  mkHost 1705312800000 "UTC" (fun _ _ => 0)
         (fun c => match c with
                   | UpdateToken _ _ _ => ErrorReply "connection lost"
                   | _ => NoFault
                   end)
         (fun _ => Ok (Credentials.mk "ya29.hour" (Some "1//refresh")
                                      (Some 1705316400000)))
         (fun _ => Ok []).

(** A code exchange that grants an hour, and a calendar service that
    answers every request with the same event resource. *)
Definition services : Services :=
  mkServices
    (fun _ => Ok (Credentials.mk "ya29.first" (Some "1//first")
                                 (Some 1705316400000)))
    (fun _ => NoFault)
    (fun _ => Ok [ ("id", Json.text "evt-42");
                   ("htmlLink", Json.text "https://calendar.example/evt-42") ]).

Definition server (expiry : option string) (refresh : option string) : Server :=
  mkServer (Examples.world expiry refresh) [].

Definition moot_court : EventBody.t :=
  EventBody.mk (Member.text "Moot court") Member.absent
               (Member.text "Room 101")
               (Member.text "2024-01-15") (Member.text "14:00").

(** A body that names an event and sends [null] for its date. *)
Definition undated : EventBody.t :=
  EventBody.mk (Member.text "Moot court") Member.absent Member.absent
               Member.null Member.absent.

(** The clock of [Examples.host_new_york] a minute later. *)
Definition host_later : Host :=
  mkHost (now Examples.host_new_york + 60000)
         (timeZone Examples.host_new_york)
         (LocalTZA Examples.host_new_york)
         (store_fault Examples.host_new_york)
         (refreshAccessToken Examples.host_new_york)
         (events_list Examples.host_new_york).

(** An event taken from a syllabus, with the title and the day of the first
    event that [Examples.host_new_york] lists. *)
Definition syllabus_row : EventRow.t :=
  EventRow.mk "user-1" (Some "class-7") "Evidence seminar" "Bring the casebook"
    "assignment" (Some "2024-01-16") (Some "09:00") 0.9%Q
    "Evidence seminar, January 16" "2024-01-10T08:00:00.000Z".

Definition world_with_syllabus : World :=
  mkWorld [Examples.row (Some "2024-02-01T00:00:00.000Z") (Some "1//refresh")]
          [syllabus_row] None [].

End RouteExamples.

(** * Calendar arithmetic and date strings *)

(** ** Days, months and years *)

Module JsDateFacts.
Import JsDate.

Lemma isLeapYear_cases y :
  (isLeapYear y = true /\ y mod 4 = 0 /\ (y mod 100 <> 0 \/ y mod 400 = 0))
  \/ (isLeapYear y = false /\ (y mod 4 <> 0 \/ (y mod 100 = 0 /\ y mod 400 <> 0))).
Proof.
  unfold isLeapYear.
  destruct (Z.eqb_spec (y mod 4) 0), (Z.eqb_spec (y mod 100) 0),
    (Z.eqb_spec (y mod 400) 0); simpl; lia.
Qed.

Lemma DayFromYear_succ y : DayFromYear (y + 1) = DayFromYear y + DaysInYear y.
Proof.
  unfold DaysInYear.
  destruct (isLeapYear_cases y) as [(-> & H)|(-> & H)];
    unfold DayFromYear; Z.div_mod_to_equations; lia.
Qed.

Lemma DayFromYear_mono y1 y2 : y1 <= y2 -> DayFromYear y1 <= DayFromYear y2.
Proof. unfold DayFromYear. intros. Z.div_mod_to_equations. lia. Qed.

Lemma YearFromDay_spec d :
  DayFromYear (YearFromDay d) <= d < DayFromYear (YearFromDay d + 1).
Proof.
  unfold YearFromDay.
  set (y := 1970 + 400 * d / 146097).
  assert (Hlo : DayFromYear (y - 1) <= d).
  { subst y. unfold DayFromYear. Z.div_mod_to_equations. lia. }
  assert (Hhi : d < DayFromYear (y + 2)).
  { subst y. unfold DayFromYear. Z.div_mod_to_equations. lia. }
  destruct (Z.ltb_spec d (DayFromYear y)).
  - replace (y - 1 + 1) with y by lia. lia.
  - destruct (Z.leb_spec (DayFromYear (y + 1)) d).
    + replace (y + 1 + 1) with (y + 2) by lia. lia.
    + lia.
Qed.

(** The year of a day is the only one whose span contains it. *)
Lemma YearFromDay_unique d y :
  DayFromYear y <= d < DayFromYear (y + 1) -> YearFromDay d = y.
Proof.
  intros H. pose proof (YearFromDay_spec d) as S.
  destruct (Z.lt_trichotomy (YearFromDay d) y) as [L|[E|G]]; [|exact E|].
  - pose proof (DayFromYear_mono (YearFromDay d + 1) y ltac:(lia)). lia.
  - pose proof (DayFromYear_mono (y + 1) (YearFromDay d) ltac:(lia)). lia.
Qed.

Lemma DayWithinYear_range t :
  0 <= DayWithinYear t < DaysInYear (YearFromTime t).
Proof.
  unfold DayWithinYear, YearFromTime.
  pose proof (YearFromDay_spec (Day t)) as S.
  rewrite DayFromYear_succ in S. lia.
Qed.

Lemma MonthFromDay_spec leap dwy :
  0 <= dwy < MonthStart leap 12 ->
  0 <= MonthFromDay leap dwy <= 11 /\
  MonthStart leap (MonthFromDay leap dwy) <= dwy
    < MonthStart leap (MonthFromDay leap dwy + 1).
Proof.
  intros H. unfold MonthFromDay.
  repeat match goal with
         | |- context [if ?a <? ?b then _ else _] => destruct (Z.ltb_spec a b)
         end; destruct leap; simpl in *; lia.
Qed.

Lemma MonthStart_12 y : MonthStart (isLeapYear y) 12 = DaysInYear y.
Proof. unfold DaysInYear. destruct (isLeapYear y); reflexivity. Qed.

Lemma MonthFromTime_range t : 0 <= MonthFromTime t <= 11.
Proof.
  unfold MonthFromTime, InLeapYear. apply MonthFromDay_spec.
  rewrite MonthStart_12. apply DayWithinYear_range.
Qed.

Lemma MonthStart_span leap m :
  0 <= m <= 11 -> 28 <= MonthStart leap (m + 1) - MonthStart leap m <= 31.
Proof.
  intros H.
  assert (m = 0 \/ m = 1 \/ m = 2 \/ m = 3 \/ m = 4 \/ m = 5 \/ m = 6 \/ m = 7
          \/ m = 8 \/ m = 9 \/ m = 10 \/ m = 11) as C by lia.
  destruct leap; repeat (destruct C as [->|C]; [simpl; lia|]); subst; simpl; lia.
Qed.

Lemma DateFromTime_range t : 1 <= DateFromTime t <= 31.
Proof.
  unfold DateFromTime, MonthFromTime, InLeapYear.
  pose proof (DayWithinYear_range t) as R. rewrite <- MonthStart_12 in R.
  destruct (MonthFromDay_spec _ _ R) as [Hm Hs].
  pose proof (MonthStart_span (isLeapYear (YearFromTime t)) _ Hm). lia.
Qed.

Lemma MakeDay_of_time t :
  MakeDay (YearFromTime t) (MonthFromTime t) (DateFromTime t) = Day t.
Proof.
  pose proof (MonthFromTime_range t) as Hm.
  unfold MakeDay.
  replace (MonthFromTime t / 12) with 0 by (Z.div_mod_to_equations; lia).
  replace (MonthFromTime t mod 12) with (MonthFromTime t)
    by (Z.div_mod_to_equations; lia).
  replace (YearFromTime t + 0) with (YearFromTime t) by lia.
  unfold DateFromTime, InLeapYear, DayWithinYear. lia.
Qed.

Lemma MakeTime_of_time t :
  MakeTime (HourFromTime t) (MinFromTime t) (SecFromTime t) (msFromTime t)
  = TimeWithinDay t.
Proof.
  unfold MakeTime, HourFromTime, MinFromTime, SecFromTime, msFromTime,
    TimeWithinDay, msPerHour, msPerMinute, msPerSecond, msPerDay.
  Z.div_mod_to_equations. lia.
Qed.

Lemma MakeDate_of_time t :
  MakeDate (MakeDay (YearFromTime t) (MonthFromTime t) (DateFromTime t))
           (MakeTime (HourFromTime t) (MinFromTime t) (SecFromTime t)
                     (msFromTime t)) = t.
Proof.
  rewrite MakeDay_of_time, MakeTime_of_time.
  unfold MakeDate, Day, TimeWithinDay, msPerDay. Z.div_mod_to_equations. lia.
Qed.

Lemma Day_MakeDate day tm : 0 <= tm < msPerDay -> Day (MakeDate day tm) = day.
Proof. unfold Day, MakeDate, msPerDay. intros. Z.div_mod_to_equations. lia. Qed.

Lemma TimeWithinDay_MakeDate day tm :
  0 <= tm < msPerDay -> TimeWithinDay (MakeDate day tm) = tm.
Proof.
  unfold TimeWithinDay, MakeDate, msPerDay. intros. Z.div_mod_to_equations. lia.
Qed.

Lemma MonthFromDay_unique leap m dwy :
  0 <= m <= 11 -> MonthStart leap m <= dwy < MonthStart leap (m + 1) ->
  MonthFromDay leap dwy = m.
Proof.
  intros Hm H.
  assert (m = 0 \/ m = 1 \/ m = 2 \/ m = 3 \/ m = 4 \/ m = 5 \/ m = 6 \/ m = 7
          \/ m = 8 \/ m = 9 \/ m = 10 \/ m = 11) as C by lia.
  unfold MonthFromDay.
  repeat match goal with
         | |- context [if ?a <? ?b then _ else _] => destruct (Z.ltb_spec a b)
         end;
  destruct leap; repeat (destruct C as [->|C]; [simpl in *; lia|]); subst;
    simpl in *; lia.
Qed.

(** The fields of a date assembled from a civil date and a time of day. *)
Lemma fields_of_MakeDate y m d tm :
  0 <= m <= 11 ->
  1 <= d <= MonthStart (isLeapYear y) (m + 1) - MonthStart (isLeapYear y) m ->
  0 <= tm < msPerDay ->
  let t := MakeDate (MakeDay y m d) tm in
  YearFromTime t = y /\ MonthFromTime t = m /\ DateFromTime t = d
  /\ TimeWithinDay t = tm.
Proof.
  intros Hm Hd Htm t.
  assert (HD : Day t = DayFromYear y + MonthStart (isLeapYear y) m + d - 1).
  { unfold t. rewrite Day_MakeDate by assumption. unfold MakeDay.
    replace (m / 12) with 0 by (Z.div_mod_to_equations; lia).
    replace (m mod 12) with m by (Z.div_mod_to_equations; lia).
    replace (y + 0) with y by lia. reflexivity. }
  assert (Hs : 0 <= MonthStart (isLeapYear y) m
               /\ MonthStart (isLeapYear y) (m + 1) <= DaysInYear y).
  { unfold DaysInYear.
    assert (m = 0 \/ m = 1 \/ m = 2 \/ m = 3 \/ m = 4 \/ m = 5 \/ m = 6
            \/ m = 7 \/ m = 8 \/ m = 9 \/ m = 10 \/ m = 11) as C by lia.
    destruct (isLeapYear y);
      repeat (destruct C as [->|C]; [simpl; lia|]); subst; simpl; lia. }
  assert (HY : YearFromTime t = y).
  { unfold YearFromTime. apply YearFromDay_unique.
    rewrite DayFromYear_succ, HD. lia. }
  assert (HM : MonthFromTime t = m).
  { unfold MonthFromTime, InLeapYear, DayWithinYear. rewrite HY, HD.
    apply MonthFromDay_unique; [assumption|lia]. }
  repeat split; [exact HY|exact HM| |].
  - unfold DateFromTime, InLeapYear, DayWithinYear. rewrite HM, HY, HD. lia.
  - unfold t. apply TimeWithinDay_MakeDate. assumption.
Qed.

End JsDateFacts.

(** ** Decimal fields *)

Module JsStringFacts.
Import JsString.

Lemma append_assoc (a b c : string) : (a +:+ b) +:+ c = a +:+ (b +:+ c).
Proof.
  induction a as [|x a IH]; [reflexivity|].
  cbn [String.append]. f_equal. exact IH.
Qed.

Lemma append_empty_r (a : string) : a +:+ EmptyString = a.
Proof.
  induction a as [|x a IH]; [reflexivity|].
  cbn [String.append]. f_equal. exact IH.
Qed.

Lemma digit_code n : Z.of_N (N_of_ascii (digit n)) = 48 + n mod 10.
Proof.
  unfold digit. rewrite N_ascii_embedding.
  - rewrite Z2N.id; [reflexivity|]. Z.div_mod_to_equations. lia.
  - apply N2Z.inj_lt. rewrite Z2N.id by (Z.div_mod_to_equations; lia).
    change (Z.of_N 256) with 256. Z.div_mod_to_equations. lia.
Qed.

Lemma digit_val_digit_mod n : digit_val (digit n) = Some (n mod 10).
Proof.
  unfold digit_val. rewrite digit_code. cbv zeta.
  replace ((48 <=? 48 + n mod 10) && (48 + n mod 10 <=? 57)) with true
    by (symmetry; rewrite andb_true_iff, !Z.leb_le;
        Z.div_mod_to_equations; lia).
  f_equal. lia.
Qed.

Lemma digit_val_digit n : 0 <= n <= 9 -> digit_val (digit n) = Some n.
Proof.
  intros H. rewrite digit_val_digit_mod. f_equal.
  Z.div_mod_to_equations. lia.
Qed.

Lemma digit_not c n :
  digit_val c = None -> Ascii.eqb (digit n) c = false.
Proof.
  intros H. apply Ascii.eqb_neq. intros E. subst c.
  rewrite digit_val_digit_mod in H. discriminate.
Qed.

Lemma read_digits_digits w : forall acc n rest,
  0 <= n < 10 ^ Z.of_nat w ->
  read_digits w acc (digits w n +:+ rest) = Some (acc * 10 ^ Z.of_nat w + n, rest).
Proof.
  induction w as [|w IH]; intros acc n rest H.
  - simpl in *. f_equal. f_equal. lia.
  - cbn [digits read_digits String.append].
    rewrite Nat2Z.inj_succ, Z.pow_succ_r in * by lia.
    assert (P : 0 < 10 ^ Z.of_nat w) by (apply Z.pow_pos_nonneg; lia).
    rewrite digit_val_digit by (Z.div_mod_to_equations; nia).
    rewrite IH by (Z.div_mod_to_equations; nia).
    f_equal. f_equal. Z.div_mod_to_equations. nia.
Qed.

Lemma lacks_digits c w : forall n, digit_val c = None -> lacks c (digits w n).
Proof.
  induction w as [|w IH]; intros n H; simpl; [exact I|].
  split; [|apply IH; assumption].
  intros E. pose proof (digit_not c (n / 10 ^ Z.of_nat w) H) as D.
  rewrite E, Ascii.eqb_refl in D. discriminate.
Qed.

Lemma lacks_append c a b : lacks c a -> lacks c b -> lacks c (a +:+ b).
Proof. induction a as [|x a IH]; simpl; [auto|]. intros [? ?] ?. auto. Qed.

Lemma split_lacks c a : forall b,
  lacks c a -> split c (a +:+ String c b) = a :: split c b.
Proof.
  induction a as [|x a IH]; intros b H; simpl.
  - now rewrite Ascii.eqb_refl.
  - destruct H as [Hx Ha]. rewrite (proj2 (Ascii.eqb_neq x c) Hx).
    now rewrite IH.
Qed.

Lemma split_lacks_all c a : lacks c a -> split c a = [a].
Proof.
  induction a as [|x a IH]; simpl; [reflexivity|]. intros [Hx Ha].
  rewrite (proj2 (Ascii.eqb_neq x c) Hx). now rewrite IH.
Qed.

End JsStringFacts.

(** ** Printing and reading back *)

Module JsDateStringFacts.
Import JsDate JsString JsDateString JsDateFacts JsStringFacts.

Lemma YearFromTime_bound t :
  Z.abs t <= maxTime -> -999999 <= YearFromTime t <= 999999.
Proof.
  intros H. unfold YearFromTime.
  pose proof (YearFromDay_spec (Day t)) as S.
  assert (-100000000 <= Day t <= 100000000)
    by (unfold Day, msPerDay, maxTime in *; Z.div_mod_to_equations; lia).
  unfold DayFromYear in S. Z.div_mod_to_equations. lia.
Qed.

(** Evaluates the powers of ten of the field widths. *)
Ltac pow10 :=
  repeat match goal with
         | |- context [10 ^ Z.of_nat ?w] =>
             let v := eval vm_compute in (10 ^ Z.of_nat w) in
             change (10 ^ Z.of_nat w) with v
         end.

(** One step of a parser: the bind of [option] and the next character. *)
Ltac step :=
  unfold mbind, option_bind; cbn [String.append expect]; cbv beta iota.

(** Rewrites with a lemma after normalising the appends in its statement. *)
Ltac nrewrite L :=
  let P := fresh in
  pose proof L as P; cbn [String.append] in P; rewrite P; clear P.

Lemma parse_year_string y rest :
  -999999 <= y <= 999999 ->
  parse_year (year_string y +:+ rest) = Some (y, rest).
Proof.
  intros H. unfold year_string.
  destruct (Z.leb_spec 0 y); [destruct (Z.leb_spec y 9999)|]; cbn [andb].
  - unfold parse_year.
    change (digits 4 y) with
      (String (digit (y / 10 ^ Z.of_nat 3)) (digits 3 (y mod 10 ^ Z.of_nat 3))).
    cbn [String.append].
    rewrite !digit_not by reflexivity.
    change (String (digit (y / 10 ^ Z.of_nat 3))
              (digits 3 (y mod 10 ^ Z.of_nat 3) +:+ rest))
      with (digits 4 y +:+ rest).
    rewrite read_digits_digits by (pow10; lia). reflexivity.
  - destruct (Z.ltb_spec y 0); [lia|]. cbn [String.append parse_year].
    change (Ascii.eqb "+" "+") with true. cbv iota.
    rewrite read_digits_digits by (pow10; lia). f_equal. f_equal. lia.
  - destruct (Z.ltb_spec y 0); [|lia]. cbn [String.append parse_year].
    change (Ascii.eqb "-" "+") with false. change (Ascii.eqb "-" "-") with true.
    cbv iota.
    rewrite read_digits_digits by (pow10; lia). step.
    replace (0 * 10 ^ Z.of_nat 6 + Z.abs y) with (- y) by lia.
    destruct (Z.eqb_spec (- y) 0); [lia|]. f_equal. f_equal. lia.
Qed.

Lemma read_2_digits n acc rest :
  0 <= n < 100 ->
  read_digits 2 acc (digits 2 n +:+ rest) = Some (acc * 100 + n, rest).
Proof. intros H. rewrite read_digits_digits by (pow10; lia). reflexivity. Qed.

Lemma parse_date_fields y m d rest :
  -999999 <= y <= 999999 -> 0 <= m < 100 -> 0 <= d < 100 ->
  parse_date (ymd y m d +:+ rest) = Some (y, m, d, rest).
Proof.
  intros Hy Hm Hd. unfold parse_date, ymd. rewrite !append_assoc.
  rewrite parse_year_string by assumption.
  step.
  change (Ascii.eqb "-" "-") with true. cbv iota.
  rewrite read_2_digits by assumption.
  step.
  change (Ascii.eqb "-" "-") with true. cbv iota.
  rewrite read_2_digits by assumption. reflexivity.
Qed.

Lemma read_fraction_3_digits ms c rest :
  0 <= ms < 1000 -> digit_val c = None ->
  read_fraction (digits 3 ms +:+ String c rest) = Some (ms, String c rest).
Proof.
  intros H Hc. unfold read_fraction. cbn [digits String.append].
  pow10.
  rewrite !digit_val_digit by (Z.div_mod_to_equations; lia).
  step; cbn [skip_digits]. rewrite Hc.
  f_equal. f_equal. Z.div_mod_to_equations. lia.
Qed.

Lemma parse_time_fields h mi sec ms c rest :
  0 <= h < 100 -> 0 <= mi < 100 -> 0 <= sec < 100 -> 0 <= ms < 1000 ->
  digit_val c = None ->
  parse_time (digits 2 h +:+ ":" +:+ digits 2 mi +:+ ":" +:+ digits 2 sec
              +:+ "." +:+ digits 3 ms +:+ String c rest)
  = Some (h, mi, sec, ms, String c rest).
Proof.
  intros Hh Hmi Hsec Hms Hc. unfold parse_time.
  rewrite read_2_digits by assumption.
  step.
  change (Ascii.eqb ":" ":") with true. cbv iota.
  rewrite read_2_digits by assumption.
  step.
  change (Ascii.eqb ":" ":") with true. cbv iota.
  rewrite read_2_digits by assumption.
  step.
  change (Ascii.eqb "." ".") with true. cbv iota.
  rewrite read_fraction_3_digits by assumption. reflexivity.
Qed.

Lemma time_fields_range t :
  0 <= HourFromTime t < 24 /\ 0 <= MinFromTime t < 60
  /\ 0 <= SecFromTime t < 60 /\ 0 <= msFromTime t < 1000.
Proof.
  unfold HourFromTime, MinFromTime, SecFromTime, msFromTime, msPerHour,
    msPerMinute, msPerSecond.
  repeat split; Z.div_mod_to_equations; lia.
Qed.

(** Parsing what [toISOString] prints gives the time value back, in any
    time zone. *)
Lemma Date_parse_toISOString tz t :
  Z.abs t <= maxTime ->
  exists s, toISOString (Some t) = Some s /\ Date_parse tz s = Some t.
Proof.
  intros H. eexists. split; [reflexivity|].
  unfold Date_parse, iso_date, iso_time, hm.
  pose proof (YearFromTime_bound t H) as Hy.
  pose proof (MonthFromTime_range t) as Hm.
  pose proof (DateFromTime_range t) as Hd.
  destruct (time_fields_range t) as (Hh & Hmi & Hs & Hms).
  rewrite !append_assoc.
  rewrite parse_date_fields by lia.
  unfold mbind, option_bind; cbv beta iota.
  replace ((1 <=? MonthFromTime t + 1) && (MonthFromTime t + 1 <=? 12)
           && (1 <=? DateFromTime t) && (DateFromTime t <=? 31)) with true
    by (symmetry; rewrite !andb_true_iff, !Z.leb_le; lia).
  cbn [String.append]. change (Ascii.eqb "T" "T") with true. cbv iota.
  nrewrite (parse_time_fields (HourFromTime t) (MinFromTime t) (SecFromTime t)
              (msFromTime t) "Z" EmptyString ltac:(lia) ltac:(lia) ltac:(lia) Hms
              eq_refl).
  step; cbn [parse_zone].
  change (Ascii.eqb "Z" "Z") with true. cbv iota.
  step.
  replace (valid_time _ _ _ _) with true
    by (symmetry; unfold valid_time; rewrite orb_true_iff, !andb_true_iff,
        !Z.ltb_lt; lia).
  replace (MonthFromTime t + 1 - 1) with (MonthFromTime t) by lia.
  rewrite MakeDate_of_time. unfold TimeClip.
  replace (t - 0 * msPerMinute) with t by lia.
  destruct (Z.leb_spec (Z.abs t) maxTime); [reflexivity|lia].
Qed.

End JsDateStringFacts.

(** ** The parts of an ISO string *)

Module IsoFacts.
Import JsDate JsString JsDateString JsDateFacts JsStringFacts JsDateStringFacts.

Lemma lacks_T_year y : lacks "T" (year_string y).
Proof.
  unfold year_string.
  destruct ((0 <=? y) && (y <=? 9999)); [now apply lacks_digits|].
  destruct (y <? 0); (split; [intros E; discriminate E|now apply lacks_digits]).
Qed.

(** Strings made of decimal fields and separators have no [T]. *)
Ltac lacks_T :=
  repeat first
    [ exact I
    | apply lacks_T_year
    | (apply lacks_digits; reflexivity)
    | (split; [let E := fresh in intros E; discriminate E|])
    | apply lacks_append ].

Lemma lacks_T_ymd y m d : lacks "T" (ymd y m d).
Proof. unfold ymd. lacks_T. Qed.

Lemma toISOString_Some t :
  toISOString (Some t) = Some (iso_date t +:+ "T" +:+ iso_time t +:+ "Z").
Proof. reflexivity. Qed.

(** Splitting an ISO string at its [T] yields the date and the time. *)
Lemma split_iso t :
  split "T" (iso_date t +:+ "T" +:+ iso_time t +:+ "Z")
  = [iso_date t; iso_time t +:+ "Z"].
Proof.
  cbn [String.append].
  rewrite split_lacks by apply lacks_T_ymd. f_equal.
  apply split_lacks_all. unfold iso_time, hm. lacks_T.
Qed.

(** The first five characters of the time are [HH:mm]. *)
Lemma substring_iso_time t :
  substring0 5 (iso_time t +:+ "Z") = hm (HourFromTime t) (MinFromTime t).
Proof. reflexivity. Qed.

End IsoFacts.

(** ** Reading dates *)

Module ParseFacts.
Import JsDate JsString JsDateString JsDateFacts JsStringFacts JsDateStringFacts.

Lemma MakeDay_month y m d :
  0 <= m <= 11 ->
  MakeDay y m d = DayFromYear y + MonthStart (isLeapYear y) m + d - 1.
Proof.
  intros H. unfold MakeDay.
  replace (m / 12) with 0 by (Z.div_mod_to_equations; lia).
  replace (m mod 12) with m by (Z.div_mod_to_equations; lia).
  now replace (y + 0) with y by lia.
Qed.

Lemma MonthStart_bound leap m : 0 <= m <= 11 -> 0 <= MonthStart leap m <= 335.
Proof.
  intros H.
  assert (m = 0 \/ m = 1 \/ m = 2 \/ m = 3 \/ m = 4 \/ m = 5 \/ m = 6 \/ m = 7
          \/ m = 8 \/ m = 9 \/ m = 10 \/ m = 11) as C by lia.
  destruct leap; repeat (destruct C as [->|C]; [simpl; lia|]); subst; simpl; lia.
Qed.

(** Dates of the years 0 to 9999 are far inside the range of time values. *)
Lemma MakeDate_bound y m d tm :
  0 <= y <= 9999 -> 0 <= m <= 11 -> 1 <= d <= 31 ->
  - msPerDay <= tm <= 2 * msPerDay ->
  Z.abs (MakeDate (MakeDay y m d) tm) <= maxTime - 2 * msPerDay.
Proof.
  intros Hy Hm Hd Ht. rewrite MakeDay_month by assumption.
  pose proof (MonthStart_bound (isLeapYear y) m Hm).
  unfold MakeDate, DayFromYear, msPerDay, maxTime in *.
  Z.div_mod_to_equations. lia.
Qed.

Lemma TimeClip_in_range t : Z.abs t <= maxTime -> TimeClip t = Some t.
Proof.
  intros H. unfold TimeClip. destruct (Z.leb_spec (Z.abs t) maxTime); [reflexivity|lia].
Qed.

Lemma parse_time_hm h mi :
  0 <= h < 100 -> 0 <= mi < 100 ->
  parse_time (hm h mi) = Some (h, mi, 0, 0, EmptyString).
Proof.
  intros Hh Hmi. unfold parse_time, hm.
  rewrite read_2_digits by assumption. step.
  change (Ascii.eqb ":" ":") with true. cbv iota.
  rewrite <- (append_empty_r (digits 2 mi)).
  rewrite read_2_digits by assumption. reflexivity.
Qed.


Lemma parse_zone_offset (negative : bool) oh om :
  0 <= oh < 24 -> 0 <= om < 60 ->
  parse_zone (String (if negative then "-" else "+")%char (hm oh om))
  = Some (ZoneOffset ((if negative then -1 else 1) * (oh * 60 + om))).
Proof.
  intros Hh Hm. unfold parse_zone, hm.
  replace (Ascii.eqb (if negative then "-" else "+")%char "Z") with false
    by (destruct negative; reflexivity).
  replace (Ascii.eqb (if negative then "-" else "+")%char "+"
           || Ascii.eqb (if negative then "-" else "+")%char "-") with true
    by (destruct negative; reflexivity).
  rewrite read_2_digits by lia. step.
  change (Ascii.eqb ":" ":") with true. cbv iota.
  rewrite <- (append_empty_r (digits 2 om)).
  rewrite read_2_digits by lia. step.
  replace ((0 * 100 + oh <? 24) && (0 * 100 + om <? 60)) with true
    by (symmetry; rewrite andb_true_iff, !Z.ltb_lt; lia).
  replace (Ascii.eqb (if negative then "-" else "+")%char "-") with negative
    by (destruct negative; reflexivity).
  destruct negative; do 2 f_equal; lia.
Qed.

Section Zone.
Variable tz : Z -> bool -> Z.

Lemma valid_time_true h mi sec ms :
  0 <= h < 24 -> 0 <= mi < 60 -> 0 <= sec < 60 -> valid_time h mi sec ms = true.
Proof.
  intros. unfold valid_time. rewrite orb_true_iff, !andb_true_iff, !Z.ltb_lt. lia.
Qed.

Lemma month_day_ok m d :
  1 <= m <= 12 -> 1 <= d <= 31 ->
  (1 <=? m) && (m <=? 12) && (1 <=? d) && (d <=? 31) = true.
Proof. intros. rewrite !andb_true_iff, !Z.leb_le. lia. Qed.

(** A date without a time is read as midnight UTC, whatever the zone. *)
Lemma Date_parse_date_only y m d :
  0 <= y <= 9999 -> 1 <= m <= 12 -> 1 <= d <= 31 ->
  Date_parse tz (ymd y m d) = Some (MakeDate (MakeDay y (m - 1) d) 0).
Proof.
  intros Hy Hm Hd. unfold Date_parse.
  rewrite <- (append_empty_r (ymd y m d)).
  rewrite parse_date_fields by lia. step.
  rewrite month_day_ok by assumption.
  apply TimeClip_in_range.
  pose proof (MakeDate_bound y (m - 1) d 0 Hy ltac:(lia) Hd
                ltac:(unfold msPerDay; lia)).
  unfold msPerDay in *. lia.
Qed.

(** A date with a time and no offset is read as local time. *)
Lemma Date_parse_local y m d h mi :
  0 <= y <= 9999 -> 1 <= m <= 12 -> 1 <= d <= 31 ->
  0 <= h < 24 -> 0 <= mi < 60 ->
  Date_parse tz (ymd y m d +:+ "T" +:+ hm h mi)
  = TimeClip (UTC tz (MakeDate (MakeDay y (m - 1) d) (MakeTime h mi 0 0))).
Proof.
  intros Hy Hm Hd Hh Hmi. unfold Date_parse.
  rewrite parse_date_fields by lia. step.
  rewrite month_day_ok by assumption.
  change (Ascii.eqb "T" "T") with true. cbv iota.
  rewrite parse_time_hm by lia. step. cbn [parse_zone]. step.
  rewrite valid_time_true by lia. reflexivity.
Qed.


End Zone.

(** The fields of a time of day. *)
Lemma time_fields_of_MakeDate day h mi sec ms :
  0 <= h < 24 -> 0 <= mi < 60 -> 0 <= sec < 60 -> 0 <= ms < 1000 ->
  let t := MakeDate day (MakeTime h mi sec ms) in
  HourFromTime t = h /\ MinFromTime t = mi /\ SecFromTime t = sec
  /\ msFromTime t = ms.
Proof.
  intros Hh Hmi Hs Hms.
  unfold MakeDate, MakeTime, HourFromTime, MinFromTime, SecFromTime, msFromTime,
    msPerDay, msPerHour, msPerMinute, msPerSecond.
  cbv zeta. repeat split; Z.div_mod_to_equations; lia.
Qed.

(** The ISO date of a civil date is that date, spelled out. *)
Lemma iso_date_of_MakeDate y m d tm :
  1 <= m <= 12 -> 1 <= d <= DaysInMonth y m -> 0 <= tm < msPerDay ->
  iso_date (MakeDate (MakeDay y (m - 1) d) tm) = ymd y m d.
Proof.
  intros Hm Hd Ht. unfold DaysInMonth in Hd.
  destruct (fields_of_MakeDate y (m - 1) d tm ltac:(lia)
              ltac:(replace (m - 1 + 1) with m by lia; exact Hd) Ht)
    as (HY & HM & HD & _).
  unfold iso_date. rewrite HY, HM, HD. f_equal. lia.
Qed.

(** Midnight UTC of a civil date, as [toISOString] prints it. *)
Lemma toISOString_midnight y m d :
  1 <= m <= 12 -> 1 <= d <= DaysInMonth y m ->
  toISOString (Some (MakeDate (MakeDay y (m - 1) d) 0))
  = Some (ymd y m d +:+ "T00:00:00.000Z").
Proof.
  intros Hm Hd. unfold toISOString, mbind, option_bind.
  rewrite iso_date_of_MakeDate by (assumption || (unfold msPerDay; lia)).
  unfold iso_time.
  pose proof (time_fields_of_MakeDate (MakeDay y (m - 1) d) 0 0 0 0
                ltac:(lia) ltac:(lia) ltac:(lia) ltac:(lia)) as F.
  cbv zeta in F. change (MakeTime 0 0 0 0) with 0 in F.
  destruct F as (-> & -> & -> & ->). reflexivity.
Qed.

Lemma DaysInMonth_le_31 y m : 1 <= m <= 12 -> DaysInMonth y m <= 31.
Proof.
  intros Hm. unfold DaysInMonth.
  pose proof (JsDateFacts.MonthStart_span (isLeapYear y) (m - 1) ltac:(lia)) as S.
  replace (m - 1 + 1) with m in S by lia. lia.
Qed.

End ParseFacts.

(** * The upsert with a conflict key *)

Module StoreFacts.
Import Store.

Lemma same_key_true a b : same_key a b = true <-> conflict_key a = conflict_key b.
Proof. unfold same_key. apply bool_decide_eq_true. Qed.

Lemma same_key_false a b : same_key a b = false <-> conflict_key a <> conflict_key b.
Proof. unfold same_key. apply bool_decide_eq_false. Qed.

Lemma upsert_row_keys r tbl k :
  In k (keys (upsert_row r tbl)) <-> k = conflict_key r \/ In k (keys tbl).
Proof.
  induction tbl as [|r' tbl IH]; simpl.
  - intuition congruence.
  - destruct (same_key r' r) eqn:E; simpl.
    + apply same_key_true in E. rewrite E. intuition congruence.
    + rewrite IH. intuition congruence.
Qed.

Lemma upsert_row_length_present r tbl :
  In (conflict_key r) (keys tbl) -> length (upsert_row r tbl) = length tbl.
Proof.
  induction tbl as [|r' tbl IH]; simpl; [contradiction|].
  destruct (same_key r' r) eqn:E; simpl; [reflexivity|].
  apply same_key_false in E. intros [H|H]; [congruence|]. now rewrite IH.
Qed.

Lemma upsert_row_absent r tbl :
  ~ In (conflict_key r) (keys tbl) -> upsert_row r tbl = tbl ++ [r].
Proof.
  induction tbl as [|r' tbl IH]; simpl; [reflexivity|]. intros N.
  destruct (same_key r' r) eqn:E.
  - apply same_key_true in E. tauto.
  - rewrite IH by tauto. reflexivity.
Qed.

Lemma upsert_row_NoDup r tbl :
  List.NoDup (keys tbl) -> List.NoDup (keys (upsert_row r tbl)).
Proof.
  induction tbl as [|r' tbl IH]; simpl; intros N.
  - apply List.NoDup_cons; [simpl; tauto|apply List.NoDup_nil].
  - apply List.NoDup_cons_iff in N as [N1 N2].
    destruct (same_key r' r) eqn:E; simpl; apply List.NoDup_cons_iff.
    + apply same_key_true in E. rewrite <- E. auto.
    + apply same_key_false in E. split; [|auto].
      rewrite upsert_row_keys. intuition congruence.
Qed.

(** In a table without duplicate keys, the row written last is the only
    one with its key. *)
Lemma upsert_row_filter r tbl :
  List.NoDup (keys tbl) -> filter (same_key r) (upsert_row r tbl) = [r].
Proof.
  assert (forall t, ~ In (conflict_key r) (keys t) -> filter (same_key r) t = [])
    as Empty.
  { induction t as [|x t IH]; [reflexivity|]. intros N. simpl in N.
    rewrite filter_cons.
    destruct (decide (same_key r x)) as [T|F]; [|apply IH; tauto].
    apply Is_true_true, same_key_true in T. exfalso. apply N. left. congruence. }
  induction tbl as [|r' tbl IH]; intros N.
  - simpl. rewrite filter_cons.
    destruct (decide (same_key r r)) as [T|F]; [reflexivity|].
    exfalso. apply F, Is_true_true, same_key_true. reflexivity.
  - apply List.NoDup_cons_iff in N as [N1 N2]. simpl.
    destruct (same_key r' r) eqn:E.
    + apply same_key_true in E. rewrite filter_cons.
      destruct (decide (same_key r r)) as [T|F].
      * f_equal. apply Empty. rewrite <- E. exact N1.
      * exfalso. apply F, Is_true_true, same_key_true. reflexivity.
    + apply same_key_false in E. rewrite filter_cons.
      destruct (decide (same_key r r')) as [T|F]; [|auto].
      apply Is_true_true, same_key_true in T. congruence.
Qed.

Lemma upsert_app rows1 rows2 tbl :
  upsert (rows1 ++ rows2) tbl = upsert rows2 (upsert rows1 tbl).
Proof. unfold upsert. apply fold_left_app. Qed.

Lemma upsert_keys rows : forall tbl k,
  In k (keys (upsert rows tbl)) <-> In k (keys rows) \/ In k (keys tbl).
Proof.
  induction rows as [|r rows IH]; intros tbl k; simpl; [tauto|].
  change (upsert (r :: rows) tbl) with (upsert rows (upsert_row r tbl)).
  rewrite IH, upsert_row_keys. intuition congruence.
Qed.

Lemma upsert_NoDup rows : forall tbl,
  List.NoDup (keys tbl) -> List.NoDup (keys (upsert rows tbl)).
Proof.
  induction rows as [|r rows IH]; intros tbl N; [exact N|].
  apply (IH (upsert_row r tbl)), upsert_row_NoDup, N.
Qed.

(** Rows whose keys are all in the table already do not change its size. *)
Lemma upsert_length_present rows : forall tbl,
  (forall k, In k (keys rows) -> In k (keys tbl)) ->
  length (upsert rows tbl) = length tbl.
Proof.
  induction rows as [|r rows IH]; intros tbl H; [reflexivity|].
  change (upsert (r :: rows) tbl) with (upsert rows (upsert_row r tbl)).
  rewrite IH.
  - apply upsert_row_length_present, H. simpl. auto.
  - intros k K. apply upsert_row_keys. right. apply H. simpl. auto.
Qed.

(** Writing the same keys a second time leaves the size of the table. *)
Lemma upsert_twice_length rows1 rows2 tbl :
  keys rows2 = keys rows1 ->
  length (upsert rows2 (upsert rows1 tbl)) = length (upsert rows1 tbl).
Proof.
  intros E. apply upsert_length_present. intros k K.
  apply upsert_keys. left. now rewrite <- E.
Qed.

End StoreFacts.

(** * Credential resolution and refresh *)

Section OperationFacts.
Import JsDate JsString JsDateString.

Variable host : Host.

Lemma Date_ofString_empty : Date_ofString host EmptyString = None.
Proof. reflexivity. Qed.

(** The expiry test succeeds exactly for a stored expiry that reads as an
    instant strictly before the clock. *)
Lemma isExpired_true r :
  Js.ToBoolean (isExpired host r) = true <->
  exists s t, TokenRow.expiry_date r = Some s
              /\ Date_ofString host s = Some t /\ t < now host.
Proof.
  unfold isExpired, Date_ofColumn, Date_now.
  destruct (TokenRow.expiry_date r) as [[|c s]|]; simpl.
  - split; [discriminate|]. intros (s & t & E & P & _).
    injection E as <-. discriminate.
  - destruct (Date_ofString host (String c s)) as [t|] eqn:P; simpl.
    + rewrite Z.ltb_lt. split.
      * intros L. exists (String c s), t. auto.
      * intros (s' & t' & E & P' & L). injection E as <-.
        rewrite P in P'. injection P' as <-. exact L.
    + split; [discriminate|]. intros (s' & t' & E & P' & _).
      injection E as <-. rewrite P in P'. discriminate.
  - split; [discriminate|]. intros (s & t & E & _). discriminate.
Qed.

Lemma isExpired_false r :
  Js.ToBoolean (isExpired host r) = false <->
  (forall s t, TokenRow.expiry_date r = Some s ->
               Date_ofString host s = Some t -> now host <= t).
Proof.
  split.
  - intros F s t E P. destruct (Z.le_gt_cases (now host) t) as [L|G]; [exact L|].
    assert (Js.ToBoolean (isExpired host r) = true) as T
      by (apply isExpired_true; exists s, t; auto with zarith).
    congruence.
  - intros H. destruct (Js.ToBoolean (isExpired host r)) eqn:T; [|reflexivity].
    apply isExpired_true in T as (s & t & E & P & L).
    specialize (H s t E P). lia.
Qed.

Lemma select_token_run userId w :
  select_token host userId w =
  (match store_fault host (SelectToken userId) with
   | Rejects msg => Throw (Err msg)
   | ErrorReply msg => Ok (StoreError msg)
   | NoFault => Ok (Store.single userId (google_calendar_tokens w))
   end, logged w [SelectToken userId]).
Proof.
  unfold select_token, bind, call. cbn [google_calendar_tokens].
  fold (logged w [SelectToken userId]).
  destruct (store_fault host _); reflexivity.
Qed.

(** The shape of a credential resolution. *)
Lemma getUserTokens_run userId w :
  userId <> EmptyString ->
  getUserTokensFromDatabase host userId w =
  let w' := logged w [SelectToken userId] in
  match store_fault host (SelectToken userId) with
  | Rejects msg => (Throw (Err msg), w')
  | ErrorReply _ => (Throw (Err "No Google tokens found in database"), w')
  | NoFault =>
      match Store.single userId (google_calendar_tokens w) with
      | StoreError _ => (Throw (Err "No Google tokens found in database"), w')
      | Data r => resolve_row host userId w' r
      end
  end.
Proof.
  intros Hu. unfold getUserTokensFromDatabase, resolve_row.
  destruct userId as [|c u]; [congruence|]. cbn [truthy negb].
  unfold bind at 1. rewrite select_token_run. cbv zeta.
  destruct (store_fault host _); try reflexivity.
  destruct (Store.single _ _) as [r|msg]; [|reflexivity].
  destruct (Js.ToBoolean (isExpired host r)); [|reflexivity].
  destruct (TokenRow.refresh_token r) as [[|c' s']|]; reflexivity.
Qed.

Lemma getUserTokens_no_user w :
  getUserTokensFromDatabase host EmptyString w = (Throw (Err "User ID is required"), w).
Proof. reflexivity. Qed.

(** A row that is not expired is handed back as stored, and only the
    select leaves the process. *)
Lemma resolve_not_expired userId w r :
  userId <> EmptyString ->
  store_fault host (SelectToken userId) = NoFault ->
  filter (fun r => String.eqb (TokenRow.user_id r) userId)
         (google_calendar_tokens w) = [r] ->
  Js.ToBoolean (isExpired host r) = false ->
  getUserTokensFromDatabase host userId w
  = (Ok (StoredTokens (TokenRow.access_token r) (TokenRow.refresh_token r)
                      (TokenRow.expiry_date r) (TokenRow.user_id r)),
     logged w [SelectToken userId]).
Proof.
  intros Hu Hf Hr He. rewrite (getUserTokens_run userId w Hu), Hf. cbv zeta.
  unfold Store.single, resolve_row. rewrite Hr, He. reflexivity.
Qed.

(** The status probe once the store has answered. *)
Lemma status_run userId w :
  userId <> EmptyString ->
  store_fault host (SelectToken userId) = NoFault ->
  getUserConnectionStatusFromDatabase host userId w =
  (Ok match Store.single userId (google_calendar_tokens w) with
      | StoreError _ => Status.mk false Js.undefined Js.undefined None
      | Data r =>
          let has_refresh :=
            Js.not (Js.not (Js.of_column (TokenRow.refresh_token r))) in
          Status.mk
            (Js.ToBoolean (Js.or (Js.not (isExpired host r)) has_refresh))
            (Js.of_column (TokenRow.expiry_date r))
            (Js.and (isExpired host r) has_refresh)
            None
      end,
   logged w [SelectToken userId]).
Proof.
  intros Hu Hf. unfold getUserConnectionStatusFromDatabase.
  destruct userId as [|c u]; [congruence|]. cbn [truthy negb].
  unfold bind, ret. rewrite select_token_run, Hf.
  destruct (Store.single _ _) as [r|msg]; reflexivity.
Qed.

End OperationFacts.

(** ** The refresh step *)

Section RefreshFacts.
Import JsDate JsString JsDateString.

Variable host : Host.

Lemma refresh_frame_refl tbl : refresh_frame tbl tbl.
Proof. induction tbl; constructor; auto. Qed.

Lemma Store_update_frame u a e tbl :
  refresh_frame tbl (Store.update u a e tbl).
Proof.
  induction tbl as [|r tbl IH]; simpl; constructor; [|exact IH].
  destruct (String.eqb (TokenRow.user_id r) u); simpl; auto.
Qed.

Lemma Store_update_other u a e tbl :
  Forall2 (fun r r' => TokenRow.user_id r <> u -> r' = r)
          tbl (Store.update u a e tbl).
Proof.
  induction tbl as [|r tbl IH]; simpl; constructor; [|exact IH].
  intros N. apply String.eqb_neq in N. now rewrite N.
Qed.

Lemma Store_update_written u a e tbl :
  Forall (fun r' => TokenRow.user_id r' = u ->
                    TokenRow.access_token r' = Some a
                    /\ TokenRow.expiry_date r' = e)
         (Store.update u a e tbl).
Proof.
  induction tbl as [|r tbl IH]; simpl; constructor; [|exact IH].
  destruct (String.eqb_spec (TokenRow.user_id r) u); simpl; [auto|tauto].
Qed.

(** The outcomes of a refresh, step by step. *)
Lemma refresh_run userId refreshToken w :
  refreshUserTokensFromDatabase host userId refreshToken w =
  let client := Some (RefreshTokenOnly refreshToken) in
  let at_server held cs :=
    mkWorld (google_calendar_tokens w) (calendar_events w) held
            (calls w ++ RefreshAccessToken client :: cs) in
  match refreshAccessToken host client with
  | Throw e => (Throw e, at_server client [])
  | Ok c =>
      let held := Some (RefreshedCredentials c) in
      match expiry_column (Credentials.expiry_date c) with
      | Throw e => (Throw e, at_server held [])
      | Ok expiry =>
          let u := UpdateToken userId (Credentials.access_token c) expiry in
          match store_fault host u with
          | Rejects msg => (Throw (Err msg), at_server held [u])
          | ErrorReply msg =>
              (Throw (Err ("Failed to update tokens in database: " +:+ msg)),
               at_server held [u])
          | NoFault =>
              (Ok c,
               mkWorld (Store.update userId (Credentials.access_token c) expiry
                          (google_calendar_tokens w))
                       (calendar_events w) held
                       (calls w ++ [RefreshAccessToken client; u]))
          end
      end
  end.
Proof.
  unfold refreshUserTokensFromDatabase, oauth2Client_refreshAccessToken,
    update_token, setCredentials, bind, call, lift, ret.
  cbn [oauth2Client google_calendar_tokens calendar_events calls].
  destruct (refreshAccessToken host _) as [c|e]; [|reflexivity].
  cbn [oauth2Client google_calendar_tokens calendar_events calls].
  destruct (expiry_column _) as [expiry|e]; [|reflexivity].
  rewrite <- app_assoc. cbn [app].
  destruct (store_fault host _); reflexivity.
Qed.

Lemma refresh_preserves userId refreshToken w :
  let w' := snd (refreshUserTokensFromDatabase host userId refreshToken w) in
  refresh_frame (google_calendar_tokens w) (google_calendar_tokens w')
  /\ calendar_events w' = calendar_events w.
Proof.
  rewrite refresh_run. cbv zeta.
  destruct (refreshAccessToken host _) as [c|e];
    [|split; [apply refresh_frame_refl|reflexivity]].
  destruct (expiry_column _) as [expiry|e];
    [|split; [apply refresh_frame_refl|reflexivity]].
  destruct (store_fault host _); cbn [snd google_calendar_tokens calendar_events];
    split; try reflexivity; try apply refresh_frame_refl.
  apply Store_update_frame.
Qed.

End RefreshFacts.

(** ** Outcomes of a resolution *)

Section ResolveClaims.
Import JsDate JsString JsDateString.

Variable host : Host.

(** C3. [getUserTokensFromDatabase] throws "No Google tokens found in
    database" when the user has no row; for a row whose expiry lies in the
    past and whose refresh token is absent it throws "Token expired and no
    refresh token available"; for a row that is not expired, or has no
    expiry, it returns the stored fields as they are.  In all three cases
    the only call that leaves the process is the select: nothing is asked
    of the authorization server and nothing is written to the store. *)
Theorem C3_resolve_outcomes (userId : string) (w : World) :
  userId <> EmptyString ->
  store_fault host (SelectToken userId) = NoFault ->
  let rows := filter (fun r => String.eqb (TokenRow.user_id r) userId)
                     (google_calendar_tokens w) in
  let w' := logged w [SelectToken userId] in
  (rows = [] ->
   getUserTokensFromDatabase host userId w
   = (Throw (Err "No Google tokens found in database"), w'))
  /\ (forall r, rows = [r] ->
      ((exists s t, TokenRow.expiry_date r = Some s
                    /\ Date_ofString host s = Some t /\ t < now host) ->
       truthy (TokenRow.refresh_token r) = false ->
       getUserTokensFromDatabase host userId w
       = (Throw (Err "Token expired and no refresh token available"), w'))
      /\
      ((TokenRow.expiry_date r = None
        \/ exists s t, TokenRow.expiry_date r = Some s
                       /\ Date_ofString host s = Some t /\ now host <= t) ->
       getUserTokensFromDatabase host userId w
       = (Ok (StoredTokens (TokenRow.access_token r) (TokenRow.refresh_token r)
                           (TokenRow.expiry_date r) (TokenRow.user_id r)), w'))).
Proof.
  intros Hu Hf rows w'. rewrite (getUserTokens_run host userId w Hu), Hf.
  cbv zeta. fold w'. unfold Store.single, resolve_row. fold rows.
  split; [intros ->; reflexivity|].
  intros r ->. split.
  - intros E R. apply isExpired_true in E. rewrite E.
    destruct (TokenRow.refresh_token r) as [[|c s]|]; try reflexivity.
    discriminate.
  - intros V.
    assert (Js.ToBoolean (isExpired host r) = false) as ->; [|reflexivity].
    apply isExpired_false. intros s t E P.
    destruct V as [N|(s' & t' & E' & P' & L)]; [congruence|].
    rewrite E in E'. injection E' as <-. rewrite P in P'. injection P' as <-.
    exact L.
Qed.

(** C2, as the code has it.  For a row whose expiry reads as the instant
    [t]: when [t] is the current time or later the stored fields are
    returned and no refresh is attempted; when [t] is earlier than the
    current time, were it by one millisecond, and a refresh token is stored,
    the authorization server is asked for a refresh. *)
Theorem C2_expiry_boundary (userId : string) (w : World) (r : TokenRow.t)
    (s : string) (t : Z) :
  userId <> EmptyString ->
  store_fault host (SelectToken userId) = NoFault ->
  filter (fun r => String.eqb (TokenRow.user_id r) userId)
         (google_calendar_tokens w) = [r] ->
  TokenRow.expiry_date r = Some s ->
  Date_ofString host s = Some t ->
  (now host <= t ->
   getUserTokensFromDatabase host userId w
   = (Ok (StoredTokens (TokenRow.access_token r) (TokenRow.refresh_token r)
                       (TokenRow.expiry_date r) (TokenRow.user_id r)),
      logged w [SelectToken userId]))
  /\ (t < now host ->
      forall rt, TokenRow.refresh_token r = Some rt -> rt <> EmptyString ->
      exists rest,
        calls (snd (getUserTokensFromDatabase host userId w))
        = calls w ++ SelectToken userId
                  :: RefreshAccessToken (Some (RefreshTokenOnly rt)) :: rest).
Proof.
  intros Hu Hf Hr He Hp. split.
  - intros L. apply resolve_not_expired; try assumption.
    apply isExpired_false. intros s' t' E' P'.
    rewrite He in E'. injection E' as <-. rewrite Hp in P'. injection P' as <-.
    exact L.
  - intros L rt Hrt Hne.
    rewrite (getUserTokens_run host userId w Hu), Hf. cbv zeta.
    unfold Store.single, resolve_row. rewrite Hr.
    assert (Js.ToBoolean (isExpired host r) = true) as ->
      by (apply isExpired_true; exists s, t; auto).
    rewrite Hrt. destruct rt as [|c rt']; [congruence|].
    rewrite refresh_run. cbv zeta.
    cbn [logged google_calendar_tokens calendar_events calls].
    destruct (refreshAccessToken host _) as [cr|e].
    2:{ exists []. cbn [snd calls]. now rewrite <- app_assoc. }
    destruct (expiry_column _) as [expiry|e].
    2:{ exists []. cbn [snd calls]. now rewrite <- app_assoc. }
    destruct (store_fault host (UpdateToken _ _ _)); eexists; cbn [snd calls];
      rewrite <- app_assoc; reflexivity.
Qed.

End ResolveClaims.

(** ** What a refresh may change *)

Section RefreshClaims.
Import JsDate JsString JsDateString.

Variable host : Host.

Lemma resolve_row_preserves userId w' r :
  let w'' := snd (resolve_row host userId w' r) in
  refresh_frame (google_calendar_tokens w') (google_calendar_tokens w'')
  /\ calendar_events w'' = calendar_events w'.
Proof.
  unfold resolve_row.
  destruct (Js.ToBoolean (isExpired host r));
    [|split; [apply refresh_frame_refl|reflexivity]].
  destruct (TokenRow.refresh_token r) as [[|c s]|];
    try (split; [apply refresh_frame_refl|reflexivity]).
  pose proof (refresh_preserves host userId (String c s) w') as P.
  cbv zeta in P.
  destruct (refreshUserTokensFromDatabase _ _ _ _) as [[cr|e] w'']; exact P.
Qed.

Lemma resolve_preserves userId w :
  let w' := snd (getUserTokensFromDatabase host userId w) in
  refresh_frame (google_calendar_tokens w) (google_calendar_tokens w')
  /\ calendar_events w' = calendar_events w.
Proof.
  destruct (string_dec userId EmptyString) as [->|Hu];
    [split; [apply refresh_frame_refl|reflexivity]|].
  rewrite (getUserTokens_run host userId w Hu). cbv zeta.
  destruct (store_fault host _) as [|msg|msg];
    try (split; [apply refresh_frame_refl|reflexivity]).
  destruct (Store.single _ _) as [r|msg];
    [|split; [apply refresh_frame_refl|reflexivity]].
  apply (resolve_row_preserves userId (logged w [SelectToken userId]) r).
Qed.

Lemma route_preserves userId w :
  let w' := snd (post_google_refresh host userId w) in
  refresh_frame (google_calendar_tokens w) (google_calendar_tokens w')
  /\ calendar_events w' = calendar_events w.
Proof.
  cbv zeta. unfold post_google_refresh.
  destruct (negb (truthy (Some userId)));
    [split; [apply refresh_frame_refl|reflexivity]|].
  unfold bind. rewrite select_token_run.
  destruct (store_fault host (SelectToken userId)) as [|msg|msg];
    try (split; [apply refresh_frame_refl|reflexivity]).
  destruct (Store.single _ _) as [r|msg];
    [|split; [apply refresh_frame_refl|reflexivity]].
  destruct (TokenRow.refresh_token r) as [[|c s]|];
    try (split; [apply refresh_frame_refl|reflexivity]).
  unfold oauth2Client_refreshAccessToken, update_token, setCredentials, bind,
    call, lift, ret.
  cbn [oauth2Client google_calendar_tokens calendar_events calls logged].
  destruct (refreshAccessToken host _) as [cr|e];
    [|split; [apply refresh_frame_refl|reflexivity]].
  destruct (expiry_column _) as [expiry|e];
    [|split; [apply refresh_frame_refl|reflexivity]].
  destruct (store_fault host (UpdateToken _ _ _));
    cbn [snd google_calendar_tokens calendar_events];
    split; try reflexivity; try apply refresh_frame_refl.
  apply Store_update_frame.
Qed.

Lemma route_returns userId w message c :
  fst (post_google_refresh host userId w)
  = mkResponse 200 (RefreshedBody message c) ->
  exists rt, refreshAccessToken host (Some (RefreshTokenOnly rt)) = Ok c.
Proof.
  unfold post_google_refresh.
  destruct (negb (truthy (Some userId))); [discriminate|].
  unfold bind. rewrite select_token_run.
  destruct (store_fault host (SelectToken userId)) as [|msg|msg];
    try discriminate.
  destruct (Store.single _ _) as [r|msg]; [|discriminate].
  destruct (TokenRow.refresh_token r) as [[|ch s]|]; try discriminate.
  unfold oauth2Client_refreshAccessToken, update_token, setCredentials, bind,
    call, lift, ret.
  cbn [oauth2Client google_calendar_tokens calendar_events calls logged].
  destruct (refreshAccessToken host _) as [cr|e] eqn:R; [|discriminate].
  destruct (expiry_column _) as [expiry|e]; [|discriminate].
  destruct (store_fault host (UpdateToken _ _ _)); try discriminate.
  cbn [fst]. intros [= _ ->]. exists (String ch s). exact R.
Qed.

(** The refresh route when the authorization server answers and the store
    takes the update. *)
Lemma route_refreshes userId w r rt c expiry :
  userId <> EmptyString ->
  store_fault host (SelectToken userId) = NoFault ->
  Store.single userId (google_calendar_tokens w) = Data r ->
  TokenRow.refresh_token r = Some rt -> rt <> EmptyString ->
  refreshAccessToken host (Some (RefreshTokenOnly rt)) = Ok c ->
  expiry_column (Credentials.expiry_date c) = Ok expiry ->
  store_fault host (UpdateToken userId (Credentials.access_token c) expiry)
  = NoFault ->
  fst (post_google_refresh host userId w)
  = mkResponse 200 (RefreshedBody "Tokens refreshed successfully" c)
  /\ google_calendar_tokens (snd (post_google_refresh host userId w))
     = Store.update userId (Credentials.access_token c) expiry
                    (google_calendar_tokens w).
Proof.
  intros Hu Hf Hs Ht Hn A X U.
  enough (exists w',
            post_google_refresh host userId w
            = (mkResponse 200 (RefreshedBody "Tokens refreshed successfully" c),
               w')
            /\ google_calendar_tokens w'
               = Store.update userId (Credentials.access_token c) expiry
                              (google_calendar_tokens w))
    as (w' & -> & E) by (split; [reflexivity|exact E]).
  unfold post_google_refresh.
  destruct userId as [|a u]; [congruence|].
  cbn [truthy negb]. unfold bind at 1. rewrite select_token_run, Hf, Hs, Ht.
  destruct rt as [|b rt']; [congruence|].
  unfold oauth2Client_refreshAccessToken, update_token, setCredentials, bind,
    call, lift, ret.
  cbn [oauth2Client google_calendar_tokens calendar_events calls logged].
  rewrite A.
  cbn [oauth2Client google_calendar_tokens calendar_events calls].
  rewrite X, U. eexists. split; reflexivity.
Qed.

(** C7. A refresh leaves every row of the token table with its [user_id],
    [email] and [refresh_token]: at most [access_token] and [expiry_date]
    change, rows of other users are as they were, and the event table is
    not touched.  This holds for [refreshUserTokensFromDatabase], for the
    resolution that calls it and for the refresh route.  When the refresh
    succeeds, the credentials returned are those the authorization server
    answered with, and they are what the rows of the user now hold.  And
    the refresh does succeed whenever the authorization server answers
    with credentials whose expiry is in the range of a date and the store
    takes the update: the three paths then return these credentials, and
    every row of the user holds the new access token and the new expiry
    (as an ISO string, or null when the server sent none). *)
Theorem C7_refresh_frame (userId refreshToken : string) (w : World) :
  let run := refreshUserTokensFromDatabase host userId refreshToken w in
  let resolved := getUserTokensFromDatabase host userId w in
  let routed := post_google_refresh host userId w in
  (refresh_frame (google_calendar_tokens w) (google_calendar_tokens (snd run))
   /\ calendar_events (snd run) = calendar_events w)
  /\ (refresh_frame (google_calendar_tokens w)
                    (google_calendar_tokens (snd resolved))
      /\ calendar_events (snd resolved) = calendar_events w)
  /\ (refresh_frame (google_calendar_tokens w)
                    (google_calendar_tokens (snd routed))
      /\ calendar_events (snd routed) = calendar_events w)
  /\ Forall2 (fun r r' => TokenRow.user_id r <> userId -> r' = r)
             (google_calendar_tokens w) (google_calendar_tokens (snd run))
  /\ (forall c, fst run = Ok c ->
      refreshAccessToken host (Some (RefreshTokenOnly refreshToken)) = Ok c
      /\ exists expiry,
          expiry_column (Credentials.expiry_date c) = Ok expiry
          /\ google_calendar_tokens (snd run)
             = Store.update userId (Credentials.access_token c) expiry
                            (google_calendar_tokens w))
  /\ (forall c, fst resolved = Ok (RefreshedCredentials c) ->
      exists rt, refreshAccessToken host (Some (RefreshTokenOnly rt)) = Ok c)
  /\ (forall message c,
      fst routed = mkResponse 200 (RefreshedBody message c) ->
      exists rt, refreshAccessToken host (Some (RefreshTokenOnly rt)) = Ok c)
  /\ (forall c expiry,
      refreshAccessToken host (Some (RefreshTokenOnly refreshToken)) = Ok c ->
      expiry_column (Credentials.expiry_date c) = Ok expiry ->
      store_fault host (UpdateToken userId (Credentials.access_token c) expiry)
      = NoFault ->
      let updated :=
        Store.update userId (Credentials.access_token c) expiry
                     (google_calendar_tokens w) in
      (fst run = Ok c /\ google_calendar_tokens (snd run) = updated)
      /\ Forall (fun r' => TokenRow.user_id r' = userId ->
                           TokenRow.access_token r'
                           = Some (Credentials.access_token c)
                           /\ TokenRow.expiry_date r' = expiry) updated
      /\ (forall r,
          userId <> EmptyString ->
          store_fault host (SelectToken userId) = NoFault ->
          Store.single userId (google_calendar_tokens w) = Data r ->
          TokenRow.refresh_token r = Some refreshToken ->
          refreshToken <> EmptyString ->
          (Js.ToBoolean (isExpired host r) = true ->
           fst resolved = Ok (RefreshedCredentials c)
           /\ google_calendar_tokens (snd resolved) = updated)
          /\ fst routed
             = mkResponse 200 (RefreshedBody "Tokens refreshed successfully" c)
          /\ google_calendar_tokens (snd routed) = updated)).
Proof.
  cbv zeta. split; [apply refresh_preserves|].
  split; [apply resolve_preserves|]. split; [apply route_preserves|].
  split; [|split; [|split; [|split; [apply route_returns|]]]].
  4:{ intros c expiry A X U. split; [|split; [apply Store_update_written|]].
      - rewrite refresh_run. cbv zeta. rewrite A, X, U. split; reflexivity.
      - intros r Hu Hf Hs Ht Hn. split.
        + intros E. rewrite (getUserTokens_run host userId w Hu), Hf, Hs.
          cbv zeta. unfold resolve_row. rewrite E, Ht.
          destruct refreshToken as [|ch rt]; [congruence|].
          rewrite refresh_run. cbv zeta. cbn [logged google_calendar_tokens].
          rewrite A, X, U. split; reflexivity.
        + exact (route_refreshes userId w r refreshToken c expiry
                   Hu Hf Hs Ht Hn A X U). }
  - rewrite refresh_run. cbv zeta.
    assert (Forall2 (fun r r' : TokenRow.t => TokenRow.user_id r <> userId -> r' = r)
              (google_calendar_tokens w) (google_calendar_tokens w)) as Same
      by (induction (google_calendar_tokens w); constructor; auto).
    destruct (refreshAccessToken host _) as [c|e]; [|exact Same].
    destruct (expiry_column _) as [expiry|e]; [|exact Same].
    destruct (store_fault host _); try exact Same.
    apply Store_update_other.
  - intros c. rewrite refresh_run. cbv zeta.
    destruct (refreshAccessToken host _) as [c'|e]; [|discriminate].
    destruct (expiry_column _) as [expiry|e] eqn:E; [|discriminate].
    destruct (store_fault host _); try discriminate.
    cbn [fst snd google_calendar_tokens]. intros [= ->].
    split; [reflexivity|]. exists expiry. split; [exact E|reflexivity].
  - intros c. destruct (string_dec userId EmptyString) as [->|Hu]; [discriminate|].
    rewrite (getUserTokens_run host userId w Hu). cbv zeta.
    destruct (store_fault host _); try discriminate.
    destruct (Store.single _ _) as [r|msg]; [|discriminate].
    unfold resolve_row.
    destruct (Js.ToBoolean (isExpired host r)); [|discriminate].
    destruct (TokenRow.refresh_token r) as [[|ch s]|]; try discriminate.
    rewrite refresh_run. cbv zeta.
    destruct (refreshAccessToken host _) as [c'|e] eqn:R; [|discriminate].
    destruct (expiry_column _) as [expiry|e]; [|discriminate].
    destruct (store_fault host (UpdateToken _ _ _)); try discriminate.
    cbn [fst ret]. intros [= ->]. exists (String ch s). exact R.
Qed.

End RefreshClaims.

(** ** Credentials without expiry *)

Section NonExpiring.
Import JsDate JsString JsDateString.

Lemma single_Data u tbl r :
  Store.single u tbl = Data r -> In r tbl /\ TokenRow.user_id r = u.
Proof.
  unfold Store.single.
  destruct (filter _ tbl) as [|r' [|r'' rest]] eqn:F; try discriminate.
  intros [= ->].
  assert (r ∈ filter (fun r => String.eqb (TokenRow.user_id r) u) tbl) as M
    by (rewrite F; left).
  apply list_elem_of_filter in M as [E M].
  split; [now apply list_elem_of_In|].
  apply String.eqb_eq. destruct (String.eqb _ _); [reflexivity|contradiction].
Qed.

Lemma isExpired_no_expiry host r :
  TokenRow.expiry_date r = None -> Js.ToBoolean (isExpired host r) = false.
Proof. intros E. unfold isExpired. rewrite E. reflexivity. Qed.

(** A resolution for a user whose rows have no expiry: one select, no
    write, and the stored fields handed back when the row is found. *)
Lemma resolve_without_expiry host userId w :
  userId <> EmptyString ->
  Forall (fun r => TokenRow.user_id r = userId -> TokenRow.expiry_date r = None)
         (google_calendar_tokens w) ->
  snd (getUserTokensFromDatabase host userId w) = logged w [SelectToken userId]
  /\ forall r,
      store_fault host (SelectToken userId) = NoFault ->
      Store.single userId (google_calendar_tokens w) = Data r ->
      fst (getUserTokensFromDatabase host userId w)
      = Ok (StoredTokens (TokenRow.access_token r) (TokenRow.refresh_token r)
                         None userId).
Proof.
  intros Hu HN. rewrite (getUserTokens_run host userId w Hu). cbv zeta.
  destruct (store_fault host _); try (split; [reflexivity|discriminate]).
  destruct (Store.single _ _) as [r|msg] eqn:S;
    [|split; [reflexivity|discriminate]].
  destruct (single_Data _ _ _ S) as [M U].
  assert (TokenRow.expiry_date r = None) as E
    by (rewrite List.Forall_forall in HN; apply (HN r); [exact M|exact U]).
  unfold resolve_row. rewrite (isExpired_no_expiry host r E).
  split; [reflexivity|]. intros r' _ [= <-]. cbn [fst]. now rewrite E, U.
Qed.

(** C10. When the refresh answer carries no expiry, the rows of the user
    are written with a null [expiry_date] (and the new access token).
    From then on, however many resolutions follow, at whatever times and
    whatever the outside world answers, each one makes a single select:
    the authorization server is not asked again, the token table stays as
    the refresh left it, and a resolution that finds the row returns the
    stored fields, with the refreshed access token and no expiry. *)
Theorem C10_null_expiry_never_refreshes (host : Host)
    (userId refreshToken : string) (w : World) (c : Credentials.t) :
  userId <> EmptyString ->
  fst (refreshUserTokensFromDatabase host userId refreshToken w) = Ok c ->
  Credentials.expiry_date c = None ->
  let w1 := snd (refreshUserTokensFromDatabase host userId refreshToken w) in
  Forall (fun r => TokenRow.user_id r = userId ->
                   TokenRow.expiry_date r = None
                   /\ TokenRow.access_token r = Some (Credentials.access_token c))
         (google_calendar_tokens w1)
  /\ forall later : list Host,
      let wn := fold_left (fun w h => snd (getUserTokensFromDatabase h userId w))
                          later w1 in
      google_calendar_tokens wn = google_calendar_tokens w1
      /\ calls wn = calls w1 ++ repeat (SelectToken userId) (length later)
      /\ forall h r,
          store_fault h (SelectToken userId) = NoFault ->
          Store.single userId (google_calendar_tokens wn) = Data r ->
          getUserTokensFromDatabase h userId wn
          = (Ok (StoredTokens (Some (Credentials.access_token c))
                              (TokenRow.refresh_token r) None userId),
             logged wn [SelectToken userId]).
Proof.
  intros Hu Hok Hnone w1.
  assert (Forall (fun r => TokenRow.user_id r = userId ->
                   TokenRow.expiry_date r = None
                   /\ TokenRow.access_token r = Some (Credentials.access_token c))
                 (google_calendar_tokens w1)) as Hrows.
  { subst w1. revert Hok. rewrite refresh_run. cbv zeta.
    destruct (refreshAccessToken host _) as [c'|e]; [|discriminate].
    destruct (expiry_column _) as [expiry|e] eqn:E; [|discriminate].
    destruct (store_fault host _); try discriminate.
    cbn [fst snd google_calendar_tokens]. intros [= ->].
    rewrite Hnone in E. injection E as <-.
    eapply List.Forall_impl; [|apply Store_update_written].
    intros r H U. destruct (H U). auto. }
  split; [exact Hrows|].
  intros later.
  assert (forall w0 : World,
    google_calendar_tokens w0 = google_calendar_tokens w1 ->
    let wn := fold_left (fun w h => snd (getUserTokensFromDatabase h userId w))
                        later w0 in
    google_calendar_tokens wn = google_calendar_tokens w1
    /\ calls wn = calls w0 ++ repeat (SelectToken userId) (length later)) as Step.
  { induction later as [|h later IH]; intros w0 H0.
    - cbn. split; [exact H0|]. now rewrite app_nil_r.
    - cbn [fold_left length repeat].
      assert (Forall (fun r => TokenRow.user_id r = userId ->
                               TokenRow.expiry_date r = None)
                     (google_calendar_tokens w0)) as HN.
      { rewrite H0. eapply List.Forall_impl; [|exact Hrows]. intros r H U.
        now destruct (H U). }
      destruct (resolve_without_expiry h userId w0 Hu HN) as [-> _].
      destruct (IH (logged w0 [SelectToken userId]) H0) as [T C].
      split; [exact T|]. rewrite C. cbn [logged calls].
      now rewrite <- app_assoc. }
  destruct (Step w1 eq_refl) as [T C]. cbv zeta.
  split; [exact T|]. split; [exact C|].
  intros h r Hf Hs.
  set (wn := fold_left _ later w1) in *.
  assert (Forall (fun r => TokenRow.user_id r = userId ->
                           TokenRow.expiry_date r = None)
                 (google_calendar_tokens wn)) as HN.
  { rewrite T. eapply List.Forall_impl; [|exact Hrows]. intros r' H U.
    now destruct (H U). }
  destruct (resolve_without_expiry h userId wn Hu HN) as [W R].
  specialize (R r Hf Hs).
  destruct (single_Data _ _ _ Hs) as [M U].
  assert (TokenRow.access_token r = Some (Credentials.access_token c)) as A.
  { rewrite T in M. rewrite List.Forall_forall in Hrows.
    now destruct (Hrows r M U). }
  rewrite A in R.
  destruct (getUserTokensFromDatabase h userId wn) as [res w']. cbn in *.
  congruence.
Qed.

End NonExpiring.

(** * Pull synchronisation *)

Section SyncFacts.
Import JsDate JsString JsDateString IsoFacts.

Lemma toInternal_run host userId event :
  toInternal host userId event =
  match RemoteEvent.dateTime (RemoteEvent.start event) with
  | Some (String c s) =>
      match Date_ofString host (String c s) with
      | Some t =>
          Ok (mapped_row host userId event (Some (iso_date t))
                (Some (hm (HourFromTime t) (MinFromTime t))))
      | None => Throw (Err "Invalid time value")
      end
  | _ =>
      Ok (mapped_row host userId event
            (RemoteEvent.date (RemoteEvent.start event)) None)
  end.
Proof.
  unfold toInternal, toISOString_or_throw, Date_now.
  destruct (RemoteEvent.dateTime _) as [[|c s]|]; try reflexivity.
  destruct (Date_ofString host (String c s)) as [t|]; [|reflexivity].
  rewrite !toISOString_Some, split_iso, substring_iso_time. reflexivity.
Qed.

(** The key of a mapped row does not depend on the clock. *)
Lemma toInternal_key h1 h2 userId event r1 r2 :
  LocalTZA h2 = LocalTZA h1 ->
  toInternal h1 userId event = Ok r1 ->
  toInternal h2 userId event = Ok r2 ->
  Store.conflict_key r2 = Store.conflict_key r1.
Proof.
  intros Z. rewrite !toInternal_run. unfold Date_ofString. rewrite Z.
  destruct (RemoteEvent.dateTime _) as [[|c s]|].
  - intros [= <-] [= <-]. reflexivity.
  - destruct (Date_parse _ _) as [t|]; [|discriminate].
    intros [= <-] [= <-]. reflexivity.
  - intros [= <-] [= <-]. reflexivity.
Qed.

Lemma traverse_keys h1 h2 userId items : forall rows1 rows2,
  LocalTZA h2 = LocalTZA h1 ->
  traverse (toInternal h1 userId) items = Ok rows1 ->
  traverse (toInternal h2 userId) items = Ok rows2 ->
  map Store.conflict_key rows2 = map Store.conflict_key rows1.
Proof.
  induction items as [|e items IH]; intros rows1 rows2 Z; simpl.
  - intros [= <-] [= <-]. reflexivity.
  - destruct (toInternal h1 userId e) as [r1|] eqn:E1; [|discriminate].
    destruct (toInternal h2 userId e) as [r2|] eqn:E2; [|discriminate].
    destruct (traverse (toInternal h1 userId) items) as [l1|]; [|discriminate].
    destruct (traverse (toInternal h2 userId) items) as [l2|]; [|discriminate].
    intros [= <-] [= <-]. simpl. f_equal.
    + exact (toInternal_key h1 h2 userId e r1 r2 Z E1 E2).
    + now apply IH.
Qed.

(** What a pull does to the event table: on success the mapped rows are
    upserted, on failure the table is as it was. *)
Lemma sync_outcome host userId calendarId startDate endDate w :
  let run := syncEventsToDatabaseFromDatabase host userId calendarId
               startDate endDate w in
  match fst run with
  | Ok r =>
      syncedCount r = length (events r)
      /\ (exists params, events_list host params = Ok (events r))
      /\ exists rows,
          traverse (toInternal host userId) (events r) = Ok rows
          /\ calendar_events (snd run) = Store.upsert rows (calendar_events w)
  | Throw _ => calendar_events (snd run) = calendar_events w
  end.
Proof.
  cbv zeta. unfold syncEventsToDatabaseFromDatabase,
    getCalendarClientFromDatabase, calendar_events_list, upsert_events.
  unfold bind, setCredentials, call, lift, ret, throw.
  destruct (resolve_preserves host userId w) as [_ Hev]. cbv zeta in Hev.
  destruct (getUserTokensFromDatabase host userId w) as [[tok|e] w0];
    cbn [snd fst] in *; [|exact Hev].
  cbn [google_calendar_tokens calendar_events oauth2Client calls].
  destruct (window_bound host startDate _) as [timeMin|e]; [|exact Hev].
  destruct (window_bound host endDate _) as [timeMax|e]; [|exact Hev].
  destruct (events_list host _) as [items|e] eqn:L; [|exact Hev].
  destruct (traverse (toInternal host userId) items) as [rows|e] eqn:T;
    [|exact Hev].
  destruct (store_fault host (UpsertEvents rows)); cbn [fst snd calendar_events];
    try exact Hev.
  cbn [syncedCount events]. split; [reflexivity|]. split; [eauto|].
  exists rows. rewrite Hev. auto.
Qed.

End SyncFacts.

Section SyncClaims.
Import JsDate JsString JsDateString Store StoreFacts.

(** C1. When a pull has succeeded, a second pull that is given the same
    remote events, in the same time zone, leaves the event table with as
    many rows as the first one did; a table without duplicate keys stays
    without duplicates through both pulls.  The rows are written by the
    upsert on [(user_id, title, due_date)]: of two mapped events with the
    same three columns only one row remains, and it holds the values of the
    later one. *)
Theorem C1_pull_sync_idempotent (h1 h2 : Host) (userId calendarId : string)
    (startDate endDate : option string) (w : World) (r1 : SyncResult) :
  fst (syncEventsToDatabaseFromDatabase h1 userId calendarId startDate endDate w)
  = Ok r1 ->
  LocalTZA h2 = LocalTZA h1 ->
  (forall params items, events_list h2 params = Ok items -> items = events r1) ->
  let w1 := snd (syncEventsToDatabaseFromDatabase h1 userId calendarId
                   startDate endDate w) in
  let w2 := snd (syncEventsToDatabaseFromDatabase h2 userId calendarId
                   startDate endDate w1) in
  length (calendar_events w2) = length (calendar_events w1)
  /\ (List.NoDup (keys (calendar_events w)) ->
      List.NoDup (keys (calendar_events w1))
      /\ List.NoDup (keys (calendar_events w2)))
  /\ (forall e1 e2 a b tbl,
      toInternal h1 userId e1 = Ok a ->
      toInternal h1 userId e2 = Ok b ->
      Store.conflict_key a = Store.conflict_key b ->
      List.NoDup (keys tbl) ->
      filter (Store.same_key b) (Store.upsert [a; b] tbl) = [b]
      /\ length (Store.upsert [a; b] tbl) = length (Store.upsert [a] tbl)).
Proof.
  intros Hok Htz Hsame w1 w2.
  pose proof (sync_outcome h1 userId calendarId startDate endDate w) as O1.
  cbv zeta in O1. rewrite Hok in O1. fold w1 in O1.
  destruct O1 as (_ & _ & rows1 & T1 & E1).
  pose proof (sync_outcome h2 userId calendarId startDate endDate w1) as O2.
  cbv zeta in O2. fold w2 in O2.
  assert (calendar_events w2 = calendar_events w1
          \/ exists rows2, keys rows2 = keys rows1
                           /\ calendar_events w2
                              = Store.upsert rows2 (calendar_events w1)) as C.
  { destruct (fst (syncEventsToDatabaseFromDatabase h2 _ _ _ _ w1)) as [r2|e];
      [|left; exact O2].
    destruct O2 as (_ & (params & L) & rows2 & T2 & E2). right.
    exists rows2. split; [|exact E2].
    rewrite (Hsame params _ L) in T2.
    exact (traverse_keys h1 h2 userId (events r1) rows1 rows2 Htz T1 T2). }
  split; [|split].
  - destruct C as [->|(rows2 & K & ->)]; [reflexivity|].
    rewrite E1. now apply upsert_twice_length.
  - intros N.
    assert (List.NoDup (keys (calendar_events w1))) as N1
      by (rewrite E1; now apply upsert_NoDup).
    split; [exact N1|].
    destruct C as [->|(rows2 & K & ->)]; [exact N1|now apply upsert_NoDup].
  - intros e1 e2 a b tbl _ _ K N. split.
    + change (Store.upsert [a; b] tbl)
        with (Store.upsert_row b (Store.upsert_row a tbl)).
      apply upsert_row_filter, upsert_row_NoDup, N.
    + change (Store.upsert [a; b] tbl)
        with (Store.upsert_row b (Store.upsert [a] tbl)).
      apply upsert_row_length_present, upsert_keys. left. simpl. auto.
Qed.

(** C8. A remote event whose start can be read maps to a row whose title
    is never empty: an absent (or empty) summary gives "Untitled Event", an
    absent description gives the empty string.  So it is for every row of a
    batch handed to the upsert. *)
Theorem C8_untitled_defaults (host : Host) (userId : string)
    (event : RemoteEvent.t) :
  (forall s, RemoteEvent.dateTime (RemoteEvent.start event) = Some s ->
             s = EmptyString \/ exists t, Date_ofString host s = Some t) ->
  (exists row,
      toInternal host userId event = Ok row
      /\ EventRow.title row <> EmptyString
      /\ (RemoteEvent.summary event = None ->
          EventRow.title row = "Untitled Event")
      /\ (RemoteEvent.description event = None ->
          EventRow.description row = EmptyString))
  /\ forall items rows,
      traverse (toInternal host userId) items = Ok rows ->
      Forall2 (fun e r =>
                 EventRow.title r <> EmptyString
                 /\ (RemoteEvent.summary e = None ->
                     EventRow.title r = "Untitled Event")
                 /\ (RemoteEvent.description e = None ->
                     EventRow.description r = EmptyString))
              items rows.
Proof.
  assert (forall e r, toInternal host userId e = Ok r ->
            EventRow.title r <> EmptyString
            /\ (RemoteEvent.summary e = None -> EventRow.title r = "Untitled Event")
            /\ (RemoteEvent.description e = None -> EventRow.description r = EmptyString))
    as Row.
  { intros e r. rewrite toInternal_run.
    assert (forall dd dt, let r := mapped_row host userId e dd dt in
              EventRow.title r <> EmptyString
              /\ (RemoteEvent.summary e = None -> EventRow.title r = "Untitled Event")
              /\ (RemoteEvent.description e = None -> EventRow.description r = EmptyString))
      as M.
    { intros dd dt. cbn. split; [|split].
      - destruct (RemoteEvent.summary e) as [[|c s]|]; discriminate.
      - intros ->. reflexivity.
      - intros ->. reflexivity. }
    destruct (RemoteEvent.dateTime _) as [[|c s]|].
    - intros [= <-]. apply M.
    - destruct (Date_ofString host _); [|discriminate]. intros [= <-]. apply M.
    - intros [= <-]. apply M. }
  intros Hstart. split.
  - destruct (toInternal host userId event) as [row|e] eqn:E.
    + exists row. split; [reflexivity|]. now apply Row.
    + exfalso. rewrite toInternal_run in E.
      destruct (RemoteEvent.dateTime _) as [[|c s]|]; try discriminate.
      destruct (Hstart _ eq_refl) as [?|[t P]]; [discriminate|].
      rewrite P in E. discriminate.
  - induction items as [|e items IH]; intros rows; simpl.
    + intros [= <-]. constructor.
    + destruct (toInternal host userId e) as [r|] eqn:E; [|discriminate].
      destruct (traverse _ items) as [rs|]; [|discriminate].
      intros [= <-]. constructor; [now apply Row|now apply IH].
Qed.

End SyncClaims.

(** * The event mappers *)

Section MapperFacts.
Import JsDate JsString JsDateString JsDateFacts JsStringFacts JsDateStringFacts
  IsoFacts ParseFacts.

Variable host : Host.

Lemma toInternal_timed userId event s t :
  RemoteEvent.dateTime (RemoteEvent.start event) = Some s ->
  Date_ofString host s = Some t ->
  toInternal host userId event
  = Ok (mapped_row host userId event (Some (iso_date t))
          (Some (hm (HourFromTime t) (MinFromTime t)))).
Proof.
  intros E P. rewrite toInternal_run, E.
  destruct s as [|c s]; [discriminate|]. now rewrite P.
Qed.


(** The outcome of the mapper to the calendar service, from the two dates
    it computes. *)
Lemma format_run eventData :
  formatEventForGoogleCalendar host eventData =
  match event_times host eventData with
  | (Some a, Some b) =>
      Ok (GoogleEvent.mk
            (EventData.title eventData)
            (or_default (EventData.description eventData) EmptyString)
            (or_default (EventData.location eventData) EmptyString)
            (GoogleEvent.mkTime (iso_date a +:+ "T" +:+ iso_time a +:+ "Z")
                                (timeZone host))
            (GoogleEvent.mkTime (iso_date b +:+ "T" +:+ iso_time b +:+ "Z")
                                (timeZone host))
            false reminder_overrides)
  | _ => Throw (Err "Invalid time value")
  end.
Proof.
  unfold formatEventForGoogleCalendar.
  destruct (event_times host eventData) as [[a|] [b|]]; reflexivity.
Qed.

Lemma event_times_all_day eventData y m d :
  0 <= y <= 9999 -> 1 <= m <= 12 -> 1 <= d <= 31 ->
  EventData.due_date eventData = ymd y m d ->
  truthy (EventData.due_time eventData) = false ->
  event_times host eventData
  = (Some (MakeDate (MakeDay y (m - 1) d) 0),
     Some (MakeDate (MakeDay y (m - 1) d) 0 + 24 * 60 * 60 * 1000)).
Proof.
  intros Hy Hm Hd E T. unfold event_times. rewrite T, E.
  unfold Date_ofString. rewrite Date_parse_date_only by assumption.
  cbn [plus_ms mbind option_bind]. unfold mbind, option_bind. f_equal.
  apply TimeClip_in_range.
  pose proof (MakeDate_bound y (m - 1) d 0 Hy ltac:(lia) Hd
                ltac:(unfold msPerDay; lia)).
  unfold msPerDay in *. lia.
Qed.

Lemma event_times_timed eventData y m d h mi :
  0 <= y <= 9999 -> 1 <= m <= 12 -> 1 <= d <= 31 ->
  0 <= h < 24 -> 0 <= mi < 60 ->
  (forall t, Z.abs (LocalTZA host t false) <= msPerDay) ->
  EventData.due_date eventData = ymd y m d ->
  EventData.due_time eventData = Some (hm h mi) ->
  let start := UTC (LocalTZA host)
                   (MakeDate (MakeDay y (m - 1) d) (MakeTime h mi 0 0)) in
  event_times host eventData = (Some start, Some (start + 60 * 60 * 1000)).
Proof.
  intros Hy Hm Hd Hh Hmi Hz E T start. unfold event_times. rewrite T, E.
  assert (truthy (Some (hm h mi)) = true) as -> by reflexivity.
  cbn [interpolate]. unfold Date_ofString.
  rewrite Date_parse_local by assumption. fold start.
  assert (Z.abs start <= maxTime - msPerDay) as B.
  { subst start. unfold UTC.
    pose proof (MakeDate_bound y (m - 1) d (MakeTime h mi 0 0) Hy ltac:(lia) Hd
                  ltac:(unfold MakeTime, msPerDay, msPerHour, msPerMinute,
                          msPerSecond; lia)).
    pose proof (Hz (MakeDate (MakeDay y (m - 1) d) (MakeTime h mi 0 0))).
    unfold msPerDay in *. lia. }
  rewrite TimeClip_in_range by (unfold msPerDay in B; lia).
  unfold plus_ms, mbind, option_bind. f_equal.
  apply TimeClip_in_range. unfold msPerDay in B. lia.
Qed.

End MapperFacts.

Section MapperClaims.
Import JsDate JsString JsDateString JsDateFacts JsStringFacts JsDateStringFacts
  IsoFacts ParseFacts.

Variable host : Host.

(** C4, as the code has it.  For an event due on the date [y-m-d]: without
    [due_time], the draft starts at midnight UTC of that date, whatever the
    zone of the process (its start is the date followed by
    [T00:00:00.000Z]), and ends exactly 24 hours later; with the
    [due_time] [h:mi], it starts at that time of that date in the local
    zone and ends exactly one hour later.  Both instants are sent as ISO
    strings, which read back as these instants, with the zone identifier of
    the process; the reminders are an email 1440 minutes and a popup 30
    minutes before. *)
Theorem C4_event_window (eventData : EventData.t) (y m d : Z) :
  0 <= y <= 9999 -> 1 <= m <= 12 -> 1 <= d <= DaysInMonth y m ->
  EventData.due_date eventData = ymd y m d ->
  (forall t, Z.abs (LocalTZA host t false) <= msPerDay) ->
  let fixed g :=
    GoogleEvent.timeZone (GoogleEvent.start g) = timeZone host
    /\ GoogleEvent.timeZone (GoogleEvent.end_ g) = timeZone host
    /\ GoogleEvent.useDefault g = false
    /\ GoogleEvent.overrides g
       = [GoogleEvent.mkReminder "email" 1440; GoogleEvent.mkReminder "popup" 30] in
  let sent g start finish :=
    toISOString (Some start) = Some (GoogleEvent.dateTime (GoogleEvent.start g))
    /\ toISOString (Some finish) = Some (GoogleEvent.dateTime (GoogleEvent.end_ g))
    /\ Date_ofString host (GoogleEvent.dateTime (GoogleEvent.start g)) = Some start
    /\ Date_ofString host (GoogleEvent.dateTime (GoogleEvent.end_ g)) = Some finish in
  (truthy (EventData.due_time eventData) = false ->
   let midnight_utc := MakeDate (MakeDay y (m - 1) d) 0 in
   exists g, formatEventForGoogleCalendar host eventData = Ok g
             /\ sent g midnight_utc (midnight_utc + 24 * 60 * 60 * 1000)
             /\ GoogleEvent.dateTime (GoogleEvent.start g)
                = ymd y m d +:+ "T00:00:00.000Z"
             /\ fixed g)
  /\ (forall h mi, 0 <= h < 24 -> 0 <= mi < 60 ->
      EventData.due_time eventData = Some (hm h mi) ->
      let local := MakeDate (MakeDay y (m - 1) d) (MakeTime h mi 0 0) in
      exists g, formatEventForGoogleCalendar host eventData = Ok g
                /\ sent g (UTC (LocalTZA host) local)
                          (UTC (LocalTZA host) local + 60 * 60 * 1000)
                /\ fixed g).
Proof.
  intros Hy Hm Hd' E Hz fixed sent.
  assert (1 <= d <= 31) as Hd
    by (pose proof (DaysInMonth_le_31 y m Hm); lia).
  assert (forall a b,
            Z.abs a <= maxTime -> Z.abs b <= maxTime ->
            event_times host eventData = (Some a, Some b) ->
            exists g, formatEventForGoogleCalendar host eventData = Ok g
                      /\ sent g a b /\ fixed g) as Draft.
  { intros a b Ha Hb T. rewrite format_run, T. eexists. split; [reflexivity|].
    destruct (Date_parse_toISOString (LocalTZA host) a Ha) as (sa & Sa & Pa).
    destruct (Date_parse_toISOString (LocalTZA host) b Hb) as (sb & Sb & Pb).
    rewrite toISOString_Some in Sa, Sb. injection Sa as <-. injection Sb as <-.
    split; [|repeat split].
    unfold sent, Date_ofString. cbn [GoogleEvent.start GoogleEvent.end_
                                      GoogleEvent.dateTime].
    repeat split; assumption. }
  split.
  - intros T midnight_utc.
    pose proof (MakeDate_bound y (m - 1) d 0 Hy ltac:(lia) Hd
                  ltac:(unfold msPerDay; lia)) as B.
    fold midnight_utc in B. unfold msPerDay in B.
    destruct (Draft midnight_utc (midnight_utc + 24 * 60 * 60 * 1000)
                ltac:(lia) ltac:(lia)
                (event_times_all_day host eventData y m d Hy Hm Hd E T))
      as (g & Hg & S & F).
    exists g. split; [exact Hg|]. split; [exact S|]. split; [|exact F].
    destruct S as (S1 & _). unfold midnight_utc in S1.
    rewrite toISOString_midnight in S1 by assumption. congruence.
  - intros h mi Hh Hmi T local.
    assert (Z.abs (UTC (LocalTZA host) local) <= maxTime - msPerDay) as B.
    { unfold UTC.
      pose proof (MakeDate_bound y (m - 1) d (MakeTime h mi 0 0) Hy ltac:(lia) Hd
                    ltac:(unfold MakeTime, msPerDay, msPerHour, msPerMinute,
                            msPerSecond; lia)).
      pose proof (Hz local). fold local in H. unfold msPerDay in *. lia. }
    apply Draft; try (unfold msPerDay in B; lia).
    now apply event_times_timed.
Qed.


End MapperClaims.

(** * Connection status *)

Section StatusFacts.

Variable host : Host.

(** The status probe always resolves: a throw inside it becomes an
    object with [connected: false]. *)
Lemma status_never_throws userId w :
  exists st, fst (getUserConnectionStatusFromDatabase host userId w) = Ok st.
Proof.
  unfold getUserConnectionStatusFromDatabase.
  match goal with
  | |- context [match ?b w with _ => _ end] => destruct (b w) as [[st|[msg]] w']
  end; eexists; reflexivity.
Qed.

(** Without a row, or when the store fails, the user is not connected. *)
Lemma status_not_connected userId w st :
  fst (getUserConnectionStatusFromDatabase host userId w) = Ok st ->
  userId = EmptyString
  \/ store_fault host (SelectToken userId) <> NoFault
  \/ (forall r, Store.single userId (google_calendar_tokens w) <> Data r) ->
  Status.connected st = false.
Proof.
  intros R C. revert R. unfold getUserConnectionStatusFromDatabase.
  destruct userId as [|c u]; [intros [= <-]; reflexivity|].
  cbn [JsString.truthy negb]. unfold bind, ret. rewrite select_token_run.
  destruct C as [?|[F|N]]; [discriminate| |].
  - destruct (store_fault host _); [congruence| |]; intros [= <-]; reflexivity.
  - destruct (store_fault host _); try (intros [= <-]; reflexivity).
    destruct (Store.single _ _) as [r|msg] eqn:S; [|intros [= <-]; reflexivity].
    exfalso. exact (N r eq_refl).
Qed.

(** With a row, [connected] and the truth value of [needsRefresh] are the
    two boolean combinations of "expired" and "has a refresh token"; and
    [needsRefresh] is a boolean as soon as the row has an expiry. *)
Lemma status_tri_state userId w r :
  userId <> EmptyString ->
  store_fault host (SelectToken userId) = NoFault ->
  Store.single userId (google_calendar_tokens w) = Data r ->
  let expired := Js.ToBoolean (isExpired host r) in
  let hasRefresh := JsString.truthy (TokenRow.refresh_token r) in
  exists st,
    fst (getUserConnectionStatusFromDatabase host userId w) = Ok st
    /\ Status.connected st = negb expired || hasRefresh
    /\ Js.ToBoolean (Status.needsRefresh st) = expired && hasRefresh
    /\ (JsString.truthy (TokenRow.expiry_date r) = true ->
        Status.needsRefresh st = Js.boolean (expired && hasRefresh)).
Proof.
  intros Hu Hf Hs expired hasRefresh.
  rewrite (status_run host userId w Hu Hf), Hs. eexists. split; [reflexivity|].
  cbn [Status.connected Status.needsRefresh]. subst expired hasRefresh.
  unfold isExpired.
  generalize (JsDateString.Date_gt (Date_now host)
                (Date_ofColumn host (TokenRow.expiry_date r))).
  intros gt.
  destruct (TokenRow.expiry_date r) as [[|c s]|],
    (TokenRow.refresh_token r) as [[|c' s']|], gt; cbn;
    (split; [|split]); try reflexivity; intros T; discriminate T.
Qed.

End StatusFacts.

Section StatusClaims.
Import JsDate JsString JsDateString.

Variable host : Host.

(** C9. For a user with a stored row, [lastSync] in the status object is
    the stored [expiry_date] column as it is: [null] exactly when the row
    has no expiry, and the same whatever the event table holds and whatever
    calls, synchronisations included, were made before. *)
Theorem C9_lastSync_is_expiry (userId : string) (w : World) (r : TokenRow.t) :
  userId <> EmptyString ->
  store_fault host (SelectToken userId) = NoFault ->
  filter (fun r => String.eqb (TokenRow.user_id r) userId)
         (google_calendar_tokens w) = [r] ->
  exists st,
    getUserConnectionStatusFromDatabase host userId w
    = (Ok st, logged w [SelectToken userId])
    /\ Status.lastSync st = Js.of_column (TokenRow.expiry_date r)
    /\ (Status.lastSync st = Js.null <-> TokenRow.expiry_date r = None)
    /\ forall events client history,
         fst (getUserConnectionStatusFromDatabase host userId
                (mkWorld (google_calendar_tokens w) events client history))
         = Ok st.
Proof.
  intros Hu Hf Hr. eexists. split; [|split; [|split]].
  - rewrite (status_run host userId w Hu Hf). unfold Store.single.
    rewrite Hr. reflexivity.
  - reflexivity.
  - cbn [Status.lastSync].
    destruct (TokenRow.expiry_date r); simpl; split; congruence.
  - intros events client history.
    rewrite (status_run host userId _ Hu Hf). unfold Store.single.
    cbn [google_calendar_tokens fst]. rewrite Hr. reflexivity.
Qed.

End StatusClaims.

(** * Instances *)

Section Instances.
Import JsDate JsString JsDateString Examples.

(** C6, at a row without expiry: the status object carries
    [needsRefresh: null], not [false], whether or not a refresh token is
    stored. *)
Theorem C6_needsRefresh_null_without_expiry :
  getUserConnectionStatusFromDatabase host_new_york "user-1"
    (world None (Some "1//refresh"))
  = (Ok (Status.mk true Js.null Js.null None),
     logged (world None (Some "1//refresh")) [SelectToken "user-1"])
  /\ getUserConnectionStatusFromDatabase host_new_york "user-1"
       (world None None)
     = (Ok (Status.mk true Js.null Js.null None),
        logged (world None None) [SelectToken "user-1"]).
Proof. split; reflexivity. Qed.

(** C2 as stated fails: with an expiry equal to the clock the stored
    fields come back and the authorization server is not called. *)
Lemma C2_expiry_equal_to_now_is_valid :
  let w := world (Some "2024-01-15T10:00:00.000Z") (Some "1//refresh") in
  Date_ofString host_new_york "2024-01-15T10:00:00.000Z"
  = Some (now host_new_york)
  /\ getUserTokensFromDatabase host_new_york "user-1" w
     = (Ok (StoredTokens (Some "ya29.stored") (Some "1//refresh")
                         (Some "2024-01-15T10:00:00.000Z") "user-1"),
        logged w [SelectToken "user-1"])
  /\ forall client,
       ~ In (RefreshAccessToken client)
            (calls (snd (getUserTokensFromDatabase host_new_york "user-1" w))).
Proof.
  cbv zeta. split; [reflexivity|]. split; [reflexivity|].
  intros client [H|[]]. discriminate H.
Qed.

(** An expiry stored with microseconds, one microsecond before the clock,
    reads as the millisecond before it: the credential is expired and a
    refresh is asked for. *)
Lemma expiry_one_microsecond_before_now :
  let w := world (Some "2024-01-15T09:59:59.999999+00:00") (Some "1//refresh") in
  Date_ofString host_new_york "2024-01-15T09:59:59.999999+00:00"
  = Some (now host_new_york - 1)
  /\ calls (snd (getUserTokensFromDatabase host_new_york "user-1" w))
     = [ SelectToken "user-1";
         RefreshAccessToken (Some (RefreshTokenOnly "1//refresh"));
         UpdateToken "user-1" "ya29.fresh" None ].
Proof. cbv zeta. split; vm_compute; reflexivity. Qed.

(** C4 as stated fails: in New York the draft of an all-day event starts
    at midnight UTC, five hours before local midnight of the due date,
    which is where the same date with the time 00:00 is read. *)
Lemma C4_all_day_starts_at_utc_midnight :
  let eventData := EventData.mk "Torts outline" None None "2024-01-15" None in
  let local_midnight :=
    UTC (LocalTZA host_new_york) (MakeDate (MakeDay 2024 0 15) 0) in
  exists g,
    formatEventForGoogleCalendar host_new_york eventData = Ok g
    /\ GoogleEvent.dateTime (GoogleEvent.start g) = "2024-01-15T00:00:00.000Z"
    /\ toISOString (Some local_midnight) = Some "2024-01-15T05:00:00.000Z"
    /\ Date_ofString host_new_york "2024-01-15T00:00" = Some local_midnight
    /\ Date_ofString host_new_york (GoogleEvent.dateTime (GoogleEvent.start g))
       <> Some local_midnight.
Proof.
  cbv zeta. eexists. split; [reflexivity|]. split; [reflexivity|].
  split; [reflexivity|]. split; [reflexivity|].
  intros H. vm_compute in H. discriminate H.
Qed.


End Instances.

(** ** The theorems at work *)

Section Witnesses.
Import JsDate JsString JsDateString Examples.

Lemma C1_witness :
  let w := world (Some "2024-02-01T00:00:00.000Z") (Some "1//refresh") in
  let sync := syncEventsToDatabaseFromDatabase host_new_york "user-1" "primary"
                None None in
  length (calendar_events (snd (sync w))) = 2%nat
  /\ length (calendar_events (snd (sync (snd (sync w)))))
     = length (calendar_events (snd (sync w))).
Proof.
  cbv zeta. split; [vm_compute; reflexivity|].
  refine (proj1 (C1_pull_sync_idempotent host_new_york host_new_york "user-1"
                   "primary" None None
                   (world (Some "2024-02-01T00:00:00.000Z") (Some "1//refresh"))
                   (mkSyncResult 2
                      [ RemoteEvent.mk "evt1" (Some "Evidence seminar") None
                          (RemoteEvent.mkTime (Some "2024-01-15T20:00:00-05:00")
                                              None);
                        RemoteEvent.mk "evt2" None None
                          (RemoteEvent.mkTime None (Some "2024-01-17")) ])
                   _ _ _)).
  - reflexivity.
  - reflexivity.
  - intros params items H. injection H as <-. reflexivity.
Defined.

Lemma C2_witness :
  let w := world (Some "2024-01-15T09:59:59.999Z") (Some "1//refresh") in
  Date_ofString host_new_york "2024-01-15T09:59:59.999Z"
  = Some (now host_new_york - 1)
  /\ exists rest,
      calls (snd (getUserTokensFromDatabase host_new_york "user-1" w))
      = calls w ++ SelectToken "user-1"
                :: RefreshAccessToken (Some (RefreshTokenOnly "1//refresh"))
                :: rest.
Proof.
  cbv zeta. split; [reflexivity|].
  refine (proj2 (C2_expiry_boundary host_new_york "user-1"
                   (world (Some "2024-01-15T09:59:59.999Z") (Some "1//refresh"))
                   (row (Some "2024-01-15T09:59:59.999Z") (Some "1//refresh"))
                   "2024-01-15T09:59:59.999Z" (now host_new_york - 1)
                   _ _ _ _ _) _ "1//refresh" _ _).
  - discriminate.
  - reflexivity.
  - reflexivity.
  - reflexivity.
  - reflexivity.
  - reflexivity.
  - reflexivity.
  - discriminate.
Defined.

Lemma C3_witness :
  let w := world (Some "2024-01-15T09:00:00.000Z") None in
  getUserTokensFromDatabase host_new_york "user-1" w
  = (Throw (Err "Token expired and no refresh token available"),
     logged w [SelectToken "user-1"])
  /\ getUserTokensFromDatabase host_new_york "user-2" w
     = (Throw (Err "No Google tokens found in database"),
        logged w [SelectToken "user-2"]).
Proof.
  cbv zeta. split.
  - refine (proj1 (proj2 (C3_resolve_outcomes host_new_york "user-1"
                            (world (Some "2024-01-15T09:00:00.000Z") None) _ _)
                     (row (Some "2024-01-15T09:00:00.000Z") None) _) _ _).
    + discriminate.
    + reflexivity.
    + reflexivity.
    + exists "2024-01-15T09:00:00.000Z", 1705309200000.
      split; [reflexivity|]. split; [reflexivity|]. reflexivity.
    + reflexivity.
  - refine (proj1 (C3_resolve_outcomes host_new_york "user-2"
                     (world (Some "2024-01-15T09:00:00.000Z") None) _ _) _).
    + discriminate.
    + reflexivity.
    + reflexivity.
Defined.

Lemma C4_witness :
  let eventData :=
    EventData.mk "Moot court" None (Some "Room 101") "2024-01-15" (Some "14:00") in
  exists g,
    formatEventForGoogleCalendar host_new_york eventData = Ok g
    /\ GoogleEvent.dateTime (GoogleEvent.start g) = "2024-01-15T19:00:00.000Z"
    /\ Date_ofString host_new_york (GoogleEvent.dateTime (GoogleEvent.end_ g))
       = Some (UTC (LocalTZA host_new_york)
                   (MakeDate (MakeDay 2024 0 15) (MakeTime 14 0 0 0))
               + 60 * 60 * 1000).
Proof.
  cbv zeta.
  destruct (proj2 (C4_event_window host_new_york
                     (EventData.mk "Moot court" None (Some "Room 101")
                                   "2024-01-15" (Some "14:00"))
                     2024 1 15 ltac:(lia) ltac:(lia)
                     ltac:(vm_compute; split; discriminate) eq_refl
                     ltac:(intros t; unfold msPerDay; simpl; lia))
              14 0 ltac:(lia) ltac:(lia) eq_refl)
    as (g & Hg & (S1 & S2 & S3 & S4) & _).
  exists g. split; [exact Hg|]. split; [|exact S4].
  assert (toISOString
            (Some (UTC (LocalTZA host_new_york)
                       (MakeDate (MakeDay 2024 (1 - 1) 15) (MakeTime 14 0 0 0))))
          = Some "2024-01-15T19:00:00.000Z") as E by (vm_compute; reflexivity).
  rewrite E in S1. congruence.
Defined.


Lemma C7_witness :
  let w := world (Some "2024-01-15T09:00:00.000Z") (Some "1//refresh") in
  let run := refreshUserTokensFromDatabase host_new_york "user-1" "1//refresh" w in
  let resolved := getUserTokensFromDatabase host_new_york "user-1" w in
  let fresh := Credentials.mk "ya29.fresh" (Some "1//refresh") None in
  let updated :=
    [TokenRow.mk "user-1" (Some "user-user-1@law-bandit.com") (Some "ya29.fresh")
                 (Some "1//refresh") None] in
  google_calendar_tokens w
  = [TokenRow.mk "user-1" (Some "user-user-1@law-bandit.com") (Some "ya29.stored")
                 (Some "1//refresh") (Some "2024-01-15T09:00:00.000Z")]
  /\ (fst run = Ok fresh /\ google_calendar_tokens (snd run) = updated)
  /\ (fst resolved = Ok (RefreshedCredentials fresh)
      /\ google_calendar_tokens (snd resolved) = updated)
  /\ refresh_frame (google_calendar_tokens w) (google_calendar_tokens (snd run)).
Proof.
  cbv zeta. split; [reflexivity|].
  destruct (C7_refresh_frame host_new_york "user-1" "1//refresh"
              (world (Some "2024-01-15T09:00:00.000Z") (Some "1//refresh")))
    as ((F & _) & _ & _ & _ & _ & _ & _ & P).
  destruct (P (Credentials.mk "ya29.fresh" (Some "1//refresh") None) None
              eq_refl eq_refl eq_refl) as (R & _ & T).
  split; [exact R|]. split; [|exact F].
  exact (proj1 (T (row (Some "2024-01-15T09:00:00.000Z") (Some "1//refresh"))
                  ltac:(discriminate) eq_refl eq_refl eq_refl
                  ltac:(discriminate))
               eq_refl).
Defined.

Lemma C8_witness :
  let event := RemoteEvent.mk "evt2" None None
                 (RemoteEvent.mkTime None (Some "2024-01-17")) in
  exists row,
    toInternal host_new_york "user-1" event = Ok row
    /\ EventRow.title row = "Untitled Event"
    /\ EventRow.description row = EmptyString.
Proof.
  cbv zeta.
  destruct (proj1 (C8_untitled_defaults host_new_york "user-1"
                     (RemoteEvent.mk "evt2" None None
                        (RemoteEvent.mkTime None (Some "2024-01-17")))
                     ltac:(intros s H; discriminate H)))
    as (row & Hr & _ & Ht & Hd).
  exists row. split; [exact Hr|]. split; [exact (Ht eq_refl)|exact (Hd eq_refl)].
Defined.

Lemma C9_witness :
  let w := world (Some "2024-01-15T11:00:00.000Z") None in
  exists st,
    getUserConnectionStatusFromDatabase host_new_york "user-1" w
    = (Ok st, logged w [SelectToken "user-1"])
    /\ Status.lastSync st = Js.str "2024-01-15T11:00:00.000Z".
Proof.
  cbv zeta.
  destruct (C9_lastSync_is_expiry host_new_york "user-1"
              (world (Some "2024-01-15T11:00:00.000Z") None)
              (row (Some "2024-01-15T11:00:00.000Z") None)
              ltac:(discriminate) eq_refl eq_refl)
    as (st & Hs & Hl & _).
  exists st. split; [exact Hs|exact Hl].
Defined.

Lemma C10_witness :
  let w := world (Some "2024-01-15T09:00:00.000Z") (Some "1//refresh") in
  let w1 := snd (refreshUserTokensFromDatabase host_new_york "user-1"
                   "1//refresh" w) in
  let later := [host_new_york; host_new_york; host_new_york] in
  let wn := fold_left
              (fun w h => snd (getUserTokensFromDatabase h "user-1" w))
              later w1 in
  calls wn = calls w1 ++ repeat (SelectToken "user-1") 3.
Proof.
  cbv zeta.
  exact (proj1 (proj2 (proj2 (C10_null_expiry_never_refreshes host_new_york
                                "user-1" "1//refresh"
                                (world (Some "2024-01-15T09:00:00.000Z")
                                       (Some "1//refresh"))
                                (Credentials.mk "ya29.fresh" (Some "1//refresh")
                                                None)
                                ltac:(discriminate) eq_refl eq_refl)
                         [host_new_york; host_new_york; host_new_york]))).
Defined.

End Witnesses.

(** * Further properties of the credential manager *)

(** ** A refreshed credential, read back *)

Section AfterRefresh.
Import JsDate JsString JsDateString JsDateFacts JsStringFacts JsDateStringFacts
  IsoFacts ParseFacts.

(** What the expiry column holds for a number of milliseconds. *)
Lemma expiry_column_number n e :
  expiry_column (Some n) = Ok e -> n <> 0 ->
  Z.abs n <= maxTime
  /\ e = Some (iso_date n +:+ "T" +:+ iso_time n +:+ "Z").
Proof.
  intros E N.
  unfold expiry_column, toISOString_or_throw, Date_ofNumber, TimeClip in E.
  destruct n as [|p|p]; [congruence| |];
    (destruct (Z.abs _ <=? maxTime) eqn:B; [|discriminate];
     apply Z.leb_le in B; split; [exact B|];
     rewrite toISOString_Some in E; congruence).
Qed.

(** A stored ISO string of the instant [n] is expired exactly when the
    clock has passed [n]. *)
Lemma isExpired_iso host r n :
  Z.abs n <= maxTime ->
  TokenRow.expiry_date r = Some (iso_date n +:+ "T" +:+ iso_time n +:+ "Z") ->
  Js.ToBoolean (isExpired host r) = (n <? now host).
Proof.
  intros B E.
  destruct (Date_parse_toISOString (LocalTZA host) n B) as (s & S & P).
  rewrite toISOString_Some in S.
  remember (iso_date n +:+ "T" +:+ iso_time n +:+ "Z") as iso eqn:I.
  assert (s = iso) as -> by congruence.
  unfold isExpired, Date_ofColumn, Date_ofString, Date_now. rewrite E, P.
  destruct iso; [|reflexivity].
  exfalso. revert I. unfold iso_date, ymd, year_string.
  destruct (_ && _); cbn; discriminate.
Qed.

(** X1. The expiry written by a refresh reads back as the instant the
    authorization server gave.  After a successful
    [refreshUserTokensFromDatabase] whose credentials carry the expiry [n]
    (a non-zero number of milliseconds), every row of the user holds the
    ISO string of [n], and a later clock finds it expired exactly when it
    is past [n].  So a later [getUserTokensFromDatabase] with the clock at
    or before [n] returns the stored tokens, with the new access token,
    after a single select; with the clock past [n] and a refresh token
    stored it goes to the authorization server again. *)
Theorem refreshed_token_valid_until_expiry (h1 h2 : Host)
    (userId refreshToken : string) (w : World) (c : Credentials.t) (n : Z) :
  userId <> EmptyString ->
  fst (refreshUserTokensFromDatabase h1 userId refreshToken w) = Ok c ->
  Credentials.expiry_date c = Some n -> n <> 0 ->
  let w1 := snd (refreshUserTokensFromDatabase h1 userId refreshToken w) in
  let iso := iso_date n +:+ "T" +:+ iso_time n +:+ "Z" in
  Forall (fun r => TokenRow.user_id r = userId ->
                   TokenRow.expiry_date r = Some iso
                   /\ Js.ToBoolean (isExpired h2 r) = (n <? now h2))
         (google_calendar_tokens w1)
  /\ (forall r,
      store_fault h2 (SelectToken userId) = NoFault ->
      Store.single userId (google_calendar_tokens w1) = Data r ->
      (now h2 <= n ->
       getUserTokensFromDatabase h2 userId w1
       = (Ok (StoredTokens (Some (Credentials.access_token c))
                           (TokenRow.refresh_token r) (Some iso) userId),
          logged w1 [SelectToken userId]))
      /\ (n < now h2 ->
          forall rt, TokenRow.refresh_token r = Some rt -> rt <> EmptyString ->
          exists rest,
            calls (snd (getUserTokensFromDatabase h2 userId w1))
            = calls w1 ++ SelectToken userId
                       :: RefreshAccessToken (Some (RefreshTokenOnly rt)) :: rest)).
Proof.
  intros Hu Hok He Hn w1 iso.
  assert (Forall (fun r => TokenRow.user_id r = userId ->
                   TokenRow.expiry_date r = Some iso
                   /\ TokenRow.access_token r = Some (Credentials.access_token c)
                   /\ Js.ToBoolean (isExpired h2 r) = (n <? now h2))
                 (google_calendar_tokens w1)) as Rows.
  { subst w1. revert Hok. rewrite refresh_run. cbv zeta.
    destruct (refreshAccessToken h1 _) as [c'|e]; [|discriminate].
    destruct (expiry_column _) as [expiry|e] eqn:X; [|discriminate].
    destruct (store_fault h1 _); try discriminate.
    cbn [fst snd google_calendar_tokens]. intros [= ->].
    rewrite He in X. destruct (expiry_column_number n expiry X Hn) as [B ->].
    eapply List.Forall_impl; [|apply Store_update_written].
    intros r Hr U. destruct (Hr U) as [A E]. split; [exact E|]. split; [exact A|].
    now apply isExpired_iso. }
  split.
  - eapply List.Forall_impl; [|exact Rows].
    intros r Hr U. destruct (Hr U) as (? & ? & ?). auto.
  - intros r Hf Hs. destruct (single_Data _ _ _ Hs) as [Hin Hr].
    rewrite List.Forall_forall in Rows. destruct (Rows r Hin Hr) as (E & A & X).
    rewrite (getUserTokens_run h2 userId w1 Hu), Hf, Hs. cbv zeta.
    unfold resolve_row. rewrite X. split.
    + intros L. apply Z.ltb_ge in L. rewrite L, A, E, Hr. reflexivity.
    + intros L rt Ht Hne. apply Z.ltb_lt in L. rewrite L, Ht.
      destruct rt as [|a rt]; [congruence|].
      rewrite refresh_run. cbv zeta.
      destruct (refreshAccessToken h2 _) as [c'|e];
        [|cbn; eexists; rewrite <- app_assoc; reflexivity].
      destruct (expiry_column _) as [expiry|e];
        [|cbn; eexists; rewrite <- app_assoc; reflexivity].
      destruct (store_fault h2 (UpdateToken _ _ _));
        cbn; eexists; rewrite <- app_assoc; reflexivity.
Qed.

End AfterRefresh.

(** ** Failure of a refresh, and what a resolution leaves behind *)

Section ResolutionFacts.
Import JsDate JsString JsDateString.

Variable host : Host.

(** The calls of the refresh step begin with the one to the authorization
    server. *)
Lemma refresh_calls userId rt w :
  exists rest,
    calls (snd (refreshUserTokensFromDatabase host userId rt w))
    = calls w ++ RefreshAccessToken (Some (RefreshTokenOnly rt)) :: rest.
Proof.
  rewrite refresh_run. cbv zeta.
  destruct (refreshAccessToken host _) as [c|e]; [|eexists; reflexivity].
  destruct (expiry_column _) as [expiry|e]; [|eexists; reflexivity].
  destruct (store_fault host _); eexists; reflexivity.
Qed.

(** The three ways a resolution can go once the store has answered with a
    row. *)
Lemma resolve_row_cases userId w' r :
  let expired := Js.ToBoolean (isExpired host r) in
  let hasRefresh := truthy (TokenRow.refresh_token r) in
  (expired = false /\
   resolve_row host userId w' r
   = (Ok (StoredTokens (TokenRow.access_token r) (TokenRow.refresh_token r)
                       (TokenRow.expiry_date r) (TokenRow.user_id r)), w'))
  \/ (expired = true /\ hasRefresh = false /\
      resolve_row host userId w' r
      = (Throw (Err "Token expired and no refresh token available"), w'))
  \/ (expired = true /\ hasRefresh = true /\
      exists rt, TokenRow.refresh_token r = Some rt /\ rt <> EmptyString /\
        resolve_row host userId w' r
        = match refreshUserTokensFromDatabase host userId rt w' with
          | (Ok c, w'') => (Ok (RefreshedCredentials c), w'')
          | (Throw e, w'') => (Throw e, w'')
          end).
Proof.
  cbv zeta. unfold resolve_row.
  destruct (Js.ToBoolean (isExpired host r)); [|left; auto].
  right. destruct (TokenRow.refresh_token r) as [[|c s]|]; cbn [truthy].
  - left. auto.
  - right. split; [reflexivity|]. split; [reflexivity|].
    exists (String c s). repeat split. discriminate.
  - left. auto.
Qed.

(** X2. A refresh that fails writes nothing to the store.  When
    [refreshUserTokensFromDatabase] throws, both tables are as they were.
    The failure is one of three: the authorization server refused (no
    store call was made, and the client is left holding only the refresh
    token); it answered with an expiry beyond the range of a date, so that
    [toISOString] throws "Invalid time value" (again no store call); or
    the store did not take the update, by rejecting the call or by
    answering with an error, which is rethrown as "Failed to update tokens
    in database: " followed by the store's message.  In the last two cases
    the client already holds the credentials the server answered with,
    although no row does. *)
Theorem failed_refresh_writes_nothing (userId refreshToken : string)
    (w : World) (e : Error) :
  let run := refreshUserTokensFromDatabase host userId refreshToken w in
  let client := Some (RefreshTokenOnly refreshToken) in
  fst run = Throw e ->
  google_calendar_tokens (snd run) = google_calendar_tokens w
  /\ calendar_events (snd run) = calendar_events w
  /\ (refreshAccessToken host client = Throw e
      /\ oauth2Client (snd run) = client
      /\ calls (snd run) = calls w ++ [RefreshAccessToken client]
      \/ exists c,
          refreshAccessToken host client = Ok c
          /\ oauth2Client (snd run) = Some (RefreshedCredentials c)
          /\ ((exists n, Credentials.expiry_date c = Some n
                         /\ maxTime < Z.abs n
                         /\ e = Err "Invalid time value"
                         /\ calls (snd run) = calls w ++ [RefreshAccessToken client])
              \/ exists expiry msg,
                  let u := UpdateToken userId (Credentials.access_token c) expiry in
                  expiry_column (Credentials.expiry_date c) = Ok expiry
                  /\ calls (snd run) = calls w ++ [RefreshAccessToken client; u]
                  /\ (store_fault host u = Rejects msg /\ e = Err msg
                      \/ store_fault host u = ErrorReply msg
                         /\ e = Err ("Failed to update tokens in database: "
                                     +:+ msg)))).
Proof.
  cbv zeta. rewrite refresh_run. cbv zeta.
  destruct (refreshAccessToken host _) as [c|e'] eqn:A.
  - destruct (expiry_column _) as [expiry|e'] eqn:X.
    + destruct (store_fault host _) as [|msg|msg] eqn:F; cbn; [discriminate| |];
        intros [= <-]; repeat (split; [reflexivity|]);
        right; exists c; (split; [reflexivity|]); (split; [reflexivity|]);
        right; exists expiry, msg; repeat split; auto.
    + cbn. intros [= <-]. repeat (split; [reflexivity|]).
      right. exists c. split; [reflexivity|]. split; [reflexivity|]. left.
      unfold expiry_column, toISOString_or_throw, Date_ofNumber, TimeClip in X.
      destruct (Credentials.expiry_date c) as [n|]; [|discriminate].
      exists n. split; [reflexivity|].
      destruct n as [|p|p]; [discriminate| |];
        (destruct (Z.abs _ <=? maxTime) eqn:B;
         [rewrite IsoFacts.toISOString_Some in X; discriminate|];
         apply Z.leb_gt in B; cbn [mbind option_bind toISOString] in X;
         repeat split; [exact B|congruence]).
  - cbn. intros [= <-]. repeat (split; [reflexivity|]). left. auto.
Qed.

(** X3. The status probe predicts the resolution.  For the same clock and
    the same store, [getUserConnectionStatusFromDatabase] reports
    [connected: false] exactly when [getUserTokensFromDatabase] throws
    after its select alone; it reports a truthy [needsRefresh] exactly when
    the resolution goes on to the authorization server; and it reports
    connected with nothing to refresh exactly when the resolution returns
    the stored tokens after its select alone. *)
Theorem status_predicts_resolution (userId : string) (w : World) :
  userId <> EmptyString ->
  store_fault host (SelectToken userId) = NoFault ->
  let resolved := getUserTokensFromDatabase host userId w in
  let w' := logged w [SelectToken userId] in
  exists st,
    fst (getUserConnectionStatusFromDatabase host userId w) = Ok st
    /\ (Status.connected st = false <->
        exists msg, resolved = (Throw (Err msg), w'))
    /\ (Js.ToBoolean (Status.needsRefresh st) = true <->
        exists rt rest,
          calls (snd resolved)
          = calls w ++ SelectToken userId
                    :: RefreshAccessToken (Some (RefreshTokenOnly rt)) :: rest)
    /\ (Status.connected st = true
        /\ Js.ToBoolean (Status.needsRefresh st) = false <->
        exists a r e u, resolved = (Ok (StoredTokens a r e u), w')).
Proof.
  intros Hu Hf resolved w'.
  assert (forall rt rest,
            calls w' <> calls w ++ SelectToken userId
                               :: RefreshAccessToken (Some (RefreshTokenOnly rt))
                               :: rest) as Short.
  { intros rt rest E. cbn in E. apply app_inv_head in E. discriminate. }
  subst resolved. rewrite (getUserTokens_run host userId w Hu), Hf. cbv zeta.
  fold w'.
  destruct (Store.single userId (google_calendar_tokens w)) as [r|msg] eqn:S.
  - destruct (status_tri_state host userId w r Hu Hf S)
      as (st & Hst & Hc & Hn & _). cbv zeta in Hc, Hn.
    exists st. split; [exact Hst|]. rewrite Hc, Hn.
    destruct (resolve_row_cases userId w' r)
      as [(E & ->)|[(E & R & ->)|(E & R & rt & Ht & Hne & ->)]];
      cbv zeta in E; try (cbv zeta in R; rewrite R); rewrite E; cbn [negb orb andb].
    + split; [|split].
      * split; [discriminate|]. intros (m & ?). discriminate.
      * split; [discriminate|]. intros (rt & rest & C). now apply Short in C.
      * split; eauto.
    + split; [|split].
      * split; eauto.
      * split; [discriminate|]. intros (rt & rest & C). now apply Short in C.
      * split; [intros []; discriminate|].
        intros (a & r' & e & u & ?). discriminate.
    + destruct (refresh_calls userId rt w') as (rest & C).
      assert (calls w' = calls w ++ [SelectToken userId]) as Cw by reflexivity.
      rewrite Cw, <- app_assoc in C. cbn [app] in C.
      destruct (refreshUserTokensFromDatabase host userId rt w') as [[c|e] w''];
        cbn [snd] in *.
      * split; [|split].
        -- split; [discriminate|]. intros (m & ?). discriminate.
        -- split; eauto.
        -- split; [intros []; discriminate|].
           intros (a & r' & e & u & ?). discriminate.
      * split; [|split].
        -- split; [discriminate|]. intros (m & [= _ <-]).
           now apply Short in C.
        -- split; eauto.
        -- split; [intros []; discriminate|].
           intros (a & r' & e' & u & ?). discriminate.
  - pose proof (status_run host userId w Hu Hf) as R. rewrite S in R.
    eexists. split; [rewrite R; reflexivity|]. cbn. split; [|split].
    + split; eauto.
    + split; [discriminate|]. intros (rt & rest & C). now apply Short in C.
    + split; [intros []; discriminate|].
      intros (a & r' & e & u & ?). discriminate.
Qed.

(** X4. The authorization client never ends up with another user's
    tokens.  When [getCalendarClientFromDatabase] succeeds, the module-wide
    client holds either the stored columns of a row of that user, or the
    credentials the authorization server answered with for the refresh
    token of such a row.  When it throws, the client is as it was, or a
    refresh was started with the refresh token of such a row: the client
    then holds that refresh token alone when the server refused, and the
    credentials the server answered with when the failure came after the
    answer (an expiry out of range, a store that did not take the
    update). *)
Theorem calendar_client_credentials (userId : string) (w : World) :
  let run := getCalendarClientFromDatabase host userId w in
  let stored r :=
    In r (google_calendar_tokens w) /\ TokenRow.user_id r = userId in
  match fst run with
  | Ok _ =>
      (exists r, stored r
                 /\ oauth2Client (snd run)
                    = Some (StoredTokens (TokenRow.access_token r)
                                         (TokenRow.refresh_token r)
                                         (TokenRow.expiry_date r) userId))
      \/ (exists r rt c, stored r
                         /\ TokenRow.refresh_token r = Some rt
                         /\ refreshAccessToken host (Some (RefreshTokenOnly rt)) = Ok c
                         /\ oauth2Client (snd run) = Some (RefreshedCredentials c))
  | Throw e =>
      oauth2Client (snd run) = oauth2Client w
      \/ exists r rt,
          stored r /\ TokenRow.refresh_token r = Some rt
          /\ (refreshAccessToken host (Some (RefreshTokenOnly rt)) = Throw e
              /\ oauth2Client (snd run) = Some (RefreshTokenOnly rt)
              \/ exists c,
                  refreshAccessToken host (Some (RefreshTokenOnly rt)) = Ok c
                  /\ oauth2Client (snd run) = Some (RefreshedCredentials c))
  end.
Proof.
  cbv zeta. unfold getCalendarClientFromDatabase, bind, setCredentials.
  destruct (string_dec userId EmptyString) as [->|Hne]; [left; reflexivity|].
  rewrite (getUserTokens_run host userId w Hne). cbv zeta.
  destruct (store_fault host _); try (left; reflexivity).
  destruct (Store.single userId (google_calendar_tokens w)) as [r|msg] eqn:S;
    [|left; reflexivity].
  destruct (single_Data _ _ _ S) as [Hin Hr].
  destruct (resolve_row_cases userId (logged w [SelectToken userId]) r)
    as [(E & ->)|[(E & R & ->)|(E & R & rt & Ht & Hn & ->)]].
  - cbn. left. exists r. rewrite Hr. auto.
  - cbn. left. reflexivity.
  - rewrite refresh_run. cbv zeta.
    destruct (refreshAccessToken host _) as [c|e] eqn:A;
      [|cbn; right; exists r, rt; auto].
    destruct (expiry_column _) as [expiry|e];
      [|cbn; right; exists r, rt; repeat split; eauto].
    destruct (store_fault host (UpdateToken _ _ _)); cbn;
      try (right; exists r, rt; repeat split; now eauto).
    right. exists r, rt, c. auto.
Qed.

End ResolutionFacts.

(** ** Strings that are not dates *)

Section Unreadable.
Import JsDate JsString JsDateString.

Lemma read_digits_digitless w acc s :
  digitless s = true -> read_digits (S w) acc s = None.
Proof.
  destruct s as [|c s]; [reflexivity|]. simpl.
  destruct (digit_val c); [discriminate|reflexivity].
Qed.

(** A string without a digit is the Invalid Date. *)
Lemma Date_ofString_digitless host s :
  digitless s = true -> Date_ofString host s = None.
Proof.
  intros D. unfold Date_ofString, Date_parse, parse_date, parse_year.
  destruct s as [|c s]; [reflexivity|].
  assert (digitless s = true) as D'
    by (simpl in D; destruct (digit_val c); [discriminate|exact D]).
  destruct (Ascii.eqb c "+"); [now rewrite read_digits_digitless|].
  destruct (Ascii.eqb c "-"); now rewrite read_digits_digitless.
Qed.

End Unreadable.

(** ** A stored expiry that is not a date *)

Section FailOpen.
Import JsDate JsString JsDateString.

Variable host : Host.

(** X25. An expiry that cannot be read counts as not expired.  For a row
    whose [expiry_date] is a string without any digit, which [new Date]
    reads as the Invalid Date, the comparison with the clock is false:
    [getUserTokensFromDatabase] returns the stored tokens after its select
    alone, without a refresh, and the status probe reports [connected:
    true] with a falsy [needsRefresh] and the string itself as
    [lastSync]. *)
Theorem unreadable_expiry_is_not_expired (userId : string) (w : World)
    (r : TokenRow.t) (s : string) :
  userId <> EmptyString ->
  store_fault host (SelectToken userId) = NoFault ->
  Store.single userId (google_calendar_tokens w) = Data r ->
  TokenRow.expiry_date r = Some s ->
  digitless s = true ->
  getUserTokensFromDatabase host userId w
  = (Ok (StoredTokens (TokenRow.access_token r) (TokenRow.refresh_token r)
                      (Some s) (TokenRow.user_id r)),
     logged w [SelectToken userId])
  /\ exists st,
      fst (getUserConnectionStatusFromDatabase host userId w) = Ok st
      /\ Status.connected st = true
      /\ Js.ToBoolean (Status.needsRefresh st) = false
      /\ Status.lastSync st = Js.str s.
Proof.
  intros Hu Hf Hs He Hd.
  pose proof (Date_ofString_digitless host s Hd) as Hp.
  assert (Js.ToBoolean (isExpired host r) = false) as X.
  { apply isExpired_false. intros s' t E P. congruence. }
  split.
  - rewrite (getUserTokens_run host userId w Hu), Hf, Hs. cbv zeta.
    unfold resolve_row. now rewrite X, He.
  - destruct (status_tri_state host userId w r Hu Hf Hs)
      as (st & Hst & Hc & Hn & _). cbv zeta in Hc, Hn.
    exists st. rewrite Hc, Hn, X. repeat split; try assumption.
    pose proof (status_run host userId w Hu Hf) as R. rewrite Hs in R.
    rewrite R in Hst. cbn in Hst. injection Hst as <-. cbn. now rewrite He.
Qed.

End FailOpen.

(** ** The refresh route *)

Section RefreshRoute.
Import JsDate JsString JsDateString.

Variable host : Host.

Lemma refresh_route_not_found (userId : string) (w : World) :
  userId <> EmptyString ->
  store_fault host (SelectToken userId) = NoFault ->
  (forall r, Store.single userId (google_calendar_tokens w) = Data r ->
             truthy (TokenRow.refresh_token r) = false) ->
  post_google_refresh host userId w
  = (mkResponse 404 (ErrorBody "No refresh token found"),
     logged w [SelectToken userId]).
Proof.
  intros Hu Hf Hr. unfold post_google_refresh.
  destruct userId as [|a u]; [congruence|].
  cbn [truthy negb]. unfold bind at 1. rewrite select_token_run, Hf.
  destruct (Store.single _ _) as [r|msg]; [|reflexivity].
  specialize (Hr r eq_refl).
  destruct (TokenRow.refresh_token r) as [[|b s]|]; try reflexivity.
  discriminate.
Qed.

(** With a stored refresh token the route runs the steps of
    [refreshUserTokensFromDatabase]. *)
Lemma refresh_route_run (userId : string) (w : World) (r : TokenRow.t)
    (rt : string) :
  userId <> EmptyString ->
  store_fault host (SelectToken userId) = NoFault ->
  Store.single userId (google_calendar_tokens w) = Data r ->
  TokenRow.refresh_token r = Some rt -> rt <> EmptyString ->
  let run := refreshUserTokensFromDatabase host userId rt
               (logged w [SelectToken userId]) in
  exists response,
    post_google_refresh host userId w = (response, snd run)
    /\ match fst run with
       | Ok c =>
           response
           = mkResponse 200 (RefreshedBody "Tokens refreshed successfully" c)
       | Throw _ =>
           exists message, response = mkResponse 500 (ErrorBody message)
       end.
Proof.
  intros Hu Hf Hs Ht Hn run. subst run. unfold post_google_refresh.
  destruct userId as [|a u]; [congruence|].
  cbn [truthy negb]. unfold bind at 1. rewrite select_token_run, Hf, Hs, Ht.
  destruct rt as [|b rt']; [congruence|].
  rewrite refresh_run. cbv zeta.
  unfold oauth2Client_refreshAccessToken, update_token, setCredentials, bind,
    call, lift, ret.
  cbn [oauth2Client google_calendar_tokens calendar_events calls logged].
  destruct (refreshAccessToken host _) as [c|e]; [|cbn; eauto].
  cbn [oauth2Client google_calendar_tokens calendar_events calls].
  destruct (expiry_column _) as [expiry|e]; [|cbn; eauto].
  rewrite <- !app_assoc. cbn [app].
  destruct (store_fault host (UpdateToken _ _ _)); cbn; eauto.
Qed.

(** The route before the store has answered with a row that carries a
    refresh token. *)
Lemma refresh_route_early (userId : string) (w : World) :
  (userId = EmptyString
   /\ post_google_refresh host userId w
      = (mkResponse 400 (ErrorBody "User ID is required"), w))
  \/ (userId <> EmptyString
      /\ (exists msg, store_fault host (SelectToken userId) = Rejects msg)
      /\ post_google_refresh host userId w
         = (mkResponse 500 (ErrorBody "Failed to refresh tokens"),
            logged w [SelectToken userId]))
  \/ (userId <> EmptyString
      /\ post_google_refresh host userId w
         = (mkResponse 404 (ErrorBody "No refresh token found"),
            logged w [SelectToken userId]))
  \/ (userId <> EmptyString
      /\ store_fault host (SelectToken userId) = NoFault
      /\ exists r rt, Store.single userId (google_calendar_tokens w) = Data r
                      /\ TokenRow.refresh_token r = Some rt
                      /\ rt <> EmptyString).
Proof.
  destruct (string_dec userId EmptyString) as [->|Hu]; [left; auto|]. right.
  destruct (store_fault host (SelectToken userId)) as [|msg|msg] eqn:F.
  - destruct (Store.single userId (google_calendar_tokens w)) as [r|msg] eqn:S.
    + destruct (TokenRow.refresh_token r) as [[|b t]|] eqn:T.
      * right. left. split; [exact Hu|]. apply refresh_route_not_found; auto.
        intros r' Hr. rewrite S in Hr. injection Hr as <-. now rewrite T.
      * right. right. split; [exact Hu|]. split; [reflexivity|].
        exists r, (String b t). repeat split; auto.
      * right. left. split; [exact Hu|]. apply refresh_route_not_found; auto.
        intros r' Hr. rewrite S in Hr. injection Hr as <-. now rewrite T.
    + right. left. split; [exact Hu|]. apply refresh_route_not_found; auto.
      intros r' Hr. rewrite S in Hr. discriminate.
  - right. left. split; [exact Hu|]. unfold post_google_refresh.
    destruct userId as [|a u]; [congruence|]. cbn [truthy negb].
    unfold bind at 1. rewrite select_token_run, F. reflexivity.
  - left. split; [exact Hu|]. split; [eauto|]. unfold post_google_refresh.
    destruct userId as [|a u]; [congruence|]. cbn [truthy negb].
    unfold bind at 1. rewrite select_token_run, F. reflexivity.
Qed.

(** X5. The refresh route does what [refreshUserTokensFromDatabase] does.
    For a user whose single row carries a non-empty refresh token,
    [POST /google/refresh/:userId] leaves the state in which the select
    followed by [refreshUserTokensFromDatabase], with that refresh token,
    leaves it; it answers 200 with the credentials of the authorization
    server when that refresh succeeds, and 500 when it throws. *)
Theorem refresh_route_runs_refresh (userId : string) (w : World)
    (r : TokenRow.t) (rt : string) :
  userId <> EmptyString ->
  store_fault host (SelectToken userId) = NoFault ->
  Store.single userId (google_calendar_tokens w) = Data r ->
  TokenRow.refresh_token r = Some rt -> rt <> EmptyString ->
  let run := refreshUserTokensFromDatabase host userId rt
               (logged w [SelectToken userId]) in
  let routed := post_google_refresh host userId w in
  snd routed = snd run
  /\ match fst run with
     | Ok c =>
         fst routed
         = mkResponse 200 (RefreshedBody "Tokens refreshed successfully" c)
     | Throw _ =>
         exists message, fst routed = mkResponse 500 (ErrorBody message)
     end.
Proof.
  intros Hu Hf Hs Ht Hn run routed.
  destruct (refresh_route_run userId w r rt Hu Hf Hs Ht Hn) as (response & E & H).
  subst routed. rewrite E. split; [reflexivity|exact H].
Qed.

(** X6. The refresh route goes to the authorization server only with the
    refresh token stored for the user.  An answer 400 means the user id
    was empty and nothing was done; an answer 404 means that only the
    select was made; a call to the authorization server is made only when
    the store answered with the user's single row, and it carries the
    non-empty refresh token of that row.  A user without a row, or with a
    row without a refresh token, gets 404 "No refresh token found". *)
Theorem refresh_route_needs_refresh_token (userId : string) (w : World) :
  let routed := post_google_refresh host userId w in
  (status (fst routed) = 400 -> userId = EmptyString /\ snd routed = w)
  /\ (status (fst routed) = 404 -> snd routed = logged w [SelectToken userId])
  /\ (forall rt rest,
      calls (snd routed)
      = calls w ++ SelectToken userId
                :: RefreshAccessToken (Some (RefreshTokenOnly rt)) :: rest ->
      store_fault host (SelectToken userId) = NoFault
      /\ exists r, Store.single userId (google_calendar_tokens w) = Data r
                   /\ TokenRow.refresh_token r = Some rt /\ rt <> EmptyString)
  /\ (userId <> EmptyString ->
      store_fault host (SelectToken userId) = NoFault ->
      (forall r, Store.single userId (google_calendar_tokens w) = Data r ->
                 truthy (TokenRow.refresh_token r) = false) ->
      routed = (mkResponse 404 (ErrorBody "No refresh token found"),
                logged w [SelectToken userId])).
Proof.
  intros routed.
  assert (forall x y rest, calls w <> calls w ++ x :: y :: rest) as Long.
  { intros x y rest E. apply (f_equal (@length _)) in E.
    rewrite length_app in E. simpl in E. lia. }
  assert (forall x y z rest,
            calls (logged w [x]) <> calls w ++ y :: z :: rest) as Short.
  { intros x y z rest E. cbn in E. apply app_inv_head in E. discriminate. }
  split; [|split; [|split]]; [| | |now apply refresh_route_not_found].
  - destruct (refresh_route_early userId w)
      as [(Hu & E)|[(Hu & _ & E)|[(Hu & E)|(Hu & Hf & r & rt & S & T & N)]]];
      subst routed; try (rewrite E; cbn; auto; discriminate).
    destruct (refresh_route_run userId w r rt Hu Hf S T N) as (resp & E & H).
    rewrite E. cbn [fst snd].
    destruct (fst (refreshUserTokensFromDatabase _ _ _ _)) as [c|e].
    + rewrite H. discriminate.
    + destruct H as (m & ->). discriminate.
  - destruct (refresh_route_early userId w)
      as [(Hu & E)|[(Hu & _ & E)|[(Hu & E)|(Hu & Hf & r & rt & S & T & N)]]];
      subst routed; try (rewrite E; cbn; auto; discriminate).
    destruct (refresh_route_run userId w r rt Hu Hf S T N) as (resp & E & H).
    rewrite E. cbn [fst snd].
    destruct (fst (refreshUserTokensFromDatabase _ _ _ _)) as [c|e].
    + rewrite H. discriminate.
    + destruct H as (m & ->). discriminate.
  - intros rt rest.
    destruct (refresh_route_early userId w)
      as [(Hu & E)|[(Hu & _ & E)|[(Hu & E)|(Hu & Hf & r & rt' & S & T & N)]]];
      subst routed; try (rewrite E; cbn [snd]; intros C; exfalso;
                         first [now apply Long in C | now apply Short in C]).
    destruct (refresh_route_run userId w r rt' Hu Hf S T N) as (resp & E & _).
    rewrite E. cbn [snd].
    destruct (refresh_calls host userId rt' (logged w [SelectToken userId]))
      as (rest' & C).
    rewrite C. cbn [logged calls]. rewrite <- app_assoc. intros C'.
    apply app_inv_head in C'. injection C' as <- _.
    split; [exact Hf|]. exists r. auto.
Qed.

End RefreshRoute.

(** * Further properties of the mappers and of the pull *)

(** ** An event pushed and pulled back *)

Section PushPull.
Import JsDate JsString JsDateString JsDateFacts JsStringFacts JsDateStringFacts
  IsoFacts ParseFacts.

(** The start string of a draft reads, in any zone, as the start instant of
    [event_times]. *)
Lemma format_start_instant h1 h2 eventData a b :
  event_times h1 eventData = (Some a, Some b) ->
  Z.abs a <= maxTime ->
  exists g, formatEventForGoogleCalendar h1 eventData = Ok g
            /\ Date_ofString h2 (GoogleEvent.dateTime (GoogleEvent.start g))
               = Some a.
Proof.
  intros T Ha. rewrite format_run, T. eexists. split; [reflexivity|].
  destruct (Date_parse_toISOString (LocalTZA h2) a Ha) as (sa & Sa & Pa).
  rewrite toISOString_Some in Sa.
  cbn [GoogleEvent.start GoogleEvent.dateTime]. unfold Date_ofString.
  remember (iso_date a +:+ "T" +:+ iso_time a +:+ "Z") as iso.
  congruence.
Qed.

(** X7. What comes back of an event that was pushed.  Take an event with
    the date [YYYY-MM-DD], formatted by [formatEventForGoogleCalendar] on
    one machine, and a remote event whose [start.dateTime] denotes the
    instant of the draft's start (in whatever notation), mapped by the row
    mapping of the pull on any machine.  If the event had the time [HH:mm]
    and the pushing process runs in UTC, the row has the same [due_date]
    and the same [due_time].  If the event had no time, the row has the
    same [due_date] but the [due_time] "00:00": an all-day event comes back
    as a timed one. *)
Theorem pushed_event_pulled_back (h1 h2 : Host) (userId : string)
    (eventData : EventData.t) (y m d : Z) :
  0 <= y <= 9999 -> 1 <= m <= 12 -> 1 <= d <= DaysInMonth y m ->
  EventData.due_date eventData = ymd y m d ->
  let pulled g due_time :=
    forall remote s,
      RemoteEvent.dateTime (RemoteEvent.start remote) = Some s ->
      Date_ofString h2 s
      = Date_ofString h2 (GoogleEvent.dateTime (GoogleEvent.start g)) ->
      exists row, toInternal h2 userId remote = Ok row
                  /\ EventRow.due_date row = Some (ymd y m d)
                  /\ EventRow.due_time row = Some due_time in
  (forall h mi, 0 <= h < 24 -> 0 <= mi < 60 ->
     (forall t, LocalTZA h1 t false = 0) ->
     EventData.due_time eventData = Some (hm h mi) ->
     exists g, formatEventForGoogleCalendar h1 eventData = Ok g
               /\ pulled g (hm h mi))
  /\ (truthy (EventData.due_time eventData) = false ->
      exists g, formatEventForGoogleCalendar h1 eventData = Ok g
                /\ pulled g "00:00").
Proof.
  intros Hy Hm Hd' E pulled.
  assert (1 <= d <= 31) as Hd
    by (pose proof (DaysInMonth_le_31 y m Hm); lia).
  assert (forall h mi b, 0 <= h < 24 -> 0 <= mi < 60 ->
            event_times h1 eventData
            = (Some (MakeDate (MakeDay y (m - 1) d) (MakeTime h mi 0 0)), Some b) ->
            exists g, formatEventForGoogleCalendar h1 eventData = Ok g
                      /\ pulled g (hm h mi)) as Back.
  { intros h mi b Hh Hmi T.
    set (t := MakeDate (MakeDay y (m - 1) d) (MakeTime h mi 0 0)) in *.
    assert (0 <= MakeTime h mi 0 0 < msPerDay) as Htm
      by (unfold MakeTime, msPerDay, msPerHour, msPerMinute, msPerSecond; lia).
    assert (Z.abs t <= maxTime) as Ht.
    { pose proof (MakeDate_bound y (m - 1) d (MakeTime h mi 0 0) Hy ltac:(lia) Hd
                    ltac:(unfold msPerDay in *; lia)) as B.
      fold t in B. unfold msPerDay in B. lia. }
    destruct (format_start_instant h1 h2 eventData t b T Ht) as (g & Hg & P).
    exists g. split; [exact Hg|]. intros remote s Hs Hp. rewrite P in Hp.
    rewrite (toInternal_timed h2 userId remote s t Hs Hp).
    eexists. split; [reflexivity|].
    cbn [mapped_row EventRow.due_date EventRow.due_time].
    unfold t. rewrite iso_date_of_MakeDate by assumption.
    destruct (time_fields_of_MakeDate (MakeDay y (m - 1) d) h mi 0 0
                Hh Hmi ltac:(lia) ltac:(lia)) as (-> & -> & _).
    auto. }
  split.
  - intros h mi Hh Hmi Hz T.
    pose proof (event_times_timed h1 eventData y m d h mi Hy Hm Hd Hh Hmi
                  ltac:(intros t; rewrite Hz; unfold msPerDay; lia) E T) as X.
    cbv zeta in X. unfold UTC in X. rewrite Hz, Z.sub_0_r in X.
    exact (Back h mi _ Hh Hmi X).
  - intros T.
    pose proof (event_times_all_day h1 eventData y m d Hy Hm Hd E T) as X.
    change (MakeDate (MakeDay y (m - 1) d) 0)
      with (MakeDate (MakeDay y (m - 1) d) (MakeTime 0 0 0 0)) in X at 1.
    exact (Back 0 0 _ ltac:(lia) ltac:(lia) X).
Qed.

End PushPull.

(** ** The length of a draft *)

Section Drafts.
Import JsDate JsString JsDateString JsDateFacts JsStringFacts JsDateStringFacts
  IsoFacts ParseFacts.

Lemma TimeClip_Some x t : TimeClip x = Some t -> t = x /\ Z.abs t <= maxTime.
Proof.
  unfold TimeClip. destruct (Z.abs x <=? maxTime) eqn:B; [|discriminate].
  intros [= <-]. apply Z.leb_le in B. auto.
Qed.

(** Every date read from a string is within the range of time values. *)
Lemma Date_parse_range tz s t : Date_parse tz s = Some t -> Z.abs t <= maxTime.
Proof.
  unfold Date_parse, mbind, option_bind.
  destruct (parse_date s) as [[[[y m] d] s1]|]; [|discriminate].
  destruct (_ && _); [|discriminate].
  destruct s1 as [|c s2]; [intros H; now apply TimeClip_Some in H|].
  destruct (Ascii.eqb c "T"); [|discriminate].
  destruct (parse_time s2) as [[[[[h mi] sec] ms] s3]|]; [|discriminate].
  destruct (parse_zone s3) as [zone|]; [|discriminate].
  destruct (valid_time h mi sec ms); [|discriminate].
  destruct zone; intros H; now apply TimeClip_Some in H.
Qed.

(** The two strings of a draft read back as the instants they were
    printed from. *)
Lemma draft_read_back (h1 h2 : Host) (eventData : EventData.t)
    (g : GoogleEvent.t) :
  formatEventForGoogleCalendar h1 eventData = Ok g ->
  exists a,
    Date_ofString h2 (GoogleEvent.dateTime (GoogleEvent.start g)) = Some a
    /\ Date_ofString h2 (GoogleEvent.dateTime (GoogleEvent.end_ g))
       = Some (a + if truthy (EventData.due_time eventData)
                   then 60 * 60 * 1000 else 24 * 60 * 60 * 1000)
    /\ (truthy (EventData.due_time eventData) = false ->
        Date_ofString h1 (EventData.due_date eventData) = Some a).
Proof.
  rewrite format_run.
  destruct (event_times h1 eventData) as [[a|] [b|]] eqn:T; try discriminate.
  intros E.
  assert (GoogleEvent.dateTime (GoogleEvent.start g)
          = iso_date a +:+ "T" +:+ iso_time a +:+ "Z") as Es
    by (injection E as <-; reflexivity).
  assert (GoogleEvent.dateTime (GoogleEvent.end_ g)
          = iso_date b +:+ "T" +:+ iso_time b +:+ "Z") as Ee
    by (injection E as <-; reflexivity).
  clear E.
  assert (Z.abs a <= maxTime
          /\ b = a + (if truthy (EventData.due_time eventData)
                      then 60 * 60 * 1000 else 24 * 60 * 60 * 1000)
          /\ Z.abs b <= maxTime
          /\ (truthy (EventData.due_time eventData) = false ->
              Date_ofString h1 (EventData.due_date eventData) = Some a))
    as (Ha & Eb & Hb & Hd).
  { revert T. unfold event_times, plus_ms, Date_ofNumber, mbind, option_bind.
    destruct (truthy (EventData.due_time eventData)).
    - destruct (Date_ofString h1 (_ +:+ _)) as [a'|] eqn:P; [|discriminate].
      intros [= -> C]. apply TimeClip_Some in C as [-> C].
      split; [exact (Date_parse_range _ _ _ P)|]. split; [reflexivity|].
      split; [exact C|discriminate].
    - destruct (Date_ofString h1 (EventData.due_date eventData)) as [a'|] eqn:P;
        [|discriminate].
      intros [= -> C]. apply TimeClip_Some in C as [-> C].
      split; [exact (Date_parse_range _ _ _ P)|]. split; [reflexivity|].
      split; [exact C|reflexivity]. }
  exists a.
  destruct (Date_parse_toISOString (LocalTZA h2) a Ha) as (sa & Sa & Pa).
  destruct (Date_parse_toISOString (LocalTZA h2) b Hb) as (sb & Sb & Pb).
  rewrite toISOString_Some in Sa, Sb. unfold Date_ofString. rewrite Es, Ee.
  remember (iso_date a +:+ "T" +:+ iso_time a +:+ "Z") as ia.
  remember (iso_date b +:+ "T" +:+ iso_time b +:+ "Z") as ib.
  assert (sa = ia) as -> by congruence. assert (sb = ib) as -> by congruence.
  rewrite <- Eb. auto.
Qed.

(** X24. The draft of an event due on a calendar date lasts one hour, or
    one day.  For an event whose [due_date] is written [YYYY-MM-DD] and
    whose [due_time] is absent (or empty) or written [HH:mm],
    [formatEventForGoogleCalendar] returns a draft, and the draft's start
    and end read back, in any zone, as two instants: the end exactly one
    hour after the start when the event has a [due_time], and exactly 24
    hours after it otherwise; without a [due_time] the start is what
    [new Date(due_date)] gives. *)
Theorem draft_duration (h1 h2 : Host) (eventData : EventData.t) (y m d : Z) :
  0 <= y <= 9999 -> 1 <= m <= 12 -> 1 <= d <= DaysInMonth y m ->
  EventData.due_date eventData = ymd y m d ->
  (forall t, Z.abs (LocalTZA h1 t false) <= msPerDay) ->
  truthy (EventData.due_time eventData) = false
  \/ (exists h mi, 0 <= h < 24 /\ 0 <= mi < 60
                   /\ EventData.due_time eventData = Some (hm h mi)) ->
  exists g a,
    formatEventForGoogleCalendar h1 eventData = Ok g
    /\ Date_ofString h2 (GoogleEvent.dateTime (GoogleEvent.start g)) = Some a
    /\ Date_ofString h2 (GoogleEvent.dateTime (GoogleEvent.end_ g))
       = Some (a + if truthy (EventData.due_time eventData)
                   then 60 * 60 * 1000 else 24 * 60 * 60 * 1000)
    /\ (truthy (EventData.due_time eventData) = false ->
        Date_ofString h1 (EventData.due_date eventData) = Some a).
Proof.
  intros Hy Hm Hd' E Hz Ht.
  assert (1 <= d <= 31) as Hd
    by (pose proof (DaysInMonth_le_31 y m Hm); lia).
  assert (exists g, formatEventForGoogleCalendar h1 eventData = Ok g)
    as (g & Hg).
  { rewrite format_run.
    destruct Ht as [T|(h & mi & Hh & Hmi & T)].
    - rewrite (event_times_all_day h1 eventData y m d Hy Hm Hd E T). eauto.
    - pose proof (event_times_timed h1 eventData y m d h mi Hy Hm Hd Hh Hmi
                    Hz E T) as X.
      cbv zeta in X. rewrite X. eauto. }
  destruct (draft_read_back h1 h2 eventData g Hg) as (a & S & F & D).
  exists g, a. auto.
Qed.

End Drafts.

(** ** The steps of a pull *)

Section SyncSteps.
Import JsDate JsString JsDateString JsDateFacts JsStringFacts JsDateStringFacts
  IsoFacts ParseFacts.

Variable host : Host.

(** The steps of a pull, one after the other. *)
Lemma sync_run userId calendarId startDate endDate w :
  syncEventsToDatabaseFromDatabase host userId calendarId startDate endDate w =
  match getCalendarClientFromDatabase host userId w with
  | (Throw e, w0) => (Throw e, w0)
  | (Ok _, w0) =>
      match window_bound host startDate (Date_now host) with
      | Throw e => (Throw e, w0)
      | Ok timeMin =>
          match window_bound host endDate
                  (Date_ofNumber (now host + 365 * 24 * 60 * 60 * 1000)) with
          | Throw e => (Throw e, w0)
          | Ok timeMax =>
              let params :=
                ListParams.mk calendarId timeMin timeMax 2500 true "startTime" in
              match events_list host params with
              | Throw e => (Throw e, logged w0 [EventsList params])
              | Ok items =>
                  match traverse (toInternal host userId) items with
                  | Throw e => (Throw e, logged w0 [EventsList params])
                  | Ok rows =>
                      let w2 := logged w0 [EventsList params; UpsertEvents rows] in
                      match store_fault host (UpsertEvents rows) with
                      | Rejects msg => (Throw (Err msg), w2)
                      | ErrorReply msg =>
                          (Throw (Err ("Failed to sync events to database: "
                                       +:+ msg)), w2)
                      | NoFault =>
                          (Ok (mkSyncResult (length items) items),
                           mkWorld (google_calendar_tokens w0)
                                   (Store.upsert rows (calendar_events w0))
                                   (oauth2Client w0) (calls w2))
                      end
                  end
              end
          end
      end
  end.
Proof.
  unfold syncEventsToDatabaseFromDatabase, calendar_events_list, upsert_events.
  unfold bind at 1.
  destruct (getCalendarClientFromDatabase host userId w) as [[[]|e] w0];
    [|reflexivity].
  unfold bind, call, lift, ret, throw, logged.
  destruct (window_bound host startDate _) as [timeMin|e]; [|reflexivity].
  destruct (window_bound host endDate _) as [timeMax|e]; [|reflexivity].
  cbn [google_calendar_tokens calendar_events oauth2Client calls].
  destruct (events_list host _) as [items|e]; [|reflexivity].
  destruct (traverse (toInternal host userId) items) as [rows|e]; [|reflexivity].
  cbn [google_calendar_tokens calendar_events oauth2Client calls].
  rewrite <- app_assoc. cbn [app].
  destruct (store_fault host (UpsertEvents rows)); reflexivity.
Qed.

Lemma window_bound_absent bound t :
  truthy bound = false ->
  window_bound host bound (Some t)
  = Ok (iso_date t +:+ "T" +:+ iso_time t +:+ "Z").
Proof.
  unfold window_bound, toISOString_or_throw.
  destruct bound as [[|c s]|]; try discriminate; intros _;
    now rewrite toISOString_Some.
Qed.

Lemma ymd_not_empty y m d : ymd y m d <> EmptyString.
Proof. unfold ymd, year_string. destruct (_ && _); cbn; discriminate. Qed.

Lemma window_bound_date_only y m d fallback :
  0 <= y <= 9999 -> 1 <= m <= 12 -> 1 <= d <= DaysInMonth y m ->
  window_bound host (Some (ymd y m d)) fallback
  = Ok (ymd y m d +:+ "T00:00:00.000Z").
Proof.
  intros Hy Hm Hd.
  assert (1 <= d <= 31) as Hd'
    by (pose proof (DaysInMonth_le_31 y m Hm); lia).
  pose proof (Date_parse_date_only (LocalTZA host) y m d Hy Hm Hd') as P.
  pose proof (toISOString_midnight y m d Hm Hd) as S.
  unfold window_bound, toISOString_or_throw, Date_ofString.
  destruct (ymd y m d) as [|c s] eqn:E; [now apply ymd_not_empty in E|].
  rewrite P, S. reflexivity.
Qed.

Lemma window_bound_error bound fallback e :
  window_bound host bound fallback = Throw e -> e = Err "Invalid time value".
Proof.
  unfold window_bound, toISOString_or_throw.
  destruct bound as [[|c s]|];
    match goal with |- context [toISOString ?d] => destruct (toISOString d) end;
    congruence.
Qed.

Lemma window_bound_unreadable bad fallback :
  bad <> EmptyString -> digitless bad = true ->
  window_bound host (Some bad) fallback = Throw (Err "Invalid time value").
Proof.
  intros N D. pose proof (Date_ofString_digitless host bad D) as P.
  unfold window_bound. destruct bad as [|c s]; [congruence|].
  now rewrite P.
Qed.

(** X8. The window of a pull without bounds is the 365 days from now.
    When [startDate] and [endDate] are absent (or empty) and the
    credential resolves, [syncEventsToDatabaseFromDatabase] asks the
    calendar service for the events between two ISO strings that read back
    as the clock's instant and as the instant 365 days later, with
    [maxResults] 2500, recurring events expanded and ordered by start
    time; the only call it may make after that is the upsert. *)
Theorem sync_default_window (userId calendarId : string)
    (startDate endDate : option string) (w w0 : World) :
  Z.abs (now host) <= maxTime - 365 * msPerDay ->
  truthy startDate = false -> truthy endDate = false ->
  getCalendarClientFromDatabase host userId w = (Ok tt, w0) ->
  exists timeMin timeMax rest,
    calls (snd (syncEventsToDatabaseFromDatabase host userId calendarId
                  startDate endDate w))
    = calls w0 ++ EventsList (ListParams.mk calendarId timeMin timeMax 2500
                                true "startTime") :: rest
    /\ Date_ofString host timeMin = Some (now host)
    /\ Date_ofString host timeMax = Some (now host + 365 * msPerDay)
    /\ Forall (fun c => exists rows, c = UpsertEvents rows) rest.
Proof.
  intros B Hs He Hc. unfold msPerDay in B.
  set (later := now host + 365 * 24 * 60 * 60 * 1000).
  assert (Z.abs later <= maxTime) as Bl by (unfold later, maxTime in *; lia).
  assert (Z.abs (now host) <= maxTime) as Bn by (unfold maxTime in *; lia).
  destruct (Date_parse_toISOString (LocalTZA host) (now host) Bn) as (s1 & S1 & P1).
  destruct (Date_parse_toISOString (LocalTZA host) later Bl) as (s2 & S2 & P2).
  rewrite toISOString_Some in S1, S2.
  rewrite sync_run, Hc. unfold Date_now, Date_ofNumber, TimeClip. fold later.
  apply Z.leb_le in Bl. rewrite Bl.
  rewrite (window_bound_absent startDate _ Hs), (window_bound_absent endDate _ He).
  remember (iso_date (now host) +:+ "T" +:+ iso_time (now host) +:+ "Z") as i1.
  remember (iso_date later +:+ "T" +:+ iso_time later +:+ "Z") as i2.
  assert (s1 = i1) as -> by congruence. assert (s2 = i2) as -> by congruence.
  cbv zeta.
  set (params := ListParams.mk calendarId i1 i2 2500 true "startTime").
  assert (Date_ofString host i2 = Some (now host + 365 * msPerDay)) as P2'
    by (unfold Date_ofString; rewrite P2; unfold later, msPerDay; f_equal; lia).
  destruct (events_list host params) as [items|e];
    [|exists i1, i2, []; cbn; auto].
  destruct (traverse _ items) as [rows|e]; [|exists i1, i2, []; cbn; auto].
  exists i1, i2, [UpsertEvents rows].
  assert (Forall (fun c => exists rows0, c = UpsertEvents rows0) [UpsertEvents rows])
    by (constructor; eauto).
  destruct (store_fault host _); cbn; auto.
Qed.

(** X9. Bounds given as dates are midnights in UTC.  With [startDate] and
    [endDate] written [YYYY-MM-DD], the pull asks the calendar service for
    the events from [startDate] at 00:00:00.000Z to [endDate] at
    00:00:00.000Z, whatever the zone of the process: the window ends where
    the day [endDate] begins. *)
Theorem sync_date_only_window (userId calendarId : string) (w w0 : World)
    (y1 m1 d1 y2 m2 d2 : Z) :
  0 <= y1 <= 9999 -> 1 <= m1 <= 12 -> 1 <= d1 <= DaysInMonth y1 m1 ->
  0 <= y2 <= 9999 -> 1 <= m2 <= 12 -> 1 <= d2 <= DaysInMonth y2 m2 ->
  getCalendarClientFromDatabase host userId w = (Ok tt, w0) ->
  exists rest,
    calls (snd (syncEventsToDatabaseFromDatabase host userId calendarId
                  (Some (ymd y1 m1 d1)) (Some (ymd y2 m2 d2)) w))
    = calls w0 ++ EventsList (ListParams.mk calendarId
                                (ymd y1 m1 d1 +:+ "T00:00:00.000Z")
                                (ymd y2 m2 d2 +:+ "T00:00:00.000Z")
                                2500 true "startTime") :: rest.
Proof.
  intros Hy1 Hm1 Hd1 Hy2 Hm2 Hd2 Hc.
  rewrite sync_run, Hc, !window_bound_date_only by assumption. cbv zeta.
  destruct (events_list host _) as [items|e]; [|exists []; reflexivity].
  destruct (traverse _ items) as [rows|e]; [|exists []; reflexivity].
  exists [UpsertEvents rows].
  destruct (store_fault host _); reflexivity.
Qed.

(** X10. A bound that is not a date stops the pull before the calendar
    service is asked.  When [startDate] or [endDate] is a non-empty string
    without any digit ("next week"), which [new Date] reads as the Invalid
    Date, [syncEventsToDatabaseFromDatabase] throws "Invalid time value" in
    the state the credential resolution left: nothing is listed and
    nothing is written to the event table. *)
Theorem sync_unreadable_bound (userId calendarId : string)
    (startDate endDate : option string) (w w0 : World) (bad : string) :
  getCalendarClientFromDatabase host userId w = (Ok tt, w0) ->
  bad <> EmptyString -> digitless bad = true ->
  startDate = Some bad \/ endDate = Some bad ->
  syncEventsToDatabaseFromDatabase host userId calendarId startDate endDate w
  = (Throw (Err "Invalid time value"), w0).
Proof.
  intros Hc N P [->| ->]; rewrite sync_run, Hc.
  - now rewrite window_bound_unreadable.
  - destruct (window_bound host startDate _) as [timeMin|e] eqn:S.
    + now rewrite window_bound_unreadable.
    + now rewrite (window_bound_error _ _ _ S).
Qed.

(** Every error of the row mapping is the range error of [toISOString]. *)
Lemma toInternal_error userId event e :
  toInternal host userId event = Throw e -> e = Err "Invalid time value".
Proof.
  rewrite toInternal_run.
  destruct (RemoteEvent.dateTime _) as [[|c s]|]; try discriminate.
  destruct (Date_ofString host _); congruence.
Qed.

Lemma traverse_unreadable userId items :
  Exists unreadable_start items ->
  traverse (toInternal host userId) items = Throw (Err "Invalid time value").
Proof.
  induction 1 as [event items (s & D & N & L)|event items _ IH]; simpl.
  - pose proof (Date_ofString_digitless host s L) as P.
    rewrite toInternal_run, D. destruct s as [|c s]; [congruence|].
    now rewrite P.
  - destruct (toInternal host userId event) as [r|e] eqn:E.
    + now rewrite IH.
    + now rewrite (toInternal_error _ _ _ E).
Qed.

(** The rows of a mapped batch: one for each event, all of the user. *)
Lemma traverse_rows userId items : forall rows,
  traverse (toInternal host userId) items = Ok rows ->
  length rows = length items
  /\ Forall (fun r => EventRow.user_id r = userId) rows.
Proof.
  induction items as [|event items IH]; simpl; intros rows.
  - intros [= <-]. auto.
  - destruct (toInternal host userId event) as [r|e] eqn:E; [|discriminate].
    destruct (traverse _ items) as [rs|e]; [|discriminate].
    intros [= <-]. destruct (IH rs eq_refl) as [L F]. split; [simpl; lia|].
    constructor; [|exact F]. revert E. rewrite toInternal_run.
    destruct (RemoteEvent.dateTime _) as [[|c s]|];
      try destruct (Date_ofString host _); try discriminate;
      intros [= <-]; reflexivity.
Qed.

(** X11. One remote event whose start is not a date fails the whole pull.
    When the list of the calendar service holds an event whose
    [start.dateTime] is a non-empty string without any digit, which
    [new Date] reads as the Invalid Date, [syncEventsToDatabaseFromDatabase]
    throws "Invalid time value" right after the list call: no row of the
    batch is written, the readable events included. *)
Theorem sync_unreadable_event (userId calendarId : string)
    (startDate endDate : option string) (w w0 : World)
    (timeMin timeMax : string) (items : list RemoteEvent.t) :
  getCalendarClientFromDatabase host userId w = (Ok tt, w0) ->
  window_bound host startDate (Date_now host) = Ok timeMin ->
  window_bound host endDate
    (Date_ofNumber (now host + 365 * 24 * 60 * 60 * 1000)) = Ok timeMax ->
  let params := ListParams.mk calendarId timeMin timeMax 2500 true "startTime" in
  events_list host params = Ok items ->
  Exists unreadable_start items ->
  syncEventsToDatabaseFromDatabase host userId calendarId startDate endDate w
  = (Throw (Err "Invalid time value"), logged w0 [EventsList params]).
Proof.
  intros Hc S E params L X.
  rewrite sync_run, Hc, S, E. cbv zeta. fold params. rewrite L.
  now rewrite traverse_unreadable.
Qed.

End SyncSteps.

(** ** What a pull leaves of the event table *)

Section SyncFrame.
Import Store StoreFacts.

Lemma upsert_row_other userId r tbl :
  EventRow.user_id r = userId ->
  other_users userId (upsert_row r tbl) = other_users userId tbl.
Proof.
  intros U. unfold other_users.
  assert (negb (String.eqb (EventRow.user_id r) userId) = false) as Hr
    by (rewrite U, String.eqb_refl; reflexivity).
  induction tbl as [|r' tbl IH]; simpl.
  - now rewrite Hr.
  - destruct (same_key r' r) eqn:K; simpl.
    + apply same_key_true in K. unfold conflict_key in K.
      assert (EventRow.user_id r' = EventRow.user_id r) as E by congruence.
      rewrite E, Hr. reflexivity.
    + now rewrite IH.
Qed.

Lemma upsert_other userId rows : forall tbl,
  Forall (fun r => EventRow.user_id r = userId) rows ->
  other_users userId (upsert rows tbl) = other_users userId tbl.
Proof.
  induction rows as [|r rows IH]; intros tbl F; [reflexivity|].
  apply List.Forall_cons_iff in F as [U F].
  change (upsert (r :: rows) tbl) with (upsert rows (upsert_row r tbl)).
  rewrite IH by exact F. now apply upsert_row_other.
Qed.

Lemma upsert_row_length r tbl :
  (length tbl <= length (upsert_row r tbl) <= length tbl + 1)%nat.
Proof.
  induction tbl as [|r' tbl IH]; simpl; [lia|].
  destruct (same_key r' r); simpl; lia.
Qed.

Lemma upsert_length rows : forall tbl,
  (length tbl <= length (upsert rows tbl) <= length tbl + length rows)%nat.
Proof.
  induction rows as [|r rows IH]; intros tbl; [simpl; lia|].
  change (upsert (r :: rows) tbl) with (upsert rows (upsert_row r tbl)).
  pose proof (IH (upsert_row r tbl)). pose proof (upsert_row_length r tbl).
  simpl. lia.
Qed.

(** X12. A pull touches only the rows of its user, and removes none.
    Whatever [syncEventsToDatabaseFromDatabase] answers, the rows of the
    other users are afterwards as they were, in their order; every key
    [(user_id, title, due_date)] of the table is still a key of it (an
    event deleted on the remote calendar stays in the table); and the table
    has grown by at most [syncedCount] rows, by none when the pull
    throws. *)
Theorem sync_frame (host : Host) (userId calendarId : string)
    (startDate endDate : option string) (w : World) :
  let run := syncEventsToDatabaseFromDatabase host userId calendarId
               startDate endDate w in
  let synced := match fst run with Ok r => syncedCount r | Throw _ => O end in
  other_users userId (calendar_events (snd run))
  = other_users userId (calendar_events w)
  /\ (forall k, In k (keys (calendar_events w)) ->
                In k (keys (calendar_events (snd run))))
  /\ (length (calendar_events w) <= length (calendar_events (snd run))
      <= length (calendar_events w) + synced)%nat.
Proof.
  cbv zeta.
  pose proof (sync_outcome host userId calendarId startDate endDate w) as O.
  cbv zeta in O.
  destruct (fst (syncEventsToDatabaseFromDatabase _ _ _ _ _ _)) as [r|e].
  - destruct O as (C & _ & rows & T & ->).
    destruct (traverse_rows host userId (events r) rows T) as [L F].
    split; [now apply upsert_other|]. split.
    + intros k Hk. apply upsert_keys. now right.
    + pose proof (upsert_length rows (calendar_events w)). lia.
  - rewrite O. split; [reflexivity|]. split; [auto|lia].
Qed.

End SyncFrame.

(** ** What a pull writes over *)

Section SyncRows.
Import JsDate JsString JsDateString Store StoreFacts.

Lemma upsert_row_member r tbl x :
  In x (upsert_row r tbl) ->
  x = r \/ (In x tbl /\ (List.NoDup (keys tbl) -> conflict_key x <> conflict_key r)).
Proof.
  induction tbl as [|y tbl IH]; simpl.
  - intros [<-|[]]. now left.
  - destruct (same_key y r) eqn:K; simpl.
    + apply same_key_true in K. intros [<-|H]; [now left|].
      right. split; [now right|]. intros N.
      apply List.NoDup_cons_iff in N as [N _]. intros E. apply N.
      rewrite K, <- E. now apply in_map.
    + apply same_key_false in K. intros [<-|H].
      * right. split; [now left|]. auto.
      * destruct (IH H) as [->|[Hin C]]; [now left|].
        right. split; [now right|]. intros N.
        apply List.NoDup_cons_iff in N as [_ N]. auto.
Qed.

(** A row of the table after a batch upsert is a row of the batch, or a
    row of the table before whose key is not in the batch. *)
Lemma upsert_member rows : forall tbl x,
  List.NoDup (keys tbl) ->
  In x (upsert rows tbl) ->
  In x rows \/ (In x tbl /\ ~ In (conflict_key x) (keys rows)).
Proof.
  induction rows as [|r rows IH]; intros tbl x N; [simpl; auto|].
  change (upsert (r :: rows) tbl) with (upsert rows (upsert_row r tbl)).
  intros H. destruct (IH _ x (upsert_row_NoDup r tbl N) H) as [Hin|[Hin C]].
  - left. now right.
  - destruct (upsert_row_member r tbl x Hin) as [->|[Hin' D]].
    + left. now left.
    + right. split; [exact Hin'|]. simpl. intros [E|E]; [|now apply C].
      now apply (D N).
Qed.

Lemma traverse_In {A B} (f : A -> Result B) items : forall rows,
  traverse f items = Ok rows ->
  (forall y, In y rows -> exists e, In e items /\ f e = Ok y)
  /\ (forall e, In e items -> exists y, In y rows /\ f e = Ok y).
Proof.
  induction items as [|a items IH]; simpl; intros rows.
  - intros [= <-]. split; intros ? [].
  - destruct (f a) as [b|] eqn:E; [|discriminate].
    destruct (traverse f items) as [rs|]; [|discriminate].
    intros [= <-]. destruct (IH rs eq_refl) as [I1 I2]. split.
    + intros y [<-|H]; [exists a; auto|].
      destruct (I1 y H) as (e & He & Hf). exists e. auto.
    + intros e [<-|H]; [exists b; simpl; auto|].
      destruct (I2 e H) as (y & Hy & Hf). exists y. simpl. auto.
Qed.

(** X27. A pull replaces what the table held under the keys it writes.
    After a successful pull into a table without duplicate keys, every row
    is a row mapped from a listed event, or a row of the table before whose
    key [(user_id, title, due_date)] is the key of no mapped row; every
    mapped row has a row of the table under its key, itself a mapped one;
    and a mapped row has no [class_id], the [event_type] "google_calendar",
    the confidence 1 and the clock of the pull as [created_at].  So an event
    that another route stored with the title and the day of a remote event
    loses its class, its type and its creation time. *)
Theorem sync_replaces_rows_with_same_key (host : Host)
    (userId calendarId : string) (startDate endDate : option string)
    (w : World) (r : SyncResult) :
  List.NoDup (keys (calendar_events w)) ->
  fst (syncEventsToDatabaseFromDatabase host userId calendarId startDate endDate w)
  = Ok r ->
  let tbl' := calendar_events
                (snd (syncEventsToDatabaseFromDatabase host userId calendarId
                        startDate endDate w)) in
  let mapped x := exists e, In e (events r) /\ toInternal host userId e = Ok x in
  (forall x, In x tbl' ->
     mapped x
     \/ (In x (calendar_events w)
         /\ forall y, mapped y -> conflict_key y <> conflict_key x))
  /\ (forall y, mapped y ->
      exists x, In x tbl' /\ conflict_key x = conflict_key y /\ mapped x)
  /\ (forall x, mapped x ->
      EventRow.user_id x = userId
      /\ EventRow.class_id x = None
      /\ EventRow.event_type x = "google_calendar"
      /\ EventRow.confidence_score x = 1%Q
      /\ EventRow.created_at x
         = iso_date (now host) +:+ "T" +:+ iso_time (now host) +:+ "Z").
Proof.
  intros N Hok tbl' mapped.
  pose proof (sync_outcome host userId calendarId startDate endDate w) as O.
  cbv zeta in O. rewrite Hok in O. destruct O as (_ & _ & rows & T & E).
  fold tbl' in E.
  destruct (traverse_In _ _ _ T) as [I1 I2].
  split; [|split].
  - intros x Hx. rewrite E in Hx.
    destruct (upsert_member rows _ x N Hx) as [H|[H C]].
    + left. exact (I1 x H).
    + right. split; [exact H|]. intros y (e & He & Hy) K. apply C.
      destruct (I2 e He) as (y' & Hy' & Hf). rewrite Hy in Hf. injection Hf as <-.
      rewrite <- K. now apply in_map.
  - intros y (e & He & Hy).
    destruct (I2 e He) as (y' & Hy' & Hf). rewrite Hy in Hf. injection Hf as <-.
    assert (In (conflict_key y) (keys tbl')) as K
      by (rewrite E; apply upsert_keys; left; now apply in_map).
    apply in_map_iff in K as (x & Kx & Hx). exists x.
    split; [exact Hx|]. split; [exact Kx|].
    rewrite E in Hx. destruct (upsert_member rows _ x N Hx) as [H|[H C]].
    + exact (I1 x H).
    + exfalso. apply C. rewrite Kx. now apply in_map.
  - intros x (e & He & Hx). revert Hx. rewrite toInternal_run.
    destruct (RemoteEvent.dateTime _) as [[|c s]|];
      try destruct (Date_ofString host _); try discriminate;
      intros [= <-]; repeat split.
Qed.


Lemma upsert_row_twice r tbl : upsert_row r (upsert_row r tbl) = upsert_row r tbl.
Proof.
  induction tbl as [|x tbl IH]; simpl.
  - assert (same_key r r = true) as -> by now apply same_key_true.
    reflexivity.
  - destruct (same_key x r) eqn:K; simpl.
    + assert (same_key r r = true) as -> by now apply same_key_true.
      reflexivity.
    + rewrite K. now rewrite IH.
Qed.

(** Of two writes with the same key the later one remains. *)
Lemma upsert_row_overwrites a r tbl :
  conflict_key a = conflict_key r ->
  upsert_row a (upsert_row r tbl) = upsert_row a tbl.
Proof.
  intros E. induction tbl as [|x tbl IH]; simpl.
  - assert (same_key r a = true) as -> by now apply same_key_true.
    reflexivity.
  - destruct (same_key x r) eqn:K; simpl.
    + assert (same_key r a = true) as -> by now apply same_key_true.
      assert (same_key x a = true) as ->; [|reflexivity].
      apply same_key_true. apply same_key_true in K. congruence.
    + assert (same_key x a = false) as ->.
      { apply same_key_false. apply same_key_false in K. congruence. }
      now rewrite IH.
Qed.

(** Writes with different keys commute when one of the keys is in the
    table. *)
Lemma upsert_row_commute a r tbl :
  conflict_key a <> conflict_key r ->
  In (conflict_key r) (keys tbl) ->
  upsert_row a (upsert_row r tbl) = upsert_row r (upsert_row a tbl).
Proof.
  intros D. induction tbl as [|x tbl IH]; simpl; [intros []|].
  intros H.
  destruct (same_key x r) eqn:Kr; destruct (same_key x a) eqn:Ka; simpl.
  - apply same_key_true in Kr, Ka. congruence.
  - rewrite Kr.
    assert (same_key r a = false) as -> by (apply same_key_false; congruence).
    reflexivity.
  - rewrite Ka.
    assert (same_key a r = false) as -> by now apply same_key_false.
    reflexivity.
  - rewrite Ka, Kr. f_equal. apply IH.
    destruct H as [H|H]; [|exact H].
    apply same_key_false in Kr. congruence.
Qed.

(** A write is absorbed by a later write of the same row, whatever is
    written in between, when its key was in the table. *)
Lemma upsert_absorbs r rows : forall tbl,
  In (conflict_key r) (keys tbl) ->
  upsert_row r (upsert rows (upsert_row r tbl))
  = upsert_row r (upsert rows tbl).
Proof.
  induction rows as [|a rows IH]; intros tbl H.
  - apply upsert_row_twice.
  - change (upsert (a :: rows) ?t) with (upsert rows (upsert_row a t)).
    destruct (decide (conflict_key a = conflict_key r)) as [E|D].
    + now rewrite upsert_row_overwrites.
    + rewrite upsert_row_commute by assumption.
      apply IH. apply upsert_row_keys. now right.
Qed.

Lemma upsert_row_app r tbl rest :
  In (conflict_key r) (keys tbl) ->
  upsert_row r (tbl ++ rest) = upsert_row r tbl ++ rest.
Proof.
  induction tbl as [|x tbl IH]; simpl; [intros []|].
  intros H. destruct (same_key x r) eqn:K; [reflexivity|].
  simpl. f_equal. apply IH. destruct H as [H|H]; [|exact H].
  apply same_key_false in K. congruence.
Qed.

Lemma upsert_app_table rows rest : forall tbl,
  (forall k, In k (keys rows) -> In k (keys tbl)) ->
  upsert rows (tbl ++ rest) = upsert rows tbl ++ rest.
Proof.
  induction rows as [|a rows IH]; intros tbl H; [reflexivity|].
  change (upsert (a :: rows) ?t) with (upsert rows (upsert_row a t)).
  rewrite upsert_row_app by (apply H; now left).
  apply IH. intros k Hk. apply upsert_row_keys. right. apply H. now right.
Qed.

(** The batch upsert is idempotent. *)
Lemma upsert_idempotent rows : forall tbl,
  upsert rows (upsert rows tbl) = upsert rows tbl.
Proof.
  induction rows as [|r rows IH] using rev_ind; intros tbl; [reflexivity|].
  assert (forall t, upsert (rows ++ [r]) t = upsert_row r (upsert rows t)) as S
    by (intros t; now rewrite upsert_app).
  rewrite !S.
  set (U := upsert rows tbl).
  destruct (in_dec (fun a b => decide (a = b)) (conflict_key r) (keys U))
    as [H|H].
  - rewrite upsert_absorbs by exact H. unfold U. now rewrite IH.
  - rewrite (upsert_row_absent r U H).
    rewrite upsert_app_table
      by (intros k Hk; apply upsert_keys; now left).
    unfold U. rewrite IH. fold U.
    rewrite <- (upsert_row_absent r U H). apply upsert_row_twice.
Qed.

Lemma upsert_row_without_created_at r tbl :
  map without_created_at (upsert_row r tbl)
  = upsert_row (without_created_at r) (map without_created_at tbl).
Proof.
  induction tbl as [|x tbl IH]; simpl; [reflexivity|].
  change (same_key (without_created_at x) (without_created_at r))
    with (same_key x r).
  destruct (same_key x r); simpl; [reflexivity|]. now rewrite IH.
Qed.

Lemma upsert_without_created_at rows : forall tbl,
  map without_created_at (upsert rows tbl)
  = upsert (map without_created_at rows) (map without_created_at tbl).
Proof.
  induction rows as [|r rows IH]; intros tbl; [reflexivity|].
  change (upsert (r :: rows) tbl) with (upsert rows (upsert_row r tbl)).
  rewrite IH, upsert_row_without_created_at. reflexivity.
Qed.

(** Apart from [created_at], a mapped row does not depend on the clock. *)
Lemma toInternal_data h1 h2 userId event r1 r2 :
  LocalTZA h2 = LocalTZA h1 ->
  toInternal h1 userId event = Ok r1 ->
  toInternal h2 userId event = Ok r2 ->
  without_created_at r2 = without_created_at r1.
Proof.
  intros Z. rewrite !toInternal_run. unfold Date_ofString. rewrite Z.
  destruct (RemoteEvent.dateTime _) as [[|c s]|].
  - intros [= <-] [= <-]. reflexivity.
  - destruct (Date_parse _ _) as [t|]; [|discriminate].
    intros [= <-] [= <-]. reflexivity.
  - intros [= <-] [= <-]. reflexivity.
Qed.

Lemma traverse_data h1 h2 userId items : forall rows1 rows2,
  LocalTZA h2 = LocalTZA h1 ->
  traverse (toInternal h1 userId) items = Ok rows1 ->
  traverse (toInternal h2 userId) items = Ok rows2 ->
  map without_created_at rows2 = map without_created_at rows1.
Proof.
  induction items as [|e items IH]; intros rows1 rows2 Z; simpl.
  - intros [= <-] [= <-]. reflexivity.
  - destruct (toInternal h1 userId e) as [r1|] eqn:E1; [|discriminate].
    destruct (toInternal h2 userId e) as [r2|] eqn:E2; [|discriminate].
    destruct (traverse (toInternal h1 userId) items) as [l1|]; [|discriminate].
    destruct (traverse (toInternal h2 userId) items) as [l2|]; [|discriminate].
    intros [= <-] [= <-]. simpl. f_equal.
    + exact (toInternal_data h1 h2 userId e r1 r2 Z E1 E2).
    + now apply IH.
Qed.

(** X28. A second pull of the same remote events changes nothing but
    [created_at].  When a pull has succeeded and a second pull is given the
    same remote events in the same time zone, at whatever time, the event
    table has afterwards the same rows in the same order, column by column,
    except for [created_at]; this also when the second pull throws. *)
Theorem second_pull_changes_only_created_at (h1 h2 : Host)
    (userId calendarId : string) (startDate endDate : option string)
    (w : World) (r1 : SyncResult) :
  fst (syncEventsToDatabaseFromDatabase h1 userId calendarId startDate endDate w)
  = Ok r1 ->
  LocalTZA h2 = LocalTZA h1 ->
  (forall params items, events_list h2 params = Ok items -> items = events r1) ->
  let w1 := snd (syncEventsToDatabaseFromDatabase h1 userId calendarId
                   startDate endDate w) in
  let w2 := snd (syncEventsToDatabaseFromDatabase h2 userId calendarId
                   startDate endDate w1) in
  map without_created_at (calendar_events w2)
  = map without_created_at (calendar_events w1).
Proof.
  intros Hok Htz Hsame w1 w2.
  pose proof (sync_outcome h1 userId calendarId startDate endDate w) as O1.
  cbv zeta in O1. rewrite Hok in O1. fold w1 in O1.
  destruct O1 as (_ & _ & rows1 & T1 & E1).
  pose proof (sync_outcome h2 userId calendarId startDate endDate w1) as O2.
  cbv zeta in O2. fold w2 in O2.
  destruct (fst (syncEventsToDatabaseFromDatabase h2 _ _ _ _ w1)) as [r2|e];
    [|now rewrite O2].
  destruct O2 as (_ & (params & L) & rows2 & T2 & E2).
  rewrite (Hsame params _ L) in T2.
  rewrite E2, E1, !upsert_without_created_at.
  rewrite (traverse_data h1 h2 userId (events r1) rows1 rows2 Htz T1 T2).
  apply upsert_idempotent.
Qed.
End SyncRows.

(** * The routes *)

(** ** The token table under upsert and delete *)

Module TokenStoreFacts.
Import TokenStore.

Lemma no_match u tbl :
  ~ In u (map TokenRow.user_id tbl) ->
  filter (fun r => String.eqb (TokenRow.user_id r) u) tbl = [].
Proof.
  induction tbl as [|x tbl IH]; [reflexivity|]. simpl. intros N.
  rewrite filter_cons.
  destruct (decide (String.eqb (TokenRow.user_id x) u)) as [T|F]; [|apply IH; tauto].
  apply Is_true_true, String.eqb_eq in T. tauto.
Qed.

Lemma single_none u tbl :
  ~ In u (map TokenRow.user_id tbl) ->
  forall r, Store.single u tbl <> Data r.
Proof. intros N r. unfold Store.single. now rewrite no_match. Qed.

Lemma delete_users u tbl v :
  In v (map TokenRow.user_id (delete u tbl))
  <-> In v (map TokenRow.user_id tbl) /\ v <> u.
Proof.
  unfold delete. induction tbl as [|x tbl IH]; simpl; [tauto|].
  rewrite filter_cons.
  destruct (decide (negb (String.eqb (TokenRow.user_id x) u))) as [T|F].
  - apply Is_true_true, negb_true_iff, String.eqb_neq in T. simpl.
    rewrite IH. intuition congruence.
  - assert (TokenRow.user_id x = u) as E.
    { destruct (String.eqb_spec (TokenRow.user_id x) u); [assumption|].
      exfalso. apply F. exact I. }
    rewrite IH. intuition congruence.
Qed.

Lemma delete_rows u tbl r :
  In r (delete u tbl) <-> In r tbl /\ TokenRow.user_id r <> u.
Proof.
  unfold delete. rewrite <- !list_elem_of_In, list_elem_of_filter.
  rewrite Is_true_true, negb_true_iff, String.eqb_neq. tauto.
Qed.

Lemma delete_absent u tbl :
  ~ In u (map TokenRow.user_id tbl) -> delete u tbl = tbl.
Proof.
  unfold delete. induction tbl as [|x tbl IH]; [reflexivity|]. simpl. intros N.
  rewrite filter_cons.
  destruct (decide (negb (String.eqb (TokenRow.user_id x) u))) as [T|F].
  - f_equal. apply IH. tauto.
  - exfalso. apply F, Is_true_true, negb_true_iff, String.eqb_neq. tauto.
Qed.

Lemma delete_twice u tbl : delete u (delete u tbl) = delete u tbl.
Proof. apply delete_absent. rewrite delete_users. tauto. Qed.

Lemma delete_unique u tbl : unique tbl -> unique (delete u tbl).
Proof.
  unfold unique, delete. induction tbl as [|x tbl IH]; simpl; [auto|].
  intros N. apply List.NoDup_cons_iff in N as [N1 N2]. rewrite filter_cons.
  destruct (decide _) as [T|F]; [|auto]. simpl.
  apply List.NoDup_cons_iff. split; [|auto].
  intros H. apply N1. now apply (delete_users u tbl) in H.
Qed.

Lemma upsert_users row tbl v :
  In v (map TokenRow.user_id (upsert row tbl))
  <-> v = TokenRow.user_id row \/ In v (map TokenRow.user_id tbl).
Proof.
  induction tbl as [|x tbl IH]; simpl; [intuition|].
  destruct (String.eqb_spec (TokenRow.user_id x) (TokenRow.user_id row)) as [E|N];
    simpl.
  - rewrite E. intuition.
  - rewrite IH. intuition.
Qed.

Lemma upsert_unique row tbl : unique tbl -> unique (upsert row tbl).
Proof.
  unfold unique. induction tbl as [|x tbl IH]; simpl.
  - intros _. repeat constructor. simpl. tauto.
  - intros N. apply List.NoDup_cons_iff in N as [N1 N2].
    destruct (String.eqb_spec (TokenRow.user_id x) (TokenRow.user_id row)) as [E|D];
      simpl; apply List.NoDup_cons_iff.
    + rewrite <- E. auto.
    + split; [|auto]. rewrite upsert_users. intuition.
Qed.

(** In a table with one row per user, the row saved last is the one the
    single-row select answers with. *)
Lemma upsert_single row tbl :
  unique tbl -> Store.single (TokenRow.user_id row) (upsert row tbl) = Data row.
Proof.
  unfold unique, Store.single. intros N.
  assert (filter (fun r => String.eqb (TokenRow.user_id r) (TokenRow.user_id row))
                 (upsert row tbl) = [row]) as ->; [|reflexivity].
  induction tbl as [|x tbl IH]; simpl.
  - rewrite filter_cons.
    destruct (decide _) as [T|F]; [reflexivity|].
    exfalso. apply F, Is_true_true, String.eqb_refl.
  - simpl in N. apply List.NoDup_cons_iff in N as [N1 N2].
    destruct (String.eqb_spec (TokenRow.user_id x) (TokenRow.user_id row)) as [E|D].
    + rewrite filter_cons.
      destruct (decide _) as [T|F].
      * f_equal. apply no_match. now rewrite <- E.
      * exfalso. apply F, Is_true_true, String.eqb_refl.
    + rewrite filter_cons.
      destruct (decide _) as [T|F]; [|auto].
      apply Is_true_true, String.eqb_eq in T. contradiction.
Qed.

Lemma upsert_rows row tbl r :
  TokenRow.user_id r <> TokenRow.user_id row ->
  In r (upsert row tbl) <-> In r tbl.
Proof.
  intros D. induction tbl as [|x tbl IH]; simpl.
  - intuition congruence.
  - destruct (String.eqb_spec (TokenRow.user_id x) (TokenRow.user_id row)) as [E|N];
      simpl; [|rewrite IH; tauto].
    intuition congruence.
Qed.

End TokenStoreFacts.

(** ** The routes of [routes/auth.js] and the status route *)

Section AuthRoutes.
Import JsDate JsString JsDateString TokenStore TokenStoreFacts.

(** X13. The status route always answers 200.  Whatever the user id and
    whatever the store does, [GET /connection-status/:userId] answers with
    status 200 and [success: true] beside the members of the status
    object, [connected] among them; its 500 branch is never taken, since
    the probe does not throw.  It makes no call but the probe's. *)
Theorem connection_status_route_answers (host : Host) (userId : string)
    (s : Server) :
  let routed := get_connection_status host userId s in
  let probe := getUserConnectionStatusFromDatabase host userId (state s) in
  snd routed = mkServer (snd probe) (requests s)
  /\ Http.status (fst routed) = 200
  /\ Json.member "success" (Http.body (fst routed)) = Some (Json.boolean true)
  /\ exists st,
      fst probe = Ok st
      /\ Json.member "connected" (Http.body (fst routed))
         = Some (Json.boolean (Status.connected st))
      /\ Json.member "lastSync" (Http.body (fst routed))
         = Json.of_value (Status.lastSync st)
      /\ Json.member "needsRefresh" (Http.body (fst routed))
         = Json.of_value (Status.needsRefresh st).
Proof.
  cbv zeta. unfold get_connection_status, handler, andThen, perform, answer.
  destruct (status_never_throws host userId (state s)) as (st & Hst).
  destruct (getUserConnectionStatusFromDatabase host userId (state s))
    as [[st'|e] w'] eqn:P; cbn [fst snd] in *; [|discriminate].
  injection Hst as ->.
  split; [reflexivity|]. split; [reflexivity|]. split; [reflexivity|].
  exists st. split; [reflexivity|].
  unfold Http.json, Json.literal, status_members. cbn [Http.body].
  destruct (Status.lastSync st), (Status.needsRefresh st), (Status.error st);
    cbn; auto.
Qed.

Lemma tokens_route_run (host : Host) (userId : string) (s : Server) :
  userId <> EmptyString ->
  store_fault host (SelectToken userId) = NoFault ->
  get_google_tokens host userId s
  = (match Store.single userId (google_calendar_tokens (state s)) with
     | Data r => Http.json (tokens_body r)
     | StoreError _ => Http.error 404 "No tokens found"
     end,
     mkServer (logged (state s) [SelectToken userId]) (requests s)).
Proof.
  intros Hu Hf. unfold get_google_tokens, handler, andThen, perform, answer.
  destruct userId as [|a u]; [congruence|]. cbn [truthy negb].
  rewrite select_token_run, Hf.
  destruct (Store.single _ _); reflexivity.
Qed.

(** X14. The tokens route hands out the stored row as it is.
    [GET /google/tokens/:userId] makes one select and nothing else.  It
    answers with the four columns of the user's single row, expired or
    not, and with 404 "No tokens found" when there is no such row.
    Whenever [getUserTokensFromDatabase] returns stored tokens for the same
    state, the route's [tokens] object has the same four values. *)
Theorem tokens_route_returns_stored (host : Host) (userId : string) (s : Server) :
  userId <> EmptyString ->
  store_fault host (SelectToken userId) = NoFault ->
  let routed := get_google_tokens host userId s in
  let found := Store.single userId (google_calendar_tokens (state s)) in
  snd routed = mkServer (logged (state s) [SelectToken userId]) (requests s)
  /\ (forall r, found = Data r -> fst routed = Http.json (tokens_body r))
  /\ ((forall r, found <> Data r) ->
      fst routed = Http.error 404 "No tokens found")
  /\ (forall a rt e u w',
      getUserTokensFromDatabase host userId (state s)
      = (Ok (StoredTokens a rt e u), w') ->
      Json.member "tokens" (Http.body (fst routed))
      = Some (Json.object
                [ ("access_token", Json.of_column a);
                  ("refresh_token", Json.of_column rt);
                  ("expiry_date", Json.of_column e);
                  ("user_id", Json.text u) ])).
Proof.
  intros Hu Hf routed found.
  assert (routed
          = (match found with
             | Data r => Http.json (tokens_body r)
             | StoreError _ => Http.error 404 "No tokens found"
             end,
             mkServer (logged (state s) [SelectToken userId]) (requests s))) as R.
  { subst routed found. now apply tokens_route_run. }
  rewrite R. cbn [fst snd]. split; [reflexivity|]. split; [|split].
  - intros r ->. reflexivity.
  - intros N. destruct found as [r|msg]; [now destruct (N r)|reflexivity].
  - intros a rt e u w'. rewrite (getUserTokens_run host userId _ Hu), Hf.
    cbv zeta. fold found. destruct found as [r|msg]; [|discriminate].
    destruct (resolve_row_cases host userId (logged (state s) [SelectToken userId]) r)
      as [(E & ->)|[(E & T & ->)|(E & T & rt' & Ht & Hn & ->)]].
    + intros [= <- <- <- <- _]. reflexivity.
    + discriminate.
    + destruct (refreshUserTokensFromDatabase _ _ _ _) as [[c|err] w2]; discriminate.
Qed.

(** X15. Disconnecting removes the credential, and only that.  When the
    store takes the delete, [DELETE /google/disconnect/:userId] answers
    200, whether or not the user had a row; afterwards the table holds
    exactly the rows of the other users.  A second disconnect gives the
    same answer and changes nothing.  From then on, for any clock:
    [getUserTokensFromDatabase] throws "No Google tokens found in
    database", the status probe reports [connected: false], the tokens
    route answers 404 and so does the refresh route. *)
Theorem disconnect_removes_credentials (services : Services) (userId : string)
    (s : Server) :
  userId <> EmptyString ->
  request_fault services (DeleteToken userId) = NoFault ->
  let routed := delete_google_disconnect services userId s in
  let tbl := google_calendar_tokens (state s) in
  let tbl' := google_calendar_tokens (state (snd routed)) in
  Http.status (fst routed) = 200
  /\ (forall r, In r tbl' <-> In r tbl /\ TokenRow.user_id r <> userId)
  /\ delete_google_disconnect services userId (snd routed)
     = (fst routed, posted (snd routed) [DeleteToken userId])
  /\ forall host w,
      google_calendar_tokens w = tbl' ->
      store_fault host (SelectToken userId) = NoFault ->
      getUserTokensFromDatabase host userId w
      = (Throw (Err "No Google tokens found in database"),
         logged w [SelectToken userId])
      /\ (exists st, fst (getUserConnectionStatusFromDatabase host userId w) = Ok st
                     /\ Status.connected st = false)
      /\ (forall qs, fst (get_google_tokens host userId (mkServer w qs))
                     = Http.error 404 "No tokens found")
      /\ fst (post_google_refresh host userId w)
         = mkResponse 404 (ErrorBody "No refresh token found").
Proof.
  intros Hu Hf routed tbl tbl'.
  assert (routed
          = (Http.json (Json.object
               [ ("success", Json.boolean true);
                 ("message", Json.text "Google Calendar disconnected successfully") ]),
             mkServer (mkWorld (delete userId tbl) (calendar_events (state s))
                               (oauth2Client (state s)) (calls (state s)))
                      (requests s ++ [DeleteToken userId]))) as R.
  { subst routed tbl.
    unfold delete_google_disconnect, handler, andThen, delete_token, answer.
    destruct userId as [|a u]; [congruence|]. cbn [truthy negb].
    rewrite Hf. reflexivity. }
  assert (tbl' = delete userId tbl) as T by (subst tbl'; rewrite R; reflexivity).
  split; [rewrite R; reflexivity|]. split; [|split].
  - intros r. rewrite T. apply delete_rows.
  - rewrite R. cbn [fst snd].
    unfold delete_google_disconnect, handler, andThen, delete_token, answer, posted.
    destruct userId as [|a u]; [congruence|]. cbn [truthy negb].
    rewrite Hf. cbn [state requests google_calendar_tokens calendar_events
                     oauth2Client calls].
    rewrite delete_twice. reflexivity.
  - intros host w Hw Hs.
    assert (forall r, Store.single userId (google_calendar_tokens w) <> Data r) as N.
    { rewrite Hw, T. apply single_none. rewrite delete_users. tauto. }
    assert (exists msg, Store.single userId (google_calendar_tokens w)
                        = StoreError msg) as (msg & S).
    { destruct (Store.single userId (google_calendar_tokens w)) as [r|msg] eqn:S;
        [now destruct (N r)|eauto]. }
    split; [|split; [|split]].
    + rewrite (getUserTokens_run host userId w Hu), Hs, S. reflexivity.
    + destruct (status_never_throws host userId w) as (st & Hst).
      exists st. split; [exact Hst|].
      apply (status_not_connected host userId w st Hst). auto.
    + intros qs. rewrite (tokens_route_run host userId _ Hu Hs).
      cbn [state fst]. now rewrite S.
    + rewrite (refresh_route_not_found host userId w Hu Hs);
        [reflexivity|]. intros r Hr. now destruct (N r).
Qed.

(** Whether the row saved by the callback is expired. *)
Lemma callback_row_expired host userId tokens expiry :
  expiry_column (Credentials.expiry_date tokens) = Ok expiry ->
  Js.ToBoolean (isExpired host (callback_row userId tokens expiry))
  = match Credentials.expiry_date tokens with
    | Some n => negb (n =? 0) && (n <? now host)
    | None => false
    end.
Proof.
  intros X. destruct (Credentials.expiry_date tokens) as [n|].
  - destruct (Z.eqb_spec n 0) as [->|N].
    + cbn in X. injection X as <-. reflexivity.
    + destruct (expiry_column_number n expiry X N) as [B ->].
      now apply isExpired_iso.
  - cbn in X. injection X as <-. reflexivity.
Qed.

(** X16. The callback connects the user.  When the code is exchanged for
    tokens that carry a refresh token and the store takes the row, [GET
    /google/callback] answers 200 after exactly two requests, the exchange
    and the upsert; in a table with one row per user, the user's single row
    is then the one built from the tokens (with the generated email and the
    expiry as an ISO string), and the rows of the other users are as they
    were.  (Tokens without a refresh token are left aside: what the store
    keeps of a column that the upsert does not send is not modelled.)  From then on the tokens
    route hands out that row; the status probe reports [connected: true]
    as soon as the tokens carry a refresh token, or no expiry, or an expiry
    not before the clock; and in the last two cases
    [getUserTokensFromDatabase] returns the saved tokens after a single
    select. *)
Theorem callback_stores_credentials (services : Services) (code userId : string)
    (s : Server) (tokens : Credentials.t) (rt : string) (expiry : option string) :
  code <> EmptyString -> userId <> EmptyString ->
  getToken services code = Ok tokens ->
  Credentials.refresh_token tokens = Some rt ->
  expiry_column (Credentials.expiry_date tokens) = Ok expiry ->
  request_fault services (UpsertToken (callback_row userId tokens expiry)) = NoFault ->
  unique (google_calendar_tokens (state s)) ->
  let routed := get_google_callback services (Some code) (Some userId) s in
  let saved := callback_row userId tokens expiry in
  let tbl := google_calendar_tokens (state s) in
  let tbl' := google_calendar_tokens (state (snd routed)) in
  Http.status (fst routed) = 200
  /\ requests (snd routed) = requests s ++ [GetToken code; UpsertToken saved]
  /\ Store.single userId tbl' = Data saved
  /\ (forall r, TokenRow.user_id r <> userId -> In r tbl' <-> In r tbl)
  /\ forall host w,
      google_calendar_tokens w = tbl' ->
      store_fault host (SelectToken userId) = NoFault ->
      (forall qs, fst (get_google_tokens host userId (mkServer w qs))
                  = Http.json (tokens_body saved))
      /\ (truthy (Credentials.refresh_token tokens) = true
          \/ Credentials.expiry_date tokens = None
          \/ (exists n, Credentials.expiry_date tokens = Some n /\ now host <= n) ->
          exists st, fst (getUserConnectionStatusFromDatabase host userId w) = Ok st
                     /\ Status.connected st = true)
      /\ (Credentials.expiry_date tokens = None
          \/ (exists n, Credentials.expiry_date tokens = Some n /\ now host <= n) ->
          getUserTokensFromDatabase host userId w
          = (Ok (StoredTokens (Some (Credentials.access_token tokens))
                              (Credentials.refresh_token tokens) expiry userId),
             logged w [SelectToken userId])).
Proof.
  intros Hc Hu Hg _ Hx Hf Huniq routed saved tbl tbl'.
  assert (routed
          = (Http.json (Json.object
               [ ("success", Json.boolean true);
                 ("message", Json.text "Google Calendar connected successfully");
                 ("redirectUrl", Json.text "/projects") ]),
             mkServer (mkWorld (upsert saved tbl) (calendar_events (state s))
                               (Some (RefreshedCredentials tokens))
                               (calls (state s)))
                      (requests s ++ [GetToken code; UpsertToken saved]))) as R.
  { subst routed saved tbl.
    unfold get_google_callback, handler, andThen, oauth2Client_getToken,
      fromResult, upsert_token, perform, setCredentials, answer, posted.
    destruct code as [|c cs]; [congruence|].
    destruct userId as [|u us]; [congruence|].
    rewrite Hg, Hx, Hf.
    cbn [state requests google_calendar_tokens calendar_events oauth2Client calls].
    rewrite <- app_assoc. reflexivity. }
  assert (tbl' = upsert saved tbl) as T by (subst tbl'; rewrite R; reflexivity).
  assert (Store.single userId tbl' = Data saved) as S
    by (rewrite T; apply (upsert_single saved tbl Huniq)).
  split; [rewrite R; reflexivity|]. split; [rewrite R; reflexivity|].
  split; [exact S|]. split.
  - intros r D. rewrite T. now apply upsert_rows.
  - intros host w Hw Hs. rewrite <- Hw in S.
    pose proof (callback_row_expired host userId tokens expiry Hx) as E.
    fold saved in E.
    split; [|split].
    + intros qs. rewrite (tokens_route_run host userId _ Hu Hs).
      cbn [state fst]. now rewrite S.
    + intros C.
      destruct (status_tri_state host userId w saved Hu Hs S)
        as (st & Hst & Hcon & _). cbv zeta in Hcon.
      exists st. split; [exact Hst|]. rewrite Hcon, E.
      cbn [saved callback_row TokenRow.refresh_token].
      destruct C as [C|[C|(n & C & L)]].
      * rewrite C. apply orb_true_r.
      * rewrite C. reflexivity.
      * rewrite C. apply Z.ltb_ge in L. rewrite L, andb_false_r. reflexivity.
    + intros C.
      rewrite (getUserTokens_run host userId w Hu), Hs, S. cbv zeta.
      unfold resolve_row. rewrite E.
      destruct C as [C|(n & C & L)]; rewrite C; [reflexivity|].
      apply Z.ltb_ge in L. rewrite L, andb_false_r. reflexivity.
Qed.

(** X26. A callback that does not answer 200 stores nothing.  [GET
    /google/callback] answers 400 "Authorization code is required" when the
    code is absent or empty, and 400 "User ID is required" when the code is
    there but the state is not, in both cases without any request.
    Whenever its answer is not 200, the token table and the authorization
    client are as they were.  When the exchange of the code throws, the
    answer is 500 "Failed to complete OAuth flow" with the message of the
    error, after that one request. *)
Theorem callback_failure_stores_nothing (services : Services)
    (code state_ : option string) (s : Server) :
  let routed := get_google_callback services code state_ s in
  (truthy code = false ->
   routed = (Http.error 400 "Authorization code is required", s))
  /\ (truthy code = true -> truthy state_ = false ->
      routed = (Http.error 400 "User ID is required", s))
  /\ (Http.status (fst routed) <> 200 ->
      google_calendar_tokens (state (snd routed))
      = google_calendar_tokens (state s)
      /\ oauth2Client (state (snd routed)) = oauth2Client (state s))
  /\ (forall c e, code = Some c -> truthy code = true -> truthy state_ = true ->
      getToken services c = Throw e ->
      routed = (Http.failure "Failed to complete OAuth flow" e,
                posted s [GetToken c])).
Proof.
  cbv zeta. unfold get_google_callback.
  destruct code as [[|c cs]|];
    try (repeat split; try reflexivity; try discriminate; intros; discriminate).
  destruct state_ as [[|u us]|];
    try (repeat split; try reflexivity; try discriminate; intros; discriminate).
  unfold handler, andThen, oauth2Client_getToken, fromResult, upsert_token,
    perform, setCredentials, answer, posted.
  split; [discriminate|]. split; [discriminate|].
  destruct (getToken services (String c cs)) as [tokens|e] eqn:G.
  - split; [|intros c' e' [= <-] _ _ G'; congruence].
    destruct (expiry_column _) as [expiry|e]; [|destruct e; cbn; auto].
    destruct (request_fault services _) as [|msg|msg]; cbn; auto.
    intros N. now destruct N.
  - split; [destruct e; cbn; auto|].
    intros c' e' [= <-] _ _ G'. rewrite G in G'. injection G' as <-. reflexivity.
Qed.

(** X17. One row per user is kept.  A token table with one row per user
    still has one row per user after the callback (whatever its query),
    after a disconnect, after the refresh route, after a credential
    resolution (with or without a refresh) and after a pull. *)
Theorem credential_table_stays_unique (host : Host) (services : Services)
    (userId : string) (s : Server) :
  unique (google_calendar_tokens (state s)) ->
  (forall code state_,
     unique (google_calendar_tokens
               (state (snd (get_google_callback services code state_ s)))))
  /\ unique (google_calendar_tokens
               (state (snd (delete_google_disconnect services userId s))))
  /\ unique (google_calendar_tokens
               (snd (post_google_refresh host userId (state s))))
  /\ unique (google_calendar_tokens
               (snd (getUserTokensFromDatabase host userId (state s))))
  /\ (forall calendarId startDate endDate,
      unique (google_calendar_tokens
                (snd (syncEventsToDatabaseFromDatabase host userId calendarId
                        startDate endDate (state s))))).
Proof.
  intros U.
  assert (forall tbl', refresh_frame (google_calendar_tokens (state s)) tbl' ->
                       unique tbl') as Frame.
  { intros tbl' F. unfold unique in *.
    assert (map TokenRow.user_id tbl'
            = map TokenRow.user_id (google_calendar_tokens (state s))) as ->;
      [|exact U].
    clear U. induction F as [|r r' l l' (E & _) _ IH]; [reflexivity|].
    simpl. now rewrite E, IH. }
  split; [|split; [|split; [|split]]].
  - intros code state_.
    unfold get_google_callback, handler, andThen, oauth2Client_getToken,
      fromResult, upsert_token, perform, setCredentials, answer, posted.
    destruct code as [[|c cs]|]; try exact U.
    destruct state_ as [[|u us]|]; try exact U.
    destruct (getToken services _) as [tokens|e]; [|exact U].
    destruct (expiry_column _) as [expiry|e]; [|exact U].
    destruct (request_fault services _); try exact U.
    cbn. now apply upsert_unique.
  - unfold delete_google_disconnect, handler, andThen, delete_token, answer, posted.
    destruct userId as [|a u]; [exact U|]. cbn [truthy negb].
    destruct (request_fault services _); try exact U.
    cbn. now apply delete_unique.
  - apply Frame. apply (route_preserves host userId (state s)).
  - apply Frame. apply (resolve_preserves host userId (state s)).
  - intros calendarId startDate endDate.
    rewrite sync_run.
    unfold getCalendarClientFromDatabase, bind, setCredentials.
    pose proof (resolve_preserves host userId (state s)) as [P _]. cbv zeta in P.
    destruct (getUserTokensFromDatabase host userId (state s)) as [[tok|e] w0];
      cbn [snd] in P; [|now apply Frame].
    cbn [google_calendar_tokens calendar_events oauth2Client calls].
    destruct (window_bound host startDate _); [|now apply Frame].
    destruct (window_bound host endDate _); [|now apply Frame].
    cbv zeta. destruct (events_list host _); [|now apply Frame].
    destruct (traverse _ _); [|now apply Frame].
    destruct (store_fault host _); now apply Frame.
Qed.

End AuthRoutes.

(** ** The routes of [routes/googleCalendar.js] *)

Section CalendarRoutes.
Import JsDate JsString JsDateString.

Variable host : Host.
Variable services : Services.

(** A handler step that first resolves the calendar client. *)
Lemma with_client {A} userId (k : R A) s :
  andThen (perform (getCalendarClientFromDatabase host userId)) (fun _ => k) s
  = match getCalendarClientFromDatabase host userId (state s) with
    | (Ok _, w0) => k (mkServer w0 (requests s))
    | (Throw e, w0) => (Throw e, mkServer w0 (requests s))
    end.
Proof.
  unfold andThen, perform.
  destruct (getCalendarClientFromDatabase host userId (state s)) as [[[]|e] w0];
    reflexivity.
Qed.

(** The client is not set when the tokens do not resolve. *)
Lemma client_fails userId w err w0 :
  getUserTokensFromDatabase host userId w = (Throw err, w0) ->
  getCalendarClientFromDatabase host userId w = (Throw err, w0).
Proof.
  intros E. unfold getCalendarClientFromDatabase, bind. now rewrite E.
Qed.


(** X19. What the add route sends.  With a title and a date in the body,
    the route leaves the tables, the client and the calls as
    [getCalendarClientFromDatabase] leaves them.  When the client resolves
    and [formatEventForGoogleCalendar] returns a draft, exactly one request
    goes to the calendar service: the insert of that draft, into the
    calendar of the body or into "primary", with the credentials just set
    on the client; the answer is the service's, or 500 with its error.
    When the client does not resolve, or the draft cannot be built (a
    [due_date] that is not a date), nothing is sent and the answer is 500
    with the message of the error. *)
Theorem add_event_sends_draft (userId : string) (e : EventBody.t)
    (calendarId : option string) (s : Server) (title date : string) :
  EventBody.title e = Member.text title -> title <> EmptyString ->
  EventBody.due_date e = Member.text date -> date <> EmptyString ->
  let eventData :=
    EventData.mk title (Member.text_of (EventBody.description e))
                 (Member.text_of (EventBody.location e))
                 date (Member.text_of (EventBody.due_time e)) in
  let message := "Failed to add event to Google Calendar" in
  let routed :=
    post_add_to_google_calendar host services userId (Some e) calendarId s in
  let resolved := getCalendarClientFromDatabase host userId (state s) in
  state (snd routed) = snd resolved
  /\ match fst resolved, formatEventForGoogleCalendar host eventData with
     | Ok _, Ok g =>
         let q := EventsInsert (oauth2Client (snd resolved))
                               (default "primary" calendarId) g in
         requests (snd routed) = requests s ++ [q]
         /\ fst routed
            = match calendar_api services q with
              | Ok data =>
                  written "Event added to Google Calendar successfully" data
              | Throw err => Http.failure message err
              end
     | Ok _, Throw err | Throw err, _ =>
         requests (snd routed) = requests s
         /\ fst routed = Http.failure message err
     end.
Proof.
  intros Ht Hne Hd Hde. cbv zeta. unfold post_add_to_google_calendar.
  rewrite Ht, Hd. cbn [Member.text_of].
  destruct title as [|c t]; [congruence|].
  destruct date as [|c' d]; [congruence|].
  unfold handler. rewrite with_client.
  destruct (getCalendarClientFromDatabase host userId (state s)) as [[[]|err] w0];
    cbn [fst snd]; [|auto].
  unfold andThen, fromResult, calendar_request, answer, posted.
  cbn [state requests].
  destruct (formatEventForGoogleCalendar host _) as [g|err]; [|auto].
  destruct (calendar_api services _) as [data|err]; auto.
Qed.

(** The update route computes the instants of the add route. *)
Lemma patch_times_event_times e title date :
  EventBody.due_date e = Member.text date ->
  patch_times host e
  = event_times host (EventData.mk title
                        (Member.text_of (EventBody.description e))
                        (Member.text_of (EventBody.location e)) date
                        (Member.text_of (EventBody.due_time e))).
Proof.
  intros Hd. unfold patch_times, event_times, Date_ofMember.
  cbn [EventData.due_date EventData.due_time]. rewrite Hd.
  destruct (EventBody.due_time e); reflexivity.
Qed.

(** X20. The update route builds the event of the add route, without the
    reminders.  For a body with a title and a date, [PUT
    /update-event/:eventId/:userId] leaves the same state as the add route
    does; where the add route inserts a draft, the update route sends, for
    [eventId], into the same calendar and with the same credentials, the
    summary, description, location, start and end of that draft; and where
    the add route sends nothing, neither does the update route. *)
Theorem update_event_matches_add (eventId userId : string) (e : EventBody.t)
    (calendarId : option string) (s : Server) (title date : string) :
  EventBody.title e = Member.text title -> title <> EmptyString ->
  EventBody.due_date e = Member.text date -> date <> EmptyString ->
  let added :=
    post_add_to_google_calendar host services userId (Some e) calendarId s in
  let updated :=
    put_update_event host services eventId userId (Some e) calendarId s in
  state (snd updated) = state (snd added)
  /\ (forall auth cal g,
      requests (snd added) = requests s ++ [EventsInsert auth cal g] ->
      requests (snd updated)
      = requests s ++ [EventsUpdate auth cal eventId
                         (EventPatch.mk (Member.text title)
                            (GoogleEvent.description g) (GoogleEvent.location g)
                            (GoogleEvent.start g) (GoogleEvent.end_ g))])
  /\ (requests (snd added) = requests s -> requests (snd updated) = requests s).
Proof.
  intros Ht Hne Hd Hde. cbv zeta.
  unfold post_add_to_google_calendar, put_update_event.
  rewrite Ht, Hd. cbn [Member.text_of].
  destruct title as [|c t]; [congruence|].
  destruct date as [|c' d]; [congruence|].
  unfold handler. rewrite !with_client.
  assert (forall (l : list Request) q, l <> l ++ [q]) as Grown.
  { intros l q E. apply (f_equal (@length _)) in E.
    rewrite length_app in E. simpl in E. lia. }
  destruct (getCalendarClientFromDatabase host userId (state s)) as [[[]|err] w0];
    cbn [fst snd]; [|split; [reflexivity|split; [|reflexivity]]].
  2:{ intros auth cal g E. cbn [requests] in E. now apply Grown in E. }
  unfold andThen, fromResult, calendar_request, answer, posted, patch_of.
  rewrite (patch_times_event_times e (String c t) (String c' d) Hd), Ht.
  rewrite format_run.
  cbn [state requests].
  destruct (event_times host _) as [[a|] [b|]]; cbn [toISOString_or_throw].
  - unfold toISOString_or_throw. rewrite !IsoFacts.toISOString_Some.
    destruct (calendar_api services (EventsInsert _ _ _)),
      (calendar_api services (EventsUpdate _ _ _ _)); cbn [fst snd state requests];
      (split; [reflexivity|]); (split;
        [intros auth cal g E; apply app_inv_head in E; injection E as <- <- <-;
         reflexivity
        |intros E; symmetry in E; now apply Grown in E]).
  - unfold toISOString_or_throw. rewrite !IsoFacts.toISOString_Some. cbn.
    split; [reflexivity|]. split; [|reflexivity].
    intros auth cal g E. now apply Grown in E.
  - cbn. split; [reflexivity|]. split; [|reflexivity].
    intros auth cal g E. now apply Grown in E.
  - cbn. split; [reflexivity|]. split; [|reflexivity].
    intros auth cal g E. now apply Grown in E.
Qed.

(** Without a [due_time], and with a [due_date] that is absent or empty,
    neither instant of the update route is a date. *)
Lemma patch_of_without_date e :
  truthy (Member.text_of (EventBody.due_time e)) = false ->
  EventBody.due_date e = Member.absent
  \/ EventBody.due_date e = Member.text EmptyString ->
  patch_of host e = Throw (Err "Invalid time value").
Proof.
  intros Ht Hd. unfold patch_of, patch_times, Date_ofMember. rewrite Ht.
  destruct Hd as [-> | ->]; reflexivity.
Qed.

(** Without a [due_time], and with [null] for [due_date], the event of the
    update route is the first day of 1970. *)
Lemma patch_of_null_date e :
  truthy (Member.text_of (EventBody.due_time e)) = false ->
  EventBody.due_date e = Member.null ->
  patch_of host e
  = Ok (EventPatch.mk
          (EventBody.title e)
          (or_default (Member.text_of (EventBody.description e)) EmptyString)
          (or_default (Member.text_of (EventBody.location e)) EmptyString)
          (GoogleEvent.mkTime "1970-01-01T00:00:00.000Z" (timeZone host))
          (GoogleEvent.mkTime "1970-01-02T00:00:00.000Z" (timeZone host))).
Proof.
  intros Ht Hd. unfold patch_of, patch_times, Date_ofMember.
  rewrite Ht, Hd. reflexivity.
Qed.

(** X21. The update route does not check the date.  A body whose
    [eventData] has no [due_date] is not refused with 400: the route first
    resolves the calendar client, with whatever select and refresh that
    takes.  Then, for an event without [due_time]: when [due_date] is
    absent or the empty string, [new Date] gives the Invalid Date, the
    route answers 500, with the details "Invalid time value" when the
    client resolved, and nothing is sent to the calendar service; when
    [due_date] is [null], [new Date(null)] is the epoch, and as soon as the
    client resolves the route sends the update, an event that starts at
    1970-01-01T00:00:00.000Z and ends a day later. *)
Theorem update_event_without_date (eventId userId : string) (e : EventBody.t)
    (calendarId : option string) (s : Server) :
  truthy (Member.text_of (EventBody.due_time e)) = false ->
  let routed :=
    put_update_event host services eventId userId (Some e) calendarId s in
  let resolved := getCalendarClientFromDatabase host userId (state s) in
  state (snd routed) = snd resolved
  /\ (EventBody.due_date e = Member.absent
      \/ EventBody.due_date e = Member.text EmptyString ->
      Http.status (fst routed) = 500
      /\ requests (snd routed) = requests s
      /\ (forall u, fst resolved = Ok u ->
          fst routed
          = Http.failure "Failed to update event" (Err "Invalid time value")))
  /\ (EventBody.due_date e = Member.null ->
      forall u, fst resolved = Ok u ->
      let q :=
        EventsUpdate (oauth2Client (snd resolved))
          (default "primary" calendarId) eventId
          (EventPatch.mk
             (EventBody.title e)
             (or_default (Member.text_of (EventBody.description e)) EmptyString)
             (or_default (Member.text_of (EventBody.location e)) EmptyString)
             (GoogleEvent.mkTime "1970-01-01T00:00:00.000Z" (timeZone host))
             (GoogleEvent.mkTime "1970-01-02T00:00:00.000Z" (timeZone host))) in
      requests (snd routed) = requests s ++ [q]
      /\ fst routed
         = match calendar_api services q with
           | Ok data => written "Event updated successfully" data
           | Throw err => Http.failure "Failed to update event" err
           end).
Proof.
  intros Ht. cbv zeta. unfold put_update_event, handler. rewrite with_client.
  destruct (getCalendarClientFromDatabase host userId (state s)) as [[[]|err] w0];
    cbn [fst snd].
  - unfold andThen, fromResult. split; [|split].
    + destruct (patch_of host e) as [event|err]; [|reflexivity].
      unfold calendar_request, answer.
      destruct (calendar_api services _); reflexivity.
    + intros Hd. rewrite (patch_of_without_date e Ht Hd). cbn. auto.
    + intros Hd u _. rewrite (patch_of_null_date e Ht Hd).
      unfold calendar_request, answer, posted. cbn [state requests].
      destruct (calendar_api services _); split; reflexivity.
  - destruct err. cbn. split; [reflexivity|].
    split; [intros _; split; [reflexivity|]; split; [reflexivity|discriminate]|].
    discriminate.
Qed.

(** X22. Without a resolvable credential every calendar route answers 500
    and sends nothing.  When [getUserTokensFromDatabase] throws for the
    user (no row, an expired row without refresh token, a refused refresh,
    ...), the add, update, delete-event, sync, create-calendar and
    delete-calendar routes, given a body that passes their own checks, all
    answer 500 with their own [error] string and the message of that error
    as [details]; they leave the state the resolution left and make no
    request to the calendar service. *)
Theorem calendar_routes_need_credentials (userId : string) (s : Server)
    (err : Error) (w0 : World) :
  getUserTokensFromDatabase host userId (state s) = (Throw err, w0) ->
  let failed message routed :=
    routed = (Http.failure message err, mkServer w0 (requests s)) in
  (forall e calendarId, complete (Some e) = true ->
     failed "Failed to add event to Google Calendar"
            (post_add_to_google_calendar host services userId (Some e)
               calendarId s))
  /\ (forall eventId e calendarId,
      failed "Failed to update event"
             (put_update_event host services eventId userId (Some e)
                calendarId s))
  /\ (forall eventId calendarId,
      failed "Failed to delete event"
             (delete_delete_event host services eventId userId calendarId s))
  /\ (forall calendarId startDate endDate,
      failed "Failed to sync events"
             (post_sync_events host userId calendarId startDate endDate s))
  /\ (forall summary description timeZone_, truthy summary = true ->
      failed "Failed to create calendar"
             (post_create_calendar host services userId summary description
                timeZone_ s))
  /\ (forall calendarId,
      failed "Failed to delete calendar"
             (delete_delete_calendar host services calendarId userId s)).
Proof.
  intros E failed. apply client_fails in E. subst failed. cbv beta.
  split; [|split; [|split; [|split; [|split]]]].
  - intros e calendarId C. unfold post_add_to_google_calendar, complete in *.
    destruct (Member.text_of (EventBody.title e)) as [[|c t]|];
      try discriminate.
    destruct (Member.text_of (EventBody.due_date e)) as [[|c' d]|];
      try discriminate.
    unfold handler. now rewrite with_client, E.
  - intros eventId e calendarId. unfold put_update_event, handler.
    now rewrite with_client, E.
  - intros eventId calendarId. unfold delete_delete_event, handler.
    now rewrite with_client, E.
  - intros calendarId startDate endDate.
    unfold post_sync_events, handler, andThen, perform.
    rewrite sync_run, E. reflexivity.
  - intros summary description timeZone_ T. unfold post_create_calendar.
    destruct summary as [[|c x]|]; try discriminate.
    unfold handler. now rewrite with_client, E.
  - intros calendarId. unfold delete_delete_calendar, handler.
    now rewrite with_client, E.
Qed.

(** X23. The sync route reports the events listed, not the rows written.
    [POST /sync-events/:userId] runs the pull on the calendar of the body,
    or on "primary", and makes no request of its own.  When the pull
    succeeds it answers 200 with [syncedCount] the number of events the
    calendar service listed, also spelled out in the message, while the
    event table has grown by at most that many rows; when the pull throws
    it answers 500 with the message of the error and the event table is as
    it was. *)
Theorem sync_route_reports_listed_events (userId : string)
    (calendarId startDate endDate : option string) (s : Server) :
  let run := syncEventsToDatabaseFromDatabase host userId
               (default "primary" calendarId) startDate endDate (state s) in
  let routed := post_sync_events host userId calendarId startDate endDate s in
  snd routed = mkServer (snd run) (requests s)
  /\ match fst run with
     | Ok r =>
         Http.status (fst routed) = 200
         /\ Json.member "syncedCount" (Http.body (fst routed))
            = Some (Json.number (Z.of_nat (length (events r))))
         /\ Json.member "message" (Http.body (fst routed))
            = Some (Json.text ("Successfully synced "
                               +:+ Number_toString (length (events r))
                               +:+ " events"))
         /\ (length (calendar_events (snd run))
             <= length (calendar_events (state s)) + length (events r))%nat
     | Throw err =>
         fst routed = Http.failure "Failed to sync events" err
         /\ calendar_events (snd run) = calendar_events (state s)
     end.
Proof.
  cbv zeta. unfold post_sync_events, handler, andThen, perform, answer.
  pose proof (sync_outcome host userId (default "primary" calendarId)
                startDate endDate (state s)) as O. cbv zeta in O.
  destruct (syncEventsToDatabaseFromDatabase host userId _ startDate endDate
              (state s)) as [[r|err] w1]; cbn [fst snd] in *.
  - split; [reflexivity|]. destruct O as (C & _ & rows & T & ->).
    rewrite C. repeat split.
    destruct (traverse_rows host userId (events r) rows T) as [L _].
    pose proof (upsert_length rows (calendar_events (state s))). lia.
  - auto.
Qed.

End CalendarRoutes.

(** * Instances of the further properties *)

Section RouteWitnesses.
Import JsDate JsString JsDateString Examples RouteExamples.

Lemma refreshed_token_valid_until_expiry_witness :
  let w := world (Some "2024-01-15T09:00:00.000Z") (Some "1//refresh") in
  let w1 := snd (refreshUserTokensFromDatabase host_utc "user-1" "1//refresh" w) in
  getUserTokensFromDatabase host_new_york "user-1" w1
  = (Ok (StoredTokens (Some "ya29.hour") (Some "1//refresh")
                      (Some "2024-01-15T11:00:00.000Z") "user-1"),
     logged w1 [SelectToken "user-1"]).
Proof.
  cbv zeta.
  refine (proj1 (proj2 (refreshed_token_valid_until_expiry host_utc host_new_york
                          "user-1" "1//refresh"
                          (world (Some "2024-01-15T09:00:00.000Z")
                                 (Some "1//refresh"))
                          (Credentials.mk "ya29.hour" (Some "1//refresh")
                                          (Some 1705316400000))
                          1705316400000 _ _ _ _)
                   (TokenRow.mk "user-1" (Some "user-user-1@law-bandit.com")
                      (Some "ya29.hour") (Some "1//refresh")
                      (Some "2024-01-15T11:00:00.000Z")) _ _) _).
  - discriminate.
  - reflexivity.
  - reflexivity.
  - discriminate.
  - reflexivity.
  - reflexivity.
  - vm_compute. discriminate.
Defined.

Lemma failed_refresh_writes_nothing_witness :
  let w := world (Some "2024-01-15T09:00:00.000Z") (Some "1//refresh") in
  let denied := refreshUserTokensFromDatabase host_denied "user-1" "1//refresh" w in
  let down :=
    refreshUserTokensFromDatabase host_store_down "user-1" "1//refresh" w in
  (fst denied = Throw (Err "invalid_grant")
   /\ google_calendar_tokens (snd denied) = google_calendar_tokens w
   /\ oauth2Client (snd denied) = Some (RefreshTokenOnly "1//refresh"))
  /\ (fst down
      = Throw (Err "Failed to update tokens in database: connection lost")
      /\ google_calendar_tokens (snd down) = google_calendar_tokens w
      /\ oauth2Client (snd down)
         = Some (RefreshedCredentials
                   (Credentials.mk "ya29.hour" (Some "1//refresh")
                                   (Some 1705316400000)))).
Proof.
  cbv zeta. split.
  - split; [reflexivity|].
    destruct (failed_refresh_writes_nothing host_denied "user-1" "1//refresh"
                (world (Some "2024-01-15T09:00:00.000Z") (Some "1//refresh"))
                (Err "invalid_grant") eq_refl)
      as (A & _ & [(_ & C & _)|(c & R & _)]).
    + split; [exact A|exact C].
    + cbn in R. discriminate R.
  - split; [reflexivity|].
    destruct (failed_refresh_writes_nothing host_store_down "user-1" "1//refresh"
                (world (Some "2024-01-15T09:00:00.000Z") (Some "1//refresh"))
                (Err "Failed to update tokens in database: connection lost")
                eq_refl)
      as (A & _ & [(R & _)|(c & R & C & _)]).
    + cbn in R. discriminate R.
    + split; [exact A|]. cbn in R. injection R as <-. exact C.
Defined.

Lemma status_predicts_resolution_witness :
  let w := world (Some "2024-01-15T09:00:00.000Z") None in
  exists st,
    fst (getUserConnectionStatusFromDatabase host_new_york "user-1" w) = Ok st
    /\ (Status.connected st = false <->
        exists msg, getUserTokensFromDatabase host_new_york "user-1" w
                    = (Throw (Err msg), logged w [SelectToken "user-1"])).
Proof.
  cbv zeta.
  destruct (status_predicts_resolution host_new_york "user-1"
              (world (Some "2024-01-15T09:00:00.000Z") None)
              ltac:(discriminate) eq_refl) as (st & H1 & H2 & _).
  exists st. split; [exact H1|exact H2].
Defined.

Lemma refresh_route_runs_refresh_witness :
  let w := world (Some "2024-01-15T09:00:00.000Z") (Some "1//refresh") in
  snd (post_google_refresh host_new_york "user-1" w)
  = snd (refreshUserTokensFromDatabase host_new_york "user-1" "1//refresh"
           (logged w [SelectToken "user-1"])).
Proof.
  cbv zeta.
  refine (proj1 (refresh_route_runs_refresh host_new_york "user-1"
                   (world (Some "2024-01-15T09:00:00.000Z") (Some "1//refresh"))
                   (row (Some "2024-01-15T09:00:00.000Z") (Some "1//refresh"))
                   "1//refresh" _ _ _ _ _)).
  - discriminate.
  - reflexivity.
  - reflexivity.
  - reflexivity.
  - discriminate.
Defined.

Lemma pushed_event_pulled_back_witness :
  let eventData :=
    EventData.mk "Moot court" None (Some "Room 101") "2024-01-15" (Some "14:00") in
  exists g,
    formatEventForGoogleCalendar host_utc eventData = Ok g
    /\ exists row,
        toInternal host_new_york "user-1"
          (RemoteEvent.mk "evt7" (Some "Moot court") None
             (RemoteEvent.mkTime
                (Some (GoogleEvent.dateTime (GoogleEvent.start g))) None))
        = Ok row
        /\ EventRow.due_date row = Some "2024-01-15"
        /\ EventRow.due_time row = Some "14:00".
Proof.
  cbv zeta.
  destruct (proj1 (pushed_event_pulled_back host_utc host_new_york "user-1"
                     (EventData.mk "Moot court" None (Some "Room 101")
                                   "2024-01-15" (Some "14:00"))
                     2024 1 15 ltac:(lia) ltac:(lia)
                     ltac:(vm_compute; split; discriminate) eq_refl)
              14 0 ltac:(lia) ltac:(lia) ltac:(reflexivity) eq_refl)
    as (g & Hg & P).
  exists g. split; [exact Hg|].
  exact (P (RemoteEvent.mk "evt7" (Some "Moot court") None
               (RemoteEvent.mkTime
                  (Some (GoogleEvent.dateTime (GoogleEvent.start g))) None))
           (GoogleEvent.dateTime (GoogleEvent.start g)) eq_refl eq_refl).
Defined.

Lemma sync_default_window_witness :
  let w := world (Some "2024-02-01T00:00:00.000Z") (Some "1//refresh") in
  let w0 := snd (getCalendarClientFromDatabase host_new_york "user-1" w) in
  exists timeMin timeMax rest,
    calls (snd (syncEventsToDatabaseFromDatabase host_new_york "user-1" "primary"
                  None None w))
    = calls w0 ++ EventsList (ListParams.mk "primary" timeMin timeMax 2500
                                true "startTime") :: rest
    /\ Date_ofString host_new_york timeMin = Some (now host_new_york)
    /\ Date_ofString host_new_york timeMax
       = Some (now host_new_york + 365 * msPerDay)
    /\ Forall (fun c => exists rows, c = UpsertEvents rows) rest.
Proof.
  cbv zeta.
  refine (sync_default_window host_new_york "user-1" "primary" None None
            (world (Some "2024-02-01T00:00:00.000Z") (Some "1//refresh")) _
            _ eq_refl eq_refl _).
  - vm_compute. discriminate.
  - vm_compute. reflexivity.
Defined.

Lemma sync_date_only_window_witness :
  let w := world (Some "2024-02-01T00:00:00.000Z") (Some "1//refresh") in
  let w0 := snd (getCalendarClientFromDatabase host_new_york "user-1" w) in
  exists rest,
    calls (snd (syncEventsToDatabaseFromDatabase host_new_york "user-1" "primary"
                  (Some "2024-01-15") (Some "2024-01-31") w))
    = calls w0 ++ EventsList (ListParams.mk "primary"
                                "2024-01-15T00:00:00.000Z"
                                "2024-01-31T00:00:00.000Z"
                                2500 true "startTime") :: rest.
Proof.
  cbv zeta.
  refine (sync_date_only_window host_new_york "user-1" "primary"
            (world (Some "2024-02-01T00:00:00.000Z") (Some "1//refresh")) _
            2024 1 15 2024 1 31 _ _ _ _ _ _ _); try lia.
  - vm_compute. split; discriminate.
  - vm_compute. split; discriminate.
  - vm_compute. reflexivity.
Defined.

Lemma sync_unreadable_bound_witness :
  let w := world (Some "2024-02-01T00:00:00.000Z") (Some "1//refresh") in
  syncEventsToDatabaseFromDatabase host_new_york "user-1" "primary"
    (Some "next week") None w
  = (Throw (Err "Invalid time value"),
     snd (getCalendarClientFromDatabase host_new_york "user-1" w)).
Proof.
  cbv zeta.
  refine (sync_unreadable_bound host_new_york "user-1" "primary"
            (Some "next week") None
            (world (Some "2024-02-01T00:00:00.000Z") (Some "1//refresh")) _
            "next week" _ _ _ _).
  - vm_compute. reflexivity.
  - discriminate.
  - reflexivity.
  - left. reflexivity.
Defined.

Lemma sync_unreadable_event_witness :
  let w := world (Some "2024-02-01T00:00:00.000Z") (Some "1//refresh") in
  let params := ListParams.mk "primary" "2024-01-15T10:00:00.000Z"
                              "2025-01-14T10:00:00.000Z" 2500 true "startTime" in
  syncEventsToDatabaseFromDatabase host_utc "user-1" "primary" None None w
  = (Throw (Err "Invalid time value"),
     logged (snd (getCalendarClientFromDatabase host_utc "user-1" w))
            [EventsList params]).
Proof.
  cbv zeta.
  refine (sync_unreadable_event host_utc "user-1" "primary" None None
            (world (Some "2024-02-01T00:00:00.000Z") (Some "1//refresh")) _
            "2024-01-15T10:00:00.000Z" "2025-01-14T10:00:00.000Z"
            [ RemoteEvent.mk "evt9" (Some "Office hours") None
                (RemoteEvent.mkTime (Some "soon") None) ]
            _ _ _ _ _).
  - vm_compute. reflexivity.
  - vm_compute. reflexivity.
  - vm_compute. reflexivity.
  - reflexivity.
  - left. exists "soon". split; [reflexivity|]. split; [discriminate|reflexivity].
Defined.

Lemma tokens_route_returns_stored_witness :
  fst (get_google_tokens host_new_york "user-1"
         (server (Some "2024-01-15T09:00:00.000Z") None))
  = Http.json (tokens_body (row (Some "2024-01-15T09:00:00.000Z") None)).
Proof.
  refine (proj1 (proj2 (tokens_route_returns_stored host_new_york "user-1"
                          (server (Some "2024-01-15T09:00:00.000Z") None) _ _))
            _ _).
  - discriminate.
  - reflexivity.
  - reflexivity.
Defined.

Lemma disconnect_removes_credentials_witness :
  let s := server (Some "2024-02-01T00:00:00.000Z") (Some "1//refresh") in
  let routed := delete_google_disconnect services "user-1" s in
  Http.status (fst routed) = 200
  /\ getUserTokensFromDatabase host_new_york "user-1" (state (snd routed))
     = (Throw (Err "No Google tokens found in database"),
        logged (state (snd routed)) [SelectToken "user-1"]).
Proof.
  cbv zeta.
  destruct (disconnect_removes_credentials services "user-1"
              (server (Some "2024-02-01T00:00:00.000Z") (Some "1//refresh"))
              ltac:(discriminate) eq_refl) as (A & _ & _ & After).
  split; [exact A|].
  exact (proj1 (After host_new_york _ eq_refl eq_refl)).
Defined.

Lemma callback_stores_credentials_witness :
  let s := mkServer (mkWorld [] [] None []) [] in
  let routed := get_google_callback services (Some "4/0AbCd") (Some "user-1") s in
  Http.status (fst routed) = 200
  /\ Store.single "user-1" (google_calendar_tokens (state (snd routed)))
     = Data (TokenRow.mk "user-1" (Some "user-user-1@law-bandit.com")
               (Some "ya29.first") (Some "1//first")
               (Some "2024-01-15T11:00:00.000Z")).
Proof.
  cbv zeta.
  destruct (callback_stores_credentials services "4/0AbCd" "user-1"
              (mkServer (mkWorld [] [] None []) [])
              (Credentials.mk "ya29.first" (Some "1//first") (Some 1705316400000))
              "1//first" (Some "2024-01-15T11:00:00.000Z")
              ltac:(discriminate) ltac:(discriminate) eq_refl eq_refl
              ltac:(vm_compute; reflexivity) eq_refl ltac:(constructor))
    as (A & _ & B & _).
  split; [exact A|exact B].
Defined.

Lemma credential_table_stays_unique_witness :
  let s := server (Some "2024-02-01T00:00:00.000Z") (Some "1//refresh") in
  TokenStore.unique
    (google_calendar_tokens
       (state (snd (get_google_callback services (Some "4/0AbCd")
                      (Some "user-1") s)))).
Proof.
  cbv zeta.
  refine (proj1 (credential_table_stays_unique host_new_york services "user-1"
                   (server (Some "2024-02-01T00:00:00.000Z") (Some "1//refresh"))
                   _) _ _).
  unfold TokenStore.unique. simpl. constructor; [simpl; tauto|constructor].
Defined.

Lemma add_event_sends_draft_witness :
  let s := server (Some "2024-02-01T00:00:00.000Z") (Some "1//refresh") in
  state (snd (post_add_to_google_calendar host_new_york services "user-1"
                (Some moot_court) None s))
  = snd (getCalendarClientFromDatabase host_new_york "user-1" (state s)).
Proof.
  cbv zeta.
  refine (proj1 (add_event_sends_draft host_new_york services "user-1" moot_court
                   None (server (Some "2024-02-01T00:00:00.000Z")
                                (Some "1//refresh"))
                   "Moot court" "2024-01-15" eq_refl _ eq_refl _));
    discriminate.
Defined.

Lemma update_event_matches_add_witness :
  let s := server (Some "2024-02-01T00:00:00.000Z") (Some "1//refresh") in
  state (snd (put_update_event host_new_york services "evt-42" "user-1"
                (Some moot_court) None s))
  = state (snd (post_add_to_google_calendar host_new_york services "user-1"
                  (Some moot_court) None s)).
Proof.
  cbv zeta.
  refine (proj1 (update_event_matches_add host_new_york services "evt-42"
                   "user-1" moot_court None
                   (server (Some "2024-02-01T00:00:00.000Z") (Some "1//refresh"))
                   "Moot court" "2024-01-15" eq_refl _ eq_refl _));
    discriminate.
Defined.

Lemma update_event_without_date_witness :
  let s := server (Some "2024-02-01T00:00:00.000Z") (Some "1//refresh") in
  let stored :=
    Some (StoredTokens (Some "ya29.stored") (Some "1//refresh")
                       (Some "2024-02-01T00:00:00.000Z") "user-1") in
  requests (snd (put_update_event host_new_york services "evt-42" "user-1"
                   (Some undated) None s))
  = [EventsUpdate stored "primary" "evt-42"
       (EventPatch.mk (Member.text "Moot court") EmptyString EmptyString
          (GoogleEvent.mkTime "1970-01-01T00:00:00.000Z" "America/New_York")
          (GoogleEvent.mkTime "1970-01-02T00:00:00.000Z" "America/New_York"))].
Proof.
  cbv zeta.
  exact (proj1 (proj2 (proj2 (update_event_without_date host_new_york services
                                "evt-42" "user-1" undated None
                                (server (Some "2024-02-01T00:00:00.000Z")
                                        (Some "1//refresh"))
                                eq_refl))
                      eq_refl tt eq_refl)).
Defined.

Lemma calendar_routes_need_credentials_witness :
  let s := mkServer (mkWorld [] [] None []) [] in
  post_sync_events host_new_york "user-1" (Some "primary") None None s
  = (Http.failure "Failed to sync events"
       (Err "No Google tokens found in database"),
     mkServer (logged (state s) [SelectToken "user-1"]) []).
Proof.
  cbv zeta.
  refine (proj1 (proj2 (proj2 (proj2
            (calendar_routes_need_credentials host_new_york services "user-1"
               (mkServer (mkWorld [] [] None []) [])
               (Err "No Google tokens found in database")
               (logged (mkWorld [] [] None []) [SelectToken "user-1"]) _))))
            (Some "primary") None None).
  reflexivity.
Defined.

Lemma draft_duration_witness :
  let eventData :=
    EventData.mk "Moot court" None (Some "Room 101") "2024-01-15" (Some "14:00") in
  exists g a,
    formatEventForGoogleCalendar host_new_york eventData = Ok g
    /\ Date_ofString host_utc (GoogleEvent.dateTime (GoogleEvent.start g)) = Some a
    /\ Date_ofString host_utc (GoogleEvent.dateTime (GoogleEvent.end_ g))
       = Some (a + 60 * 60 * 1000).
Proof.
  cbv zeta.
  destruct (draft_duration host_new_york host_utc
              (EventData.mk "Moot court" None (Some "Room 101") "2024-01-15"
                            (Some "14:00"))
              2024 1 15 ltac:(lia) ltac:(lia)
              ltac:(vm_compute; split; discriminate) eq_refl
              ltac:(intros t; unfold msPerDay; simpl; lia)
              ltac:(right; exists 14, 0; repeat split; lia))
    as (g & a & G & S & F & _).
  exists g, a. split; [exact G|]. split; [exact S|exact F].
Defined.

Lemma unreadable_expiry_is_not_expired_witness :
  let w := world (Some "soon") (Some "1//refresh") in
  getUserTokensFromDatabase host_new_york "user-1" w
  = (Ok (StoredTokens (Some "ya29.stored") (Some "1//refresh") (Some "soon")
                      "user-1"),
     logged w [SelectToken "user-1"]).
Proof.
  cbv zeta.
  refine (proj1 (unreadable_expiry_is_not_expired host_new_york "user-1"
                   (world (Some "soon") (Some "1//refresh"))
                   (row (Some "soon") (Some "1//refresh")) "soon" _ _ _ _ _)).
  - discriminate.
  - reflexivity.
  - reflexivity.
  - reflexivity.
  - reflexivity.
Defined.

Lemma sync_replaces_rows_with_same_key_witness :
  let run := syncEventsToDatabaseFromDatabase host_new_york "user-1" "primary"
               None None world_with_syllabus in
  In syllabus_row (calendar_events world_with_syllabus)
  /\ length (calendar_events (snd run)) = 2%nat
  /\ forall x, In x (calendar_events (snd run)) ->
       EventRow.class_id x = None /\ EventRow.event_type x = "google_calendar".
Proof.
  cbv zeta. split; [now left|]. split; [reflexivity|].
  destruct (sync_replaces_rows_with_same_key host_new_york "user-1" "primary"
              None None world_with_syllabus
              (mkSyncResult 2
                 [ RemoteEvent.mk "evt1" (Some "Evidence seminar") None
                     (RemoteEvent.mkTime (Some "2024-01-15T20:00:00-05:00")
                                         None);
                   RemoteEvent.mk "evt2" None None
                     (RemoteEvent.mkTime None (Some "2024-01-17")) ])
              ltac:(repeat constructor; intros [])
              eq_refl) as (A & _ & C).
  intros x Hx. destruct (A x Hx) as [M|[[<-|[]] D]].
  - destruct (C x M) as (_ & C1 & C2 & _). split; [exact C1|exact C2].
  - exfalso.
    refine (D _ (ex_intro _ (RemoteEvent.mk "evt1" (Some "Evidence seminar") None
                     (RemoteEvent.mkTime (Some "2024-01-15T20:00:00-05:00")
                                         None)) (conj _ eq_refl)) eq_refl).
    now left.
Defined.

Lemma second_pull_changes_only_created_at_witness :
  let sync h := syncEventsToDatabaseFromDatabase h "user-1" "primary" None None in
  let w1 := snd (sync host_new_york world_with_syllabus) in
  let w2 := snd (sync host_later w1) in
  map EventRow.created_at (calendar_events w1)
  = ["2024-01-15T10:00:00.000Z"; "2024-01-15T10:00:00.000Z"]
  /\ map EventRow.created_at (calendar_events w2)
     = ["2024-01-15T10:01:00.000Z"; "2024-01-15T10:01:00.000Z"]
  /\ map without_created_at (calendar_events w2)
     = map without_created_at (calendar_events w1).
Proof.
  cbv zeta. split; [vm_compute; reflexivity|]. split; [vm_compute; reflexivity|].
  refine (second_pull_changes_only_created_at host_new_york host_later "user-1"
            "primary" None None world_with_syllabus
            (mkSyncResult 2
               [ RemoteEvent.mk "evt1" (Some "Evidence seminar") None
                   (RemoteEvent.mkTime (Some "2024-01-15T20:00:00-05:00")
                                       None);
                 RemoteEvent.mk "evt2" None None
                   (RemoteEvent.mkTime None (Some "2024-01-17")) ])
            _ _ _).
  - reflexivity.
  - reflexivity.
  - intros params items H. injection H as <-. reflexivity.
Defined.
End RouteWitnesses.
